(** * myriad-api: wallet authentication and social-credential verification

  A shallow embedding of
  - [src/interceptors/authentication.interceptor.ts]
    (class [AuthenticationInterceptor]) and
  - the [UserCredentialController] of [src/controllers/vote.controller.ts],
  with the repositories as lists of records (a Mongo collection keeps
  insertion order and [findOne] returns the first match), exceptions as a
  [Result] type, and the chain client as a log of the calls made on it.
  The writes the interceptor starts without awaiting them are a list of
  started writes, of which any may land afterwards, in any order.

  Strings are byte strings: the addresses, keys and platform names handled
  here are ASCII, for which the JavaScript [length] (UTF-16 units) and the
  length below agree. *)

From Stdlib Require Import String Ascii List ZArith NArith Bool Arith Lia.
Import ListNotations.
Local Open Scope string_scope.
Local Open Scope list_scope.

(* ================================================================== *)
(** * JavaScript string and array primitives used by the sources *)

Module JS.

(** [s.startsWith(p)] *)
Definition startsWith (s p : string) : bool := String.prefix p s.

(** [s.endsWith(p)] *)
Definition endsWith (s p : string) : bool :=
  (String.length p <=? String.length s)%nat
  && String.eqb
       (String.substring (String.length s - String.length p)
                         (String.length p) s) p.

(** [s.substring(a, b)] for [a <= b]; both ends are clamped to the
    length of [s], as [String.substring] does. *)
Definition substring (s : string) (a b : nat) : string :=
  String.substring a (b - a) s.

Fixpoint rev_string (acc s : string) : string :=
  match s with
  | EmptyString => acc
  | String c s' => rev_string (String c acc) s'
  end.

(** The worker of [split]: [skip] counts the characters of a separator
    occurrence still to be dropped, [cur] is the current piece, reversed. *)
Fixpoint split_go (sep : string) (skip : nat) (cur : string) (s : string)
  : list string :=
  match s with
  | EmptyString => [rev_string "" cur]
  | String c s' =>
      match skip with
      | S k => split_go sep k cur s'
      | O =>
          if String.prefix sep s
          then rev_string "" cur
               :: split_go sep (String.length sep - 1) "" s'
          else split_go sep 0 (String c cur) s'
      end
  end.

(** [s.split(sep)] for a non-empty separator string (every call in the
    sources passes a non-empty literal): the pieces between the
    successive, non-overlapping occurrences of [sep], scanning from the
    left. *)
Definition split (s sep : string) : list string := split_go sep 0 "" s.

(** [s.replace(/c/g, d)] for single characters [c] and [d]. *)
Fixpoint replaceAllChar (c d : ascii) (s : string) : string :=
  match s with
  | EmptyString => EmptyString
  | String x s' =>
      String (if Ascii.eqb x c then d else x) (replaceAllChar c d s')
  end.

(** Position of the first occurrence of [p] in [s]. *)
Fixpoint indexOf (p s : string) : option nat :=
  if String.prefix p s then Some 0
  else match s with
       | EmptyString => None
       | String _ s' => option_map S (indexOf p s')
       end.

(** [s.replace(pat, rep)] with a string pattern: the first occurrence of
    [pat] is replaced. *)
Definition replaceFirst (s pat rep : string) : string :=
  match indexOf pat s with
  | Some i =>
      (String.substring 0 i s ++ rep
       ++ String.substring (i + String.length pat) (String.length s) s)%string
  | None => s
  end.

(** The result of [String.prototype.search] as a number: the index, or
    [-1]. *)
Definition indexResult (r : option nat) : Z :=
  match r with
  | Some i => Z.of_nat i
  | None => (-1)%Z
  end.

Fixpoint allChars (p : ascii -> bool) (s : string) : bool :=
  match s with
  | EmptyString => true
  | String c s' => p c && allChars p s'
  end.

(** [s.match('^[C]+$')] is non-null: [s] is non-empty and every
    character of it is in the class [C] (without the [m] flag, [$] only
    matches at the end of the input). *)
Definition matchesClassPlus (p : ascii -> bool) (s : string) : bool :=
  negb (String.eqb s "") && allChars p s.

(** The characters with a meaning of their own in a regular expression. *)
Definition regexMeta (c : ascii) : bool :=
  existsb (Ascii.eqb c) (list_ascii_of_string "\^$.*+?()[]{}|").

(** A pattern string that a regular expression matches literally. *)
Definition regexLiteral (pattern : string) : bool :=
  allChars (fun c => negb (regexMeta c)) pattern.

Definition inRange (lo hi : nat) (c : ascii) : bool :=
  (lo <=? nat_of_ascii c)%nat && (nat_of_ascii c <=? hi)%nat.

Definition isLower : ascii -> bool := inRange 97 122.
Definition isUpper : ascii -> bool := inRange 65 90.
Definition isDigit : ascii -> bool := inRange 48 57.

(** [s[i]] on a string: the character, or [undefined]. *)
Definition charAt (s : string) (i : nat) : option ascii := String.get i s.

(** First element of a destructured array, [const [x] = xs]. *)
Definition first {A} (xs : list A) : option A := nth_error xs 0.

End JS.

(* ================================================================== *)
(** * Exceptions *)

(** The errors thrown in the two sources: the [HttpErrors] classes used,
  the plain [new Error(msg)], the [TypeError] of a property access on
  [undefined], and a failure raised by an external service (database
  driver, HTTP client, chain RPC). *)
Inductive Exn : Type :=
| UnprocessableEntity (msg : string)
| Unauthorized (msg : string)
| Forbidden (msg : string)
| NotFound (msg : string)
| Error (msg : string)
| TypeError (msg : string)
| ExternalError (msg : string).

(** [err.message] *)
Definition message (e : Exn) : string :=
match e with
| UnprocessableEntity m | Unauthorized m | Forbidden m | NotFound m
| Error m | TypeError m | ExternalError m => m
end.

Inductive Result (A : Type) : Type :=
| Ok (a : A)
| Throw (e : Exn).
Arguments Ok {A} a.
Arguments Throw {A} e.

Definition isForbidden {A} (r : Result A) : bool :=
match r with
| Throw (Forbidden _) => true
| _ => false
end.

Definition isOk {A} (r : Result A) : bool :=
match r with
| Ok _ => true
| Throw _ => false
end.

Definition rbind {A B} (r : Result A) (k : A -> Result B) : Result B :=
match r with
| Ok a => k a
| Throw e => Throw e
end.

(** [try { body } catch (err) { throw new HttpErrors.Unauthorized(err.message) }] *)
Definition rewrapUnauthorized {A} (body : Result A) : Result A :=
match body with
| Ok a => Ok a
| Throw e => Throw (Unauthorized (message e))
end.

(* ================================================================== *)
(** * The authentication interceptor
    ([src/interceptors/authentication.interceptor.ts]) *)

Module Auth.

(** ** Data model *)

(** Modelled from the spec: the enums of [../enums] are not among the
    sources.  [MethodType] has the three methods the interceptor
    distinguishes; [PermissionKeys] has the two keys the interceptor
    names, every other key being an [OtherKey]; wallet and network types
    are string-valued enums, of which only [NetworkType.NEAR] is named. *)
Inductive MethodType : Type := SIGNUP | LOGIN | ADMINLOGIN.

Inductive PermissionKeys : Type :=
| ADMIN
| USER
| OtherKey (tag : string).

Definition WalletType := string.
Definition NetworkType := string.
Definition NEAR : NetworkType := "near".

Definition MethodType_eqb (a b : MethodType) : bool :=
  match a, b with
  | SIGNUP, SIGNUP | LOGIN, LOGIN | ADMINLOGIN, ADMINLOGIN => true
  | _, _ => false
  end.

Definition PermissionKeys_eqb (a b : PermissionKeys) : bool :=
  match a, b with
  | ADMIN, ADMIN | USER, USER => true
  | OtherKey s, OtherKey t => String.eqb s t
  | _, _ => false
  end.

Record User : Type := mkUser {
  user_id : string;
  user_name : string;
  user_username : string;
  user_nonce : Z;
  user_permissions : list PermissionKeys
}.

Record Wallet : Type := mkWallet {
  wallet_id : string;
  wallet_type : WalletType;
  wallet_network : NetworkType;
  wallet_primary : bool;
  wallet_userId : option string
}.

Record Network : Type := mkNetwork {
  network_id : NetworkType;
  rpcURL : string
}.

(** The [UserProfile] attached to the request ([createdAt] left out). *)
Record UserProfile : Type := mkUserProfile {
  profile_id : string;
  profile_name : string;
  profile_username : string;
  profile_permissions : list PermissionKeys
}.

Record Credential : Type := mkCredential {
  publicAddress : string;
  nonce : option Z;          (* [None]: the field is absent *)
  signature : string;
  walletType : WalletType;
  networkType : NetworkType;
  data : option UserProfile
}.

(** The signup payload [{name, username, ...wallet}]. *)
Record UserWallet : Type := mkUserWallet {
  uw_name : string;
  uw_username : string;
  uw_address : string;
  uw_type : WalletType;
  uw_network : NetworkType
}.

(** [invocationCtx.args]: [args[0]] is a [UserWallet] (with [args[1]] the
    wallet prepared for the controller) or a [Credential]. *)
Inductive Args : Type :=
| ArgsUserWallet (uw : UserWallet) (wallet : option Wallet)
| ArgsCredential (credential : Credential).

Record InvocationContext : Type := mkCtx {
  methodName : MethodType;
  args : Args
}.

(** What the intercepted controller method returns, as far as the
    interceptor reads it. *)
Record InvocationResult : Type := mkResult {
  result_id : string;
  result_nonce : option Z
}.

Inductive Response : Type :=
| NonceOnly (n : Z)
| Whole (r : InvocationResult).

(** The three collections the interceptor reads and writes. *)
Record Db : Type := mkDb {
  users : list User;
  wallets : list Wallet;
  networks : list Network
}.

(** ** Repository operations *)

(** [walletRepository.exists(id)] *)
Definition walletExists (db : Db) (id : string) : bool :=
  existsb (fun w => String.eqb (wallet_id w) id) (wallets db).

(** [networkRepository.exists(id)] *)
Definition networkExists (db : Db) (id : NetworkType) : bool :=
  existsb (fun n => String.eqb (network_id n) id) (networks db).

(** The error of a [findById] that finds nothing; its message quotes the
    id. *)
Definition entityNotFound (entityName id : string) : Exn :=
  NotFound ("Entity not found: " ++ entityName ++ " with id "
            ++ String "034"%char id ++ String "034"%char "").

(** [networkRepository.findById(id)], which throws when there is none. *)
Definition networkFindById (db : Db) (id : NetworkType) : Result Network :=
  match find (fun n => String.eqb (network_id n) id) (networks db) with
  | Some n => Ok n
  | None => Throw (entityNotFound "Network" id)
  end.

(** [userRepository.findOne({where: {username}})] *)
Definition findUserByUsername (db : Db) (username : string) : option User :=
  find (fun u => String.eqb (user_username u) username) (users db).

Definition findUserById (db : Db) (id : string) : option User :=
  find (fun u => String.eqb (user_id u) id) (users db).

(** [walletRepository.findOne({where: {id, type}, include: ['user']})]:
    the wallet, and the user its [userId] resolves to. *)
Definition findWalletWithUser (db : Db) (id : string) (type : WalletType)
  : option (Wallet * option User) :=
  match find (fun w => String.eqb (wallet_id w) id
                       && String.eqb (wallet_type w) type) (wallets db) with
  | Some w =>
      Some (w, match wallet_userId w with
               | Some uid => findUserById db uid
               | None => None
               end)
  | None => None
  end.

(** [userRepository.updateById(id, {nonce})] *)
Definition updateUserNonce (id : string) (n : Z) (us : list User) : list User :=
  map (fun u => if String.eqb (user_id u) id
                then mkUser (user_id u) (user_name u) (user_username u) n
                            (user_permissions u)
                else u) us.

Definition setPrimary (b : bool) (w : Wallet) : Wallet :=
  mkWallet (wallet_id w) (wallet_type w) (wallet_network w) b (wallet_userId w).

(** [walletRepository.updateAll({primary: b}, where)] *)
Definition updateAllPrimary (b : bool) (where_ : Wallet -> bool)
           (ws : list Wallet) : list Wallet :=
  map (fun w => if where_ w then setPrimary b w else w) ws.

Definition whereUserId (id : string) (w : Wallet) : bool :=
  match wallet_userId w with
  | Some uid => String.eqb uid id
  | None => false
  end.

Definition whereType (t : WalletType) (w : Wallet) : bool :=
  String.eqb (wallet_type w) t.

(** ** lodash [intersection] *)

Fixpoint uniq (xs : list PermissionKeys) : list PermissionKeys :=
  match xs with
  | [] => []
  | x :: r => x :: filter (fun y => negb (PermissionKeys_eqb x y)) (uniq r)
  end.

(** [intersection(xs, ys)]: the distinct values of [xs] that occur in
    [ys], in the order of [xs]. *)
Definition intersection (xs ys : list PermissionKeys) : list PermissionKeys :=
  uniq (filter (fun x => existsb (PermissionKeys_eqb x) ys) xs).

(** ** [validateWalletAddress] *)

Definition nearIdChar (c : ascii) : bool :=
  JS.isLower c || JS.isDigit c || Ascii.eqb c "_" || Ascii.eqb c "-".

Definition validateWalletAddress (db : Db) (id : string) : Result unit :=
  if (String.length id =? 66)%nat then
    if negb (JS.startsWith id "0x")
    then Throw (UnprocessableEntity "Invalid polkadot address")
    else Ok tt
  else if (String.length id =? 42)%nat then
    if negb (JS.startsWith id "0x")
    then Throw (UnprocessableEntity "Invalid ethereum address")
    else Ok tt
  else
    rbind (networkFindById db NEAR) (fun nearNetwork =>
    let environment := nth_error (JS.split (rpcURL nearNetwork) ".") 1 in
    let '(nearStatus, nearId) :=
      match environment with
      | Some "development" =>
          (JS.endsWith id ".testnet", hd "" (JS.split id ".testnet"))
      | _ =>
          (JS.endsWith id ".near", hd "" (JS.split id ".near"))
      end in
    if negb nearStatus
    then Throw (UnprocessableEntity "Invalid near id")
    else if negb (JS.matchesClassPlus nearIdChar nearId)
    then Throw (UnprocessableEntity
      "Only allowed ascii letter (a-z), number (0-9), dash(-) and underscore(_)")
    else Ok tt).

(** ** [validateUsername] *)

Definition usernameChar (c : ascii) : bool :=
  JS.isLower c || JS.isDigit c || Ascii.eqb c "_".

Definition isUnderscore (c : option ascii) : bool :=
  match c with
  | Some x => Ascii.eqb x "_"
  | None => false
  end.

Definition validateUsername (username : string) : Result unit :=
  if isUnderscore (JS.charAt username (String.length username - 1))
  then Throw (UnprocessableEntity
    "Last character must be an ascii letter (a-z) or number (0-9)")
  else if isUnderscore (JS.charAt username 0)
  then Throw (UnprocessableEntity
    "Character must be start from an ascii letter (a-z) or number (0-9)")
  else if negb (JS.matchesClassPlus usernameChar username)
  then Throw (UnprocessableEntity
    "Only allowed ascii letter (a-z), number (0-9), and underscore(_)")
  else Ok tt.

(** ** The permission gate of [beforeAuthenticate] *)

(** The [if (methodName === MethodType.ADMINLOGIN) ... else ...] block:
    the first element of the intersection of the user's permissions with
    the required key must be that key. *)
Definition checkPermission (methodName : MethodType)
           (permissions : list PermissionKeys) : Result unit :=
  if MethodType_eqb methodName ADMINLOGIN then
    match JS.first (intersection permissions [ADMIN]) with
    | Some ADMIN => Ok tt
    | _ => Throw (Forbidden "Invalid admin")
    end
  else
    match JS.first (intersection permissions [USER]) with
    | Some USER => Ok tt
    | _ => Throw (Forbidden "Invalid user")
    end.

(** ** [beforeAuthenticate] *)

Definition setPublicAddress (c : Credential) (a : string) : Credential :=
  mkCredential a (nonce c) (signature c) (walletType c) (networkType c)
               (data c).

Definition setData (c : Credential) (p : UserProfile) : Credential :=
  mkCredential (publicAddress c) (nonce c) (signature c) (walletType c)
               (networkType c) (Some p).

(** [nearAccount ?? publicAddress] *)
Definition orElse (a : option string) (b : string) : string :=
  match a with
  | Some x => x
  | None => b
  end.

(** The signup branch: the checks, then the two rewritten arguments. *)
Definition beforeSignup (uw : UserWallet) (db : Db) : Result Args :=
  if walletExists db (uw_address uw)
  then Throw (UnprocessableEntity "Wallet address already exists")
  else if negb (networkExists db (uw_network uw))
  then Throw (UnprocessableEntity "Network not exists")
  else match findUserByUsername db (uw_username uw) with
       | Some _ => Throw (UnprocessableEntity "User already exists")
       | None =>
           rbind (validateWalletAddress db (uw_address uw)) (fun _ =>
           rbind (validateUsername (uw_username uw)) (fun _ =>
           Ok (ArgsUserWallet
                 (mkUserWallet (JS.substring (uw_name uw) 0 22)
                               (uw_username uw) (uw_address uw)
                               (uw_type uw) (uw_network uw))
                 (Some (mkWallet (uw_address uw) (uw_type uw)
                                 (uw_network uw) true None)))))
       end.

(** The body of the [try] block of the login branch.  [validateAccount]
    is the signature check of [../utils/validate-account]. *)
Definition verifyLogin (validateAccount : Credential -> bool)
           (methodName : MethodType) (credential : Credential) (db : Db)
  : Result Credential :=
  let parts := JS.split (publicAddress credential) "/" in
  let publicAddress := hd "" parts in
  let nearAccount := nth_error parts 1 in
  match nonce credential with
  | None | Some Z0 => Throw (Error "Invalid nonce!")
  | Some nonce =>
      if negb (networkExists db (networkType credential))
      then Throw (UnprocessableEntity "Network not exists")
      else
        match findWalletWithUser db (orElse nearAccount publicAddress)
                                 (walletType credential) with
        | Some (_, Some user) =>
            if negb (Z.eqb (user_nonce user) nonce)
            then Throw (Error "Invalid nonce!")
            else
              let credential := setPublicAddress credential publicAddress in
              if negb (validateAccount credential)
              then Throw (Error "Failed to verified!")
              else
                rbind (checkPermission methodName (user_permissions user))
                  (fun _ =>
                     Ok (setData credential
                           (mkUserProfile (user_id user) (user_name user)
                                          (user_username user)
                                          (user_permissions user))))
        | _ => Throw (Error "Wallet address not exists!")
        end
  end.

(** [beforeAuthenticate]: the context with its rewritten arguments, or the
    exception thrown.  The casts [as UserWallet] and [as Credential] are
    unchecked in the source; a context whose argument has the other shape
    fails on the first property access. *)
Definition beforeAuthenticate (validateAccount : Credential -> bool)
           (invocationCtx : InvocationContext) (db : Db)
  : Result InvocationContext :=
  match methodName invocationCtx, args invocationCtx with
  | SIGNUP, ArgsUserWallet uw _ =>
      rbind (beforeSignup uw db) (fun a => Ok (mkCtx SIGNUP a))
  | SIGNUP, ArgsCredential _ =>
      Throw (TypeError "Cannot read properties of undefined")
  | m, ArgsCredential credential =>
      rewrapUnauthorized
        (rbind (verifyLogin validateAccount m credential db)
               (fun c => Ok (mkCtx m (ArgsCredential c))))
  | _, ArgsUserWallet _ _ =>
      rewrapUnauthorized
        (Throw (TypeError "Cannot read properties of undefined"))
  end.

(** ** Detached writes *)

(** [afterAuthenticate] hands its repository calls to
    [Promise.allSettled] and does not await the result: the writes are
    started when it returns, land afterwards in an order the source does
    not fix, and one that is rejected is dropped.  A [Write] is such a
    call, as far as it touches users and wallets (the other calls seed or
    refresh collections that are not modelled). *)
Inductive Where : Type :=
| WhereUserId (userId : string)
| WhereType (type : WalletType).

Inductive Write : Type :=
| WalletCreate (userId : string) (wallet : Wallet)
| UserUpdateById (id : string) (nonce : Z)
| WalletUpdateAll (primary : bool) (where_ : Where).

Definition matches (where_ : Where) : Wallet -> bool :=
  match where_ with
  | WhereUserId id => whereUserId id
  | WhereType t => whereType t
  end.

Definition setUserId (w : Wallet) (id : string) : Wallet :=
  mkWallet (wallet_id w) (wallet_type w) (wallet_network w)
           (wallet_primary w) (Some id).

(** One write landing.  [userRepository.wallets(id).create(wallet)] is
    rejected when a wallet with that id is stored already, and leaves the
    collection as it is. *)
Definition land (t : Write) (db : Db) : Db :=
  match t with
  | WalletCreate userId wallet =>
      if walletExists db (wallet_id wallet) then db
      else mkDb (users db) (wallets db ++ [setUserId wallet userId])
                (networks db)
  | UserUpdateById id nonce =>
      mkDb (updateUserNonce id nonce (users db)) (wallets db) (networks db)
  | WalletUpdateAll primary where_ =>
      mkDb (users db) (updateAllPrimary primary (matches where_) (wallets db))
           (networks db)
  end.

(** The database once the writes listed in [schedule] have landed, in
    that order.  A schedule lists positions in [started]; a write that is
    not listed was rejected, or has not landed yet. *)
Fixpoint settled (started : list Write) (schedule : list nat) (db : Db) : Db :=
  match schedule with
  | [] => db
  | i :: later =>
      settled started later
              (match nth_error started i with
               | Some t => land t db
               | None => db
               end)
  end.

(** ** [afterAuthenticate] *)

(** The writes of the login branch, in the order in which the source
    starts them; [newNonce] is the value [ng.generate()] returned. *)
Definition loginWrites (id : string) (walletType : WalletType) (newNonce : Z)
  : list Write :=
  [UserUpdateById id newNonce;
   WalletUpdateAll false (WhereUserId id);
   WalletUpdateAll true (WhereType walletType)].

(** [afterAuthenticate]: the writes it has started when it returns, or
    the exception thrown before any is started.  It writes nothing
    itself. *)
Definition afterAuthenticate (invocationCtx : InvocationContext)
           (result : InvocationResult) (newNonce : Z)
  : Result (list Write) :=
  match methodName invocationCtx, args invocationCtx with
  | SIGNUP, ArgsUserWallet _ (Some wallet) =>
      Ok [WalletCreate (result_id result) wallet]
  | SIGNUP, _ => Throw (TypeError "Cannot read properties of undefined")
  | _, ArgsCredential credential =>
      match data credential with
      | Some d => Ok (loginWrites (profile_id d) (walletType credential) newNonce)
      | None => Throw (TypeError "Cannot read properties of undefined")
      end
  | _, ArgsUserWallet _ _ =>
      Throw (TypeError "Cannot read properties of undefined")
  end.

(** ** [intercept] *)

(** [if (result.nonce) return {nonce: result.nonce}; return result] *)
Definition respond (result : InvocationResult) : Response :=
  match result_nonce result with
  | Some Z0 | None => Whole result
  | Some n => NonceOnly n
  end.

(** [intercept]: the answer, the database as it is when [intercept]
    returns, and the writes started and not awaited.  [next] is the
    intercepted controller method, which may write to the database. *)
Definition intercept (validateAccount : Credential -> bool)
           (next : InvocationContext -> Db -> Result InvocationResult * Db)
           (newNonce : Z) (invocationCtx : InvocationContext) (db : Db)
  : Result Response * Db * list Write :=
  match beforeAuthenticate validateAccount invocationCtx db with
  | Throw e => (Throw e, db, [])
  | Ok ctx =>
      match next ctx db with
      | (Throw e, db1) => (Throw e, db1, [])
      | (Ok result, db1) =>
          match afterAuthenticate ctx result newNonce with
          | Throw e => (Throw e, db1, [])
          | Ok started => (Ok (respond result), db1, started)
          end
      end
  end.

(** ** The primary-wallet invariant *)

Definition primaryWalletsOf (db : Db) (uid : string) : list Wallet :=
  filter (fun w => wallet_primary w && whereUserId uid w) (wallets db).

(** Every user has at most one wallet with [primary = true]. *)
Definition atMostOnePrimary (db : Db) : Prop :=
  forall uid, (List.length (primaryWalletsOf db uid) <= 1)%nat.

(** The wallets of the users other than [uid]. *)
Definition walletsOfOthers (db : Db) (uid : string) : list Wallet :=
  filter (fun w => negb (whereUserId uid w)) (wallets db).

End Auth.

(* ================================================================== *)
(** * The user-credential controller
    ([UserCredentialController] in [src/controllers/vote.controller.ts]) *)

Module UserCredentialController.

(** ** Data model *)

(** Identifiers generated by the database for people and credentials. *)
Definition ObjectId := nat.

Record People : Type := mkPeople {
  people_id : ObjectId;
  people_username : string;
  people_platform_account_id : string;
  people_platform : string;
  people_profile_image_url : string
}.

Record UserCredential : Type := mkUserCredential {
  credential_id : ObjectId;
  credential_userId : string;
  credential_peopleId : ObjectId;
  credential_isLogin : bool
}.

Record PlatformUser : Type := mkPlatformUser {
  pu_platform_account_id : string
}.

Record Post : Type := mkPost {
  post_id : string;
  post_peopleId : option ObjectId;
  post_walletAddress : string;
  post_platformUser : option PlatformUser
}.

(** The [interface User] of the source: a persona descriptor. *)
Record User : Type := mkUser {
  id : string;
  username : string;
  platform : string;
  profile_image_url : string
}.

(** ** The chain client *)

(** The calls made on the chain client, in order. *)
Inductive ChainEvent : Type :=
| Connect
| Query (address : string)
| SignAndSend (fromUri to : string) (amount : Z)
| Disconnect.

Definition isConnect (e : ChainEvent) : bool :=
  match e with Connect => true | _ => false end.
Definition isDisconnect (e : ChainEvent) : bool :=
  match e with Disconnect => true | _ => false end.
Definition isSignAndSend (e : ChainEvent) : bool :=
  match e with SignAndSend _ _ _ => true | _ => false end.

(** ** External services *)

Record TwitterUser : Type := mkTwitterUser {
  tw_id : string;
  tw_username : string;
  tw_profile_image_url : option string
}.

Record Tweet : Type := mkTweet { text : string }.

Record RedditUser : Type := mkRedditUser {
  rd_id : string;
  rd_name : string;
  rd_icon_img : option string
}.

Record RedditChild : Type := mkRedditChild { title : string }.

(** What the outside world answers.  The HTTP clients are keyed by the
    request path the source builds; each returns the [data] field of the
    response, or throws.  [regexSearch text pattern] is the regular
    expression engine behind [String.prototype.search].  [polkadotApi]
    tells whether the connection is established; [address] is the address
    of the key pair [keyring.addFromUri] derives; [free] is
    [balance.free.toNumber()] of the account queried, [None] when the
    query or the conversion throws; [signAndSend] tells whether the
    signed transfer goes through. *)
Record Services : Type := mkServices {
  twitterUsers : string -> Result (option TwitterUser);
  twitterTweets : string -> Result (list Tweet);
  redditAbout : string -> Result RedditUser;
  redditListing : string -> Result (list RedditChild);
  facebookPosts : string -> Result string;
  regexSearch : string -> string -> Z;
  polkadotApi : bool;
  address : string -> string;
  free : string -> option N;
  signAndSend : string -> string -> Z -> bool
}.

(** ** State and effects *)

Record World : Type := mkWorld {
  people : list People;
  credentials : list UserCredential;
  posts : list Post;
  nextId : ObjectId;
  chainLog : list ChainEvent
}.

(** A computation reads and writes the world and returns or throws; what
    was written before a throw stays written. *)
Definition M (A : Type) : Type := World -> Result A * World.

Definition ret {A} (a : A) : M A := fun w => (Ok a, w).
Definition throw {A} (e : Exn) : M A := fun w => (Throw e, w).
Definition lift {A} (r : Result A) : M A := fun w => (r, w).

Definition bind {A B} (m : M A) (k : A -> M B) : M B :=
  fun w =>
    match m w with
    | (Ok a, w') => k a w'
    | (Throw e, w') => (Throw e, w')
    end.

(** [try { m } catch (err) { h }] *)
Definition tryCatch {A} (m : M A) (h : Exn -> M A) : M A :=
  fun w =>
    match m w with
    | (Ok a, w') => (Ok a, w')
    | (Throw e, w') => h e w'
    end.

Definition gets {A} (f : World -> A) : M A := fun w => (Ok (f w), w).
Definition modify (f : World -> World) : M unit := fun w => (Ok tt, f w).

Declare Scope m_scope.
Delimit Scope m_scope with m.
Notation "x <- m ;; k" := (bind m (fun x => k))
  (at level 61, m at next level, right associativity) : m_scope.
Notation "m ;;; k" := (bind m (fun _ => k))
  (at level 61, right associativity) : m_scope.
Local Open Scope m_scope.

(** [for (let i = 0; i < xs.length; i++) { await body(xs[i]) }] *)
Fixpoint forEach {A} (xs : list A) (body : A -> M unit) : M unit :=
  match xs with
  | [] => ret tt
  | x :: r => body x ;;; forEach r body
  end.

Definition logChain (e : ChainEvent) : M unit :=
  modify (fun w => mkWorld (people w) (credentials w) (posts w) (nextId w)
                           (chainLog w ++ [e])).

(** ** Repository operations *)

(** [peopleRepository.findOne({where: {id}})] *)
Definition peopleFindById (pid : ObjectId) : M (option People) :=
  gets (fun w => find (fun p => Nat.eqb (people_id p) pid) (people w)).

(** [peopleRepository.findOne({where: {platform_account_id, platform}})] *)
Definition peopleFindByAccount (account platform : string)
  : M (option People) :=
  gets (fun w =>
          find (fun p => String.eqb (people_platform_account_id p) account
                         && String.eqb (people_platform p) platform)
               (people w)).

(** [userCredentialRepository.find({where: {userId}})] *)
Definition credentialsOfUser (userId : string) : M (list UserCredential) :=
  gets (fun w => filter (fun c => String.eqb (credential_userId c) userId)
                        (credentials w)).

(** [userCredentialRepository.findOne({where: {userId, peopleId}})] *)
Definition credentialFindOne (userId : string) (peopleId : ObjectId)
  : M (option UserCredential) :=
  gets (fun w => find (fun c => String.eqb (credential_userId c) userId
                                && Nat.eqb (credential_peopleId c) peopleId)
                      (credentials w)).

Definition hasCredential (cid : ObjectId) (w : World) : bool :=
  existsb (fun c => Nat.eqb (credential_id c) cid) (credentials w).

(** [peopleRepository.userCredential(peopleId).create({userId, isLogin})]:
    the record is stored under a fresh id.  (A datastore that fails is
    outside this model: the two creations always store.) *)
Definition createUserCredential (peopleId : ObjectId) (userId : string)
           (isLogin : bool) : M unit :=
  modify (fun w =>
            mkWorld (people w)
                    (credentials w
                     ++ [mkUserCredential (nextId w) userId peopleId isLogin])
                    (posts w) (S (nextId w)) (chainLog w)).

(** [peopleRepository.create({...})], returning the record it stored
    under a fresh id. *)
Definition createPeople (username account platform image : string)
  : M People :=
  fun w =>
    let p := mkPeople (nextId w) username account platform image in
    (Ok p, mkWorld (people w ++ [p]) (credentials w) (posts w)
                   (S (nextId w)) (chainLog w)).

(** [userCredentialRepository.updateById(id, {isLogin})]; it throws when
    no record has the id. *)
Definition updateById (cid : ObjectId) (isLogin : bool) : M unit :=
  fun w =>
    if hasCredential cid w then
      (Ok tt,
       mkWorld (people w)
               (map (fun c => if Nat.eqb (credential_id c) cid
                              then mkUserCredential (credential_id c)
                                     (credential_userId c)
                                     (credential_peopleId c) isLogin
                              else c) (credentials w))
               (posts w) (nextId w) (chainLog w))
    else (Throw (NotFound "Entity not found: UserCredential"), w).

(** [userCredentialRepository.deleteById(id)]; it throws when no record
    has the id. *)
Definition deleteById (cid : ObjectId) : M unit :=
  fun w =>
    if hasCredential cid w then
      (Ok tt,
       mkWorld (people w)
               (filter (fun c => negb (Nat.eqb (credential_id c) cid))
                       (credentials w))
               (posts w) (nextId w) (chainLog w))
    else (Throw (NotFound "Entity not found: UserCredential"), w).

(** ** The fund sweeps *)

Definition gasFee : Z := 125000147.

(** [await polkadotApi()] *)
Definition connect (sv : Services) : M unit :=
  if polkadotApi sv then logChain Connect
  else throw (ExternalError "chain connection failed").

(** The body of the [for] loop, which the two sweeps share word for word:
    derive the key pair of the post, query its account and, when the free
    balance is non-zero, sign and send the transfer. *)
Definition transferFrom (sv : Services) (to : string) (post : Post)
  : M unit :=
  let from := ("//" ++ post_id post)%string in
  logChain (Query (address sv from)) ;;;
  match free sv (address sv from) with
  | None => throw (ExternalError "account query failed")
  | Some balance =>
      if N.eqb balance 0 then ret tt
      else
        logChain (SignAndSend from to (Z.of_N balance - gasFee)) ;;;
        if signAndSend sv from to (Z.of_N balance - gasFee)
        then ret tt
        else throw (ExternalError "transfer failed")
  end.

(** The [where] clause of [transferEscorwToUser]. *)
Definition escrowPosts (peopleId : ObjectId) (userId : string)
           (ps : list Post) : list Post :=
  filter (fun p => match post_peopleId p with
                   | Some q => Nat.eqb q peopleId
                   | None => false
                   end
                   && negb (String.eqb (post_walletAddress p) userId)) ps.

Definition transferEscorwToUser (sv : Services) (peopleId : ObjectId)
           (userId : string) : M unit :=
  posts <- gets (fun w => escrowPosts peopleId userId (posts w)) ;;
  connect sv ;;;
  forEach posts (transferFrom sv userId) ;;;
  logChain Disconnect.

(** The [where] clause and the [filter] of [transferTipsToUser]. *)
Definition tipPosts (publicKey platformAccountId : string)
           (ps : list Post) : list Post :=
  filter (fun post => match post_platformUser post with
                      | Some pu => String.eqb platformAccountId
                                     (pu_platform_account_id pu)
                      | None => false
                      end)
         (filter (fun p => negb (String.eqb (post_walletAddress p) publicKey))
                 ps).

Definition transferTipsToUser (sv : Services) (publicKey : string)
           (platformAccountId : string) : M unit :=
  userPost <- gets (fun w => tipPosts publicKey platformAccountId (posts w)) ;;
  connect sv ;;;
  forEach userPost (transferFrom sv publicKey) ;;;
  logChain Disconnect.

(** ** [createCredential] *)

Definition createCredential (user : User) (publicKey : string) : M unit :=
  credentials <- credentialsOfUser publicKey ;;
  forEach credentials (fun c =>
    person <- peopleFindById (credential_peopleId c) ;;
    match person with
    | Some person =>
        if String.eqb (people_platform person) (platform user)
        then throw (UnprocessableEntity
                      ("This " ++ people_platform person
                               ++ " does not belong to you!")%string)
        else ret tt
    | None => ret tt
    end) ;;;
  foundPeople <- peopleFindByAccount (id user) (platform user) ;;
  match foundPeople with
  | Some foundPeople =>
      match find (fun credential =>
                    Nat.eqb (credential_peopleId credential)
                            (people_id foundPeople)) credentials with
      | None => createUserCredential (people_id foundPeople) publicKey true
      | Some foundCredential =>
          updateById (credential_id foundCredential) true
      end
  | None =>
      newPeople <- createPeople (username user) (id user) (platform user)
                                (profile_image_url user) ;;
      createUserCredential (people_id newPeople) publicKey true
  end.

(** ** [verifyUser]: verification by a published key *)

(** [text.search(pattern)]: the pattern string is compiled to a regular
    expression; one without metacharacters matches as a substring, any
    other is left to the engine. *)
Definition search (sv : Services) (text pattern : string) : Z :=
  if JS.regexLiteral pattern
  then JS.indexResult (JS.indexOf pattern text)
  else regexSearch sv text pattern.

Definition verifyUser (sv : Services) (publicKey username platform : string)
  : M bool :=
  if String.eqb platform "twitter" then
    user <- lift (twitterUsers sv
              ("users/by/username/" ++ username
               ++ "?user.fields=profile_image_url")%string) ;;
    match user with
    | None => throw (NotFound "Invalid username")
    | Some user =>
        tweets <- lift (twitterTweets sv
                    ("users/" ++ tw_id user ++ "/tweets?max_results=5")%string) ;;
        match tweets with
        | [] => throw (TypeError "Cannot read properties of undefined")
        | tweet0 :: _ =>
            if Z.eqb (search sv (text tweet0) publicKey) (-1)
            then throw (NotFound "Cannot find specified post")
            else
              createCredential
                (mkUser (tw_id user) (tw_username user) platform
                        (match tw_profile_image_url user with
                         | Some url => JS.replaceFirst url "normal" "400x400"
                         | None => ""
                         end))
                publicKey ;;;
              transferTipsToUser sv publicKey (tw_id user) ;;;
              ret true
        end
    end
  else if String.eqb platform "reddit" then
    redditUser <- lift (redditAbout sv
                    ("user/" ++ username ++ "/about.json")%string) ;;
    children <- lift (redditListing sv
                  ("user/" ++ username ++ "/.json?limit=1")%string) ;;
    match children with
    | [] => throw (NotFound "Cannot find the spesified post")
    | child0 :: _ =>
        if Z.eqb (search sv (title child0) publicKey) (-1)
        then throw (NotFound "Cannot find specified post")
        else
          createCredential
            (mkUser ("t2_" ++ rd_id redditUser)%string (rd_name redditUser)
                    "reddit"
                    (match rd_icon_img redditUser with
                     | Some url => hd "" (JS.split url "?")
                     | None => ""
                     end))
            publicKey ;;;
          transferTipsToUser sv publicKey ("t2_" ++ rd_id redditUser)%string ;;;
          ret true
    end
  else throw (NotFound "Platform does not exist").

(** ** [verify]: re-checking a stored link *)

Definition newline : ascii := "010"%char.
Definition space : ascii := " "%char.

(** [text.replace(/\n/g, ' ').split(' ')[7]] of the twitter branch. *)
Definition twitterToken (text : string) : option string :=
  nth_error (JS.split (JS.replaceAllChar newline space text) " ") 7.

(** [title.replace(/n/g, ' ').split(' ')[7]] of the reddit branch: the
    expression replaces the letter [n]. *)
Definition redditToken (title : string) : option string :=
  nth_error (JS.split (JS.replaceAllChar "n"%char space title) " ") 7.

Definition facebookPhrase : string :=
  "Saying hi to #MyriadNetwork Public Key: ".

(** The facebook branch: the 49 characters after the canned phrase, or
    [null] when the phrase does not occur ([search] with this constant
    pattern is a substring search). *)
Definition facebookKey (page : string) : option string :=
  match JS.indexOf facebookPhrase page with
  | Some indexFBPublicKey =>
      let index := indexFBPublicKey + String.length facebookPhrase in
      Some (JS.substring page index (index + 49))
  | None => None
  end.

(** [userId === key] *)
Definition sameKey (userId : string) (key : option string) : bool :=
  match key with
  | Some k => String.eqb userId k
  | None => false
  end.

(** The tail every branch shares: sweep the escrow and answer [true] on a
    match, delete the link and answer [false] otherwise. *)
Definition settle (sv : Services) (matched : bool) (peopleId : ObjectId)
           (userId : string) (foundCredential : UserCredential) : M bool :=
  if matched
  then transferEscorwToUser sv peopleId userId ;;; ret true
  else deleteById (credential_id foundCredential) ;;; ret false.

(** The body of the [try] block of [verify]. *)
Definition verifyTry (sv : Services) (userId : string) (peopleId : ObjectId)
  : M bool :=
  foundPeople <- peopleFindById peopleId ;;
  foundCredential <- credentialFindOne userId peopleId ;;
  match foundPeople, foundCredential with
  | None, _ => ret false
  | _, None => ret false
  | Some foundPeople, Some foundCredential =>
      let platform := people_platform foundPeople in
      if String.eqb platform "twitter" then
        tweets <- lift (twitterTweets sv
                    ("users/" ++ people_platform_account_id foundPeople
                     ++ "}/tweets?max_results=5")%string) ;;
        match tweets with
        | [] => throw (TypeError "Cannot read properties of undefined")
        | tweet0 :: _ =>
            settle sv (sameKey userId (twitterToken (text tweet0)))
                   peopleId userId foundCredential
        end
      else if String.eqb platform "reddit" then
        children <- lift (redditListing sv
                      ("u/" ++ people_username foundPeople
                       ++ ".json?limit=1")%string) ;;
        match children with
        | [] => throw (TypeError "Cannot read properties of undefined")
        | child0 :: _ =>
            settle sv (sameKey userId (redditToken (title child0)))
                   peopleId userId foundCredential
        end
      else if String.eqb platform "facebook" then
        facebookPosts <- lift (facebookPosts sv
                           (people_platform_account_id foundPeople)) ;;
        settle sv (sameKey userId (facebookKey facebookPosts))
               peopleId userId foundCredential
      else ret false
  end.

(** [verify]: [try { ... } catch (err) { return false }] *)
Definition verify (sv : Services) (userId : string) (peopleId : ObjectId)
  : M bool :=
  tryCatch (verifyTry sv userId peopleId) (fun _ => ret false).

End UserCredentialController.

(* ================================================================== *)
(** * Properties of the authentication interceptor *)

Section AuthenticationProperties.

Import Auth.

(** ** Vocabulary of the statements *)

(** The two halves of [credential.publicAddress.split('/')]. *)
Definition primaryAddress (c : Credential) : string :=
  hd "" (JS.split (publicAddress c) "/").

Definition nearAccount (c : Credential) : option string :=
  nth_error (JS.split (publicAddress c) "/") 1.

(** The wallet and user a login resolves to, when the network is
    registered. *)
Definition resolves (db : Db) (c : Credential) (w : Wallet) (u : User) : Prop :=
  networkExists db (networkType c) = true
  /\ findWalletWithUser db (orElse (nearAccount c) (primaryAddress c))
                        (walletType c) = Some (w, Some u).

(** The error a login with a bad nonce ends in, as it leaves the [catch]. *)
Definition InvalidNonce : Exn := Unauthorized "Invalid nonce!".

Definition loginCtx (m : MethodType) (c : Credential) : InvocationContext :=
  mkCtx m (ArgsCredential c).

Definition ownerPrimaryCount (db : Db) (w : Wallet) : nat :=
  match wallet_userId w with
  | Some uid => List.length (primaryWalletsOf db uid)
  | None => 0
  end.

(** [atMostOnePrimary], decided. *)
Definition atMostOnePrimaryb (db : Db) : bool :=
  forallb (fun w => (ownerPrimaryCount db w <=? 1)%nat) (wallets db).

(** The local id as the specification words it: the address without its
    suffix. *)
Definition stripSuffix (id suffix : string) : string :=
  String.substring 0 (String.length id - String.length suffix) id.

(** ** A database with two users *)

Definition alice : User := mkUser "alice" "Alice" "alice1" 11 [USER].
Definition bob : User := mkUser "bob" "Bob" "bob_2" 7 [USER].
Definition root : User := mkUser "root" "Root" "root" 5 [ADMIN; USER].

Definition alicePolkadot : Wallet :=
  mkWallet "0xa11ce" "polkadot" "myriad" true (Some "alice").
Definition aliceNear : Wallet :=
  mkWallet "alice.near" "near" "near" false (Some "alice").
Definition bobNear : Wallet :=
  mkWallet "bob.near" "near" "near" true (Some "bob").
Definition rootPolkadot : Wallet :=
  mkWallet "0x7007" "polkadot" "myriad" true (Some "root").

Definition mainnet : list Network :=
  [mkNetwork "myriad" "wss://ws-rpc.myriad.social";
   mkNetwork "near" "https://rpc.mainnet.near.org"].

Definition testnet : list Network :=
  [mkNetwork "near" "https://rpc.development.near.org"].

Definition twoUsers : Db :=
  mkDb [alice; bob; root] [alicePolkadot; aliceNear; bobNear; rootPolkadot]
       mainnet.

Definition bobLogin : Credential :=
  mkCredential "0xb0b/bob.near" (Some 7%Z) "signed" "near" "near" None.

Definition aliceAdminLogin : Credential :=
  mkCredential "0xa11ce" (Some 11%Z) "signed" "polkadot" "myriad" None.

Definition rootAdminLogin : Credential :=
  mkCredential "0x7007" (Some 5%Z) "signed" "polkadot" "myriad" None.

Definition accepting : Credential -> bool := fun _ => true.

(** A login controller that answers without writing to the database. *)
Definition issueToken : InvocationContext -> Db -> Result InvocationResult * Db :=
  fun _ db => (Ok (mkResult "token" None), db).

(** ** The primary-wallet invariant *)

Lemma atMostOnePrimaryb_spec (db : Db) :
  atMostOnePrimaryb db = true <-> atMostOnePrimary db.
Proof.
  unfold atMostOnePrimaryb, atMostOnePrimary. rewrite forallb_forall. split.
  - intros H uid.
    destruct (primaryWalletsOf db uid) as [|w r] eqn:E; [simpl; lia|].
    assert (Hin : In w (primaryWalletsOf db uid)) by (rewrite E; now left).
    unfold primaryWalletsOf in Hin. apply filter_In in Hin.
    destruct Hin as [Hw Hc]. apply andb_true_iff in Hc. destruct Hc as [_ Hu].
    specialize (H w Hw). unfold ownerPrimaryCount in H.
    unfold whereUserId in Hu.
    destruct (wallet_userId w) as [u|]; [|discriminate].
    apply String.eqb_eq in Hu. subst u. apply Nat.leb_le in H.
    now rewrite E in H.
  - intros H w _. unfold ownerPrimaryCount.
    destruct (wallet_userId w); apply Nat.leb_le; [apply H|lia].
Qed.

(** ** Writes that land *)

(** What a write that creates nothing does to one wallet. *)
Definition landOnWallet (t : Write) (w : Wallet) : Wallet :=
  match t with
  | WalletUpdateAll primary where_ =>
      if matches where_ w then setPrimary primary w else w
  | _ => w
  end.

(** One wallet, once the writes listed in the schedule have landed. *)
Fixpoint settledWallet (started : list Write) (schedule : list nat)
         (w : Wallet) : Wallet :=
  match schedule with
  | [] => w
  | i :: later =>
      settledWallet started later
                    (match nth_error started i with
                     | Some t => landOnWallet t w
                     | None => w
                     end)
  end.

Definition isUpdate (t : Write) : bool :=
  match t with
  | WalletCreate _ _ => false
  | _ => true
  end.

(** The write at position [i] is among those that land. *)
Definition lands (i : nat) (schedule : list nat) : bool :=
  existsb (Nat.eqb i) schedule.

(** Two wallets that differ in their [primary] flag at most. *)
Definition sameButPrimary (w w' : Wallet) : Prop :=
  wallet_id w' = wallet_id w /\ wallet_type w' = wallet_type w
  /\ wallet_network w' = wallet_network w
  /\ wallet_userId w' = wallet_userId w.

Lemma lands_In i schedule : lands i schedule = true <-> In i schedule.
Proof.
  unfold lands. rewrite existsb_exists. split.
  - intros (x & Hin & Hx). apply Nat.eqb_eq in Hx. now subst.
  - intros H. exists i. split; [assumption|apply Nat.eqb_refl].
Qed.

Lemma lands_not_In i schedule : lands i schedule = false <-> ~ In i schedule.
Proof.
  rewrite <- lands_In. destruct (lands i schedule); split; intros H;
    try discriminate; try reflexivity; now elim H.
Qed.

Lemma wallets_land_update t db :
  isUpdate t = true -> wallets (land t db) = map (landOnWallet t) (wallets db).
Proof.
  destruct t as [uid w|id n|b wh]; [discriminate| |]; intros _; cbn.
  - symmetry. apply map_id.
  - reflexivity.
Qed.

Lemma wallets_settled started schedule db :
  forallb isUpdate started = true ->
  wallets (settled started schedule db)
  = map (settledWallet started schedule) (wallets db).
Proof.
  intros Hup. revert db.
  induction schedule as [|i later IH]; intros db.
  - symmetry. apply map_id.
  - cbn [settled]. rewrite IH.
    destruct (nth_error started i) as [t|] eqn:E.
    + rewrite wallets_land_update, map_map.
      * apply map_ext. intros w. cbn [settledWallet]. now rewrite E.
      * rewrite forallb_forall in Hup. apply Hup.
        exact (nth_error_In _ _ E).
    + apply map_ext. intros w. cbn [settledWallet]. now rewrite E.
Qed.

Lemma networks_settled started schedule db :
  networks (settled started schedule db) = networks db.
Proof.
  revert db. induction schedule as [|i later IH]; intros db; [reflexivity|].
  cbn [settled]. rewrite IH.
  destruct (nth_error started i) as [[uid w|id n|b wh]|]; try reflexivity.
  cbn. destruct (walletExists db (wallet_id w)); reflexivity.
Qed.

Lemma settledWallet_app started s1 s2 w :
  settledWallet started (s1 ++ s2) w
  = settledWallet started s2 (settledWallet started s1 w).
Proof.
  revert w. induction s1 as [|i r IH]; intros w; [reflexivity|].
  cbn [app settledWallet]. apply IH.
Qed.

Lemma sameButPrimary_refl w : sameButPrimary w w.
Proof. repeat split. Qed.

Lemma sameButPrimary_trans w1 w2 w3 :
  sameButPrimary w1 w2 -> sameButPrimary w2 w3 -> sameButPrimary w1 w3.
Proof.
  intros (A1 & A2 & A3 & A4) (B1 & B2 & B3 & B4).
  unfold sameButPrimary. rewrite B1, B2, B3, B4. now repeat split.
Qed.

Lemma sameButPrimary_eq w w' :
  sameButPrimary w w' -> w' = setPrimary (wallet_primary w') w.
Proof.
  destruct w, w'. unfold sameButPrimary, setPrimary. cbn.
  intros (-> & -> & -> & ->). reflexivity.
Qed.

Lemma landOnWallet_same t w : sameButPrimary w (landOnWallet t w).
Proof.
  destruct t as [uid x|id n|b wh]; cbn; try apply sameButPrimary_refl.
  destruct (matches wh w); [|apply sameButPrimary_refl]. repeat split.
Qed.

Lemma settledWallet_same started schedule w :
  sameButPrimary w (settledWallet started schedule w).
Proof.
  revert w. induction schedule as [|i later IH]; intros w;
    [apply sameButPrimary_refl|].
  cbn [settledWallet]. destruct (nth_error started i) as [t|]; [|apply IH].
  exact (sameButPrimary_trans _ _ _ (landOnWallet_same t w) (IH _)).
Qed.

Lemma whereUserId_same id w w' :
  sameButPrimary w w' -> whereUserId id w' = whereUserId id w.
Proof. intros (_ & _ & _ & H). unfold whereUserId. now rewrite H. Qed.

(** The flag of a wallet that the demotion of a login does not reach:
    it is set as soon as the promotion lands on a wallet of the type. *)
Lemma primary_unless_demoted id wt newNonce schedule w :
  lands 1 schedule && whereUserId id w = false ->
  wallet_primary (settledWallet (loginWrites id wt newNonce) schedule w)
  = wallet_primary w || (lands 2 schedule && whereType wt w).
Proof.
  revert w. induction schedule as [|i later IH]; intros w H.
  - cbn. now rewrite orb_false_r.
  - cbn [settledWallet].
    destruct i as [|[|[|i]]]; cbn [nth_error loginWrites landOnWallet matches].
    + apply IH. exact H.
    + cbn in H. rewrite H. apply IH. rewrite H. apply andb_false_r.
    + change (lands 2 (2 :: later)) with true. cbn [andb].
      change (lands 1 (2 :: later)) with (lands 1 later) in H.
      destruct (whereType wt w) eqn:Et.
      * rewrite IH.
        -- cbn. now rewrite orb_true_r.
        -- exact H.
      * rewrite IH by exact H. rewrite Et, !andb_false_r. reflexivity.
    + change (lands 1 (S (S (S i)) :: later)) with (lands 1 later) in H.
      change (lands 2 (S (S (S i)) :: later)) with (lands 2 later).
      assert (nth_error (@nil Write) i = None) as -> by now destruct i.
      apply IH. exact H.
Qed.

(** The flag of a wallet that the promotion of a login does not reach:
    it is cleared as soon as the demotion lands on a wallet of the
    user. *)
Lemma primary_unless_promoted id wt newNonce schedule w :
  lands 2 schedule && whereType wt w = false ->
  wallet_primary (settledWallet (loginWrites id wt newNonce) schedule w)
  = wallet_primary w && negb (lands 1 schedule && whereUserId id w).
Proof.
  revert w. induction schedule as [|i later IH]; intros w H.
  - cbn. now rewrite andb_true_r.
  - cbn [settledWallet].
    destruct i as [|[|[|i]]]; cbn [nth_error loginWrites landOnWallet matches].
    + apply IH. exact H.
    + change (lands 1 (1 :: later)) with true. cbn [andb].
      change (lands 2 (1 :: later)) with (lands 2 later) in H.
      destruct (whereUserId id w) eqn:Eu.
      * rewrite IH.
        -- cbn. now rewrite andb_false_r.
        -- exact H.
      * rewrite IH by exact H. rewrite Eu, !andb_false_r. reflexivity.
    + cbn in H. rewrite H. apply IH. rewrite H. apply andb_false_r.
    + change (lands 2 (S (S (S i)) :: later)) with (lands 2 later) in H.
      change (lands 1 (S (S (S i)) :: later)) with (lands 1 later).
      assert (nth_error (@nil Write) i = None) as -> by now destruct i.
      apply IH. exact H.
Qed.

Lemma updateUserNonce_twice id n us :
  updateUserNonce id n (updateUserNonce id n us) = updateUserNonce id n us.
Proof.
  unfold updateUserNonce. rewrite map_map. apply map_ext. intros u.
  destruct (String.eqb (user_id u) id) eqn:E; cbn; now rewrite E.
Qed.

(** The users once writes of a login have landed: the nonce is rotated
    when the nonce write is among them, and nothing else changes. *)
Lemma users_settled_login id wt newNonce schedule db :
  users (settled (loginWrites id wt newNonce) schedule db)
  = if lands 0 schedule then updateUserNonce id newNonce (users db)
    else users db.
Proof.
  revert db. induction schedule as [|i later IH]; intros db; [reflexivity|].
  cbn [settled]. rewrite IH.
  destruct i as [|[|[|i]]]; cbn [nth_error loginWrites land users].
  - change (lands 0 (0 :: later)) with true. cbv iota.
    destruct (lands 0 later); [apply updateUserNonce_twice|reflexivity].
  - reflexivity.
  - reflexivity.
  - change (lands 0 (S (S (S i)) :: later)) with (lands 0 later).
    assert (nth_error (@nil Write) i = None) as -> by now destruct i.
    reflexivity.
Qed.

Lemma loginWrites_are_updates id wt newNonce :
  forallb isUpdate (loginWrites id wt newNonce) = true.
Proof. reflexivity. Qed.

(** C1. The claim: every operation keeps at most one primary wallet per
    user, and the login side effect promotes only the logged-in user's
    wallets of the submitted type, leaving other users' wallets unchanged.
    The code: [updateAll({primary: true}, {type: walletType})] has no
    [userId] in its filter.  In [twoUsers] every user has one primary
    wallet; bob logs in with his NEAR wallet, and as soon as that update
    has landed, whichever of the other writes have landed and in
    whichever order, alice's NEAR wallet is primary next to her Polkadot
    wallet: her wallets were changed and the invariant is lost. *)
Theorem login_promotes_wallets_of_other_users :
  atMostOnePrimary twoUsers
  /\ exists ctx started,
      beforeAuthenticate accepting (loginCtx LOGIN bobLogin) twoUsers = Ok ctx
      /\ afterAuthenticate ctx (mkResult "token" None) 8 = Ok started
      /\ nth_error started 2 = Some (WalletUpdateAll true (WhereType "near"))
      /\ forall schedule,
          In 2 schedule ->
          primaryWalletsOf (settled started schedule twoUsers) "alice"
          = [alicePolkadot; setPrimary true aliceNear]
          /\ walletsOfOthers (settled started schedule twoUsers) "bob"
             <> walletsOfOthers twoUsers "bob"
          /\ ~ atMostOnePrimary (settled started schedule twoUsers).
Proof.
  split.
  - apply atMostOnePrimaryb_spec. reflexivity.
  - eexists. exists (loginWrites "bob" "near" 8). split; [reflexivity|].
    split; [reflexivity|]. split; [reflexivity|].
    intros schedule Hin. apply lands_In in Hin.
    assert (Hother : forall w,
               whereUserId "bob" w = false ->
               settledWallet (loginWrites "bob" "near" 8) schedule w
               = setPrimary (wallet_primary w || whereType "near" w) w).
    { intros w Hw.
      rewrite (sameButPrimary_eq _ _ (settledWallet_same _ schedule w)) at 1.
      rewrite primary_unless_demoted by (rewrite Hw; apply andb_false_r).
      now rewrite Hin. }
    assert (Hws : wallets (settled (loginWrites "bob" "near" 8) schedule twoUsers)
                  = [alicePolkadot; setPrimary true aliceNear;
                     setPrimary (wallet_primary
                                   (settledWallet (loginWrites "bob" "near" 8)
                                                  schedule bobNear)) bobNear;
                     rootPolkadot]).
    { rewrite wallets_settled by reflexivity. cbn [twoUsers wallets map].
      rewrite (Hother alicePolkadot eq_refl), (Hother aliceNear eq_refl),
        (Hother rootPolkadot eq_refl).
      rewrite (sameButPrimary_eq _ _ (settledWallet_same _ schedule bobNear))
        at 1.
      reflexivity. }
    unfold primaryWalletsOf, walletsOfOthers, atMostOnePrimary, primaryWalletsOf.
    rewrite Hws.
    destruct (wallet_primary (settledWallet _ schedule bobNear)).
    + split; [reflexivity|]. split.
      * intros H. discriminate H.
      * intros H. specialize (H "alice"). vm_compute in H. lia.
    + split; [reflexivity|]. split.
      * intros H. discriminate H.
      * intros H. specialize (H "alice"). vm_compute in H. lia.
Qed.

(** ** The permission gate *)

Lemma PermissionKeys_eqb_eq (a b : PermissionKeys) :
  PermissionKeys_eqb a b = true <-> a = b.
Proof.
  destruct a, b; simpl; split; intros H; try discriminate; try reflexivity.
  - apply String.eqb_eq in H. now subst.
  - injection H as ->. apply String.eqb_refl.
Qed.

Lemma PermissionKeys_eqb_refl (k : PermissionKeys) :
  PermissionKeys_eqb k k = true.
Proof. now apply PermissionKeys_eqb_eq. Qed.

Lemma first_uniq (l : list PermissionKeys) : JS.first (uniq l) = JS.first l.
Proof. destruct l; reflexivity. Qed.

Lemma first_intersection_key (k : PermissionKeys) (perms : list PermissionKeys) :
  JS.first (intersection perms [k])
  = if existsb (PermissionKeys_eqb k) perms then Some k else None.
Proof.
  unfold intersection. rewrite first_uniq.
  induction perms as [|p r IH]; simpl; [reflexivity|].
  rewrite orb_false_r.
  destruct (PermissionKeys_eqb p k) eqn:E.
  - apply PermissionKeys_eqb_eq in E. subst p.
    simpl. now rewrite PermissionKeys_eqb_refl.
  - assert (PermissionKeys_eqb k p = false) as ->.
    { destruct (PermissionKeys_eqb k p) eqn:E'; [|reflexivity].
      apply PermissionKeys_eqb_eq in E'. subst p.
      rewrite PermissionKeys_eqb_refl in E. discriminate. }
    simpl. exact IH.
Qed.

Lemma existsb_eqb_In (k : PermissionKeys) (perms : list PermissionKeys) :
  existsb (PermissionKeys_eqb k) perms = true <-> In k perms.
Proof.
  rewrite existsb_exists. split.
  - intros [x [Hin Hx]]. apply PermissionKeys_eqb_eq in Hx. now subst.
  - intros Hin. exists k. split; [assumption|apply PermissionKeys_eqb_refl].
Qed.

Lemma checkPermission_admin (perms : list PermissionKeys) :
  checkPermission ADMINLOGIN perms
  = if existsb (PermissionKeys_eqb ADMIN) perms
    then Ok tt else Throw (Forbidden "Invalid admin").
Proof.
  unfold checkPermission. simpl. rewrite first_intersection_key.
  destruct (existsb _ perms); reflexivity.
Qed.

Lemma checkPermission_user (m : MethodType) (perms : list PermissionKeys) :
  m <> ADMINLOGIN ->
  checkPermission m perms
  = if existsb (PermissionKeys_eqb USER) perms
    then Ok tt else Throw (Forbidden "Invalid user").
Proof.
  intros Hm. unfold checkPermission.
  assert (MethodType_eqb m ADMINLOGIN = false) as ->
    by (destruct m; try reflexivity; now elim Hm).
  rewrite first_intersection_key.
  destruct (existsb _ perms); reflexivity.
Qed.

(** ** The login path, step by step *)

(** What [verifyLogin] computes once the login resolves to a user: the
    nonce comparison, the signature check, the gate. *)
Lemma verifyLogin_resolved validateAccount m c db w u n :
  nonce c = Some n -> n <> 0%Z -> resolves db c w u ->
  verifyLogin validateAccount m c db
  = if negb (Z.eqb (user_nonce u) n) then Throw (Error "Invalid nonce!")
    else if negb (validateAccount (setPublicAddress c (primaryAddress c)))
    then Throw (Error "Failed to verified!")
    else rbind (checkPermission m (user_permissions u))
           (fun _ => Ok (setData (setPublicAddress c (primaryAddress c))
                           (mkUserProfile (user_id u) (user_name u)
                              (user_username u) (user_permissions u)))).
Proof.
  intros Hn Hnz [Hnet Hw]. unfold verifyLogin.
  rewrite Hn. destruct n as [|p|p]; [exfalso; apply Hnz; reflexivity| |];
    rewrite Hnet; simpl negb; cbv iota;
    fold (primaryAddress c); fold (nearAccount c); rewrite Hw; reflexivity.
Qed.

Lemma beforeAuthenticate_login validateAccount m c db :
  m <> SIGNUP ->
  beforeAuthenticate validateAccount (loginCtx m c) db
  = rewrapUnauthorized
      (rbind (verifyLogin validateAccount m c db)
             (fun c' => Ok (loginCtx m c'))).
Proof. intros Hm. destruct m; [now elim Hm| |]; reflexivity. Qed.

(** C2, as the code has it.  For an admin login that resolves to a user
    with the right nonce and a valid signature: the gate passes exactly
    when [ADMIN] is among the user's permissions, whatever else is; when it
    is not, the gate raises [Forbidden 'Invalid admin'], which the
    enclosing [catch] re-wraps, so the login is rejected with
    [Unauthorized 'Invalid admin']. *)
Theorem admin_gate_is_membership_and_rejects_unauthorized :
  forall validateAccount db c w u n,
    nonce c = Some n -> n <> 0%Z -> resolves db c w u ->
    user_nonce u = n ->
    validateAccount (setPublicAddress c (primaryAddress c)) = true ->
    (In ADMIN (user_permissions u) ->
       checkPermission ADMINLOGIN (user_permissions u) = Ok tt
       /\ isOk (beforeAuthenticate validateAccount (loginCtx ADMINLOGIN c) db)
          = true)
    /\ (~ In ADMIN (user_permissions u) ->
       checkPermission ADMINLOGIN (user_permissions u)
         = Throw (Forbidden "Invalid admin")
       /\ beforeAuthenticate validateAccount (loginCtx ADMINLOGIN c) db
          = Throw (Unauthorized "Invalid admin")).
Proof.
  intros validateAccount db c w u n Hn Hnz Hres Hnonce Hsig.
  rewrite beforeAuthenticate_login by discriminate.
  rewrite (verifyLogin_resolved _ _ _ _ _ _ _ Hn Hnz Hres).
  rewrite Hnonce, Z.eqb_refl, Hsig. simpl negb. cbv iota.
  rewrite checkPermission_admin.
  split; intros Hin.
  - apply existsb_eqb_In in Hin. rewrite Hin. split; reflexivity.
  - destruct (existsb (PermissionKeys_eqb ADMIN) (user_permissions u)) eqn:E.
    + apply existsb_eqb_In in E. contradiction.
    + split; reflexivity.
Qed.

(** The gate at the three permission sets the claim names, and at one
    with an unrelated key. *)
Lemma admin_gate_is_membership_and_rejects_unauthorized_witness :
  (isOk (beforeAuthenticate accepting (loginCtx ADMINLOGIN rootAdminLogin)
                            twoUsers) = true)
  /\ beforeAuthenticate accepting (loginCtx ADMINLOGIN aliceAdminLogin)
                        twoUsers
     = Throw (Unauthorized "Invalid admin").
Proof.
  split.
  - apply (admin_gate_is_membership_and_rejects_unauthorized
             accepting twoUsers rootAdminLogin rootPolkadot root 5%Z);
      try reflexivity; try (split; reflexivity); try lia.
    simpl. now left.
  - apply (admin_gate_is_membership_and_rejects_unauthorized
             accepting twoUsers aliceAdminLogin alicePolkadot alice 11%Z);
      try reflexivity; try (split; reflexivity); try lia.
    simpl. intros [H|[]]. discriminate H.
Defined.

(** C2, the claim as stated, refuted: alice holds [{USER}] only, and her
    admin login is not rejected with a [Forbidden] error but with an
    [Unauthorized] one. *)
Lemma admin_login_of_user_is_not_forbidden :
  user_permissions alice = [USER]
  /\ beforeAuthenticate accepting (loginCtx ADMINLOGIN aliceAdminLogin)
                        twoUsers
     = Throw (Unauthorized "Invalid admin")
  /\ isForbidden (beforeAuthenticate accepting
                    (loginCtx ADMINLOGIN aliceAdminLogin) twoUsers) = false.
Proof.
  split; [reflexivity|]. split; reflexivity.
Qed.

(** ** The nonce *)

Lemma login_without_nonce validateAccount m c db :
  m <> SIGNUP ->
  nonce c = None \/ nonce c = Some 0%Z ->
  beforeAuthenticate validateAccount (loginCtx m c) db = Throw InvalidNonce.
Proof.
  intros Hm Hn. rewrite beforeAuthenticate_login by assumption.
  unfold verifyLogin. destruct Hn as [-> | ->]; reflexivity.
Qed.

Lemma login_with_other_nonce validateAccount m c db w u n :
  m <> SIGNUP ->
  nonce c = Some n -> resolves db c w u -> user_nonce u <> n ->
  beforeAuthenticate validateAccount (loginCtx m c) db = Throw InvalidNonce.
Proof.
  intros Hm Hn Hres Hne.
  destruct (Z.eq_dec n 0) as [-> | Hnz].
  - apply login_without_nonce; [assumption|now right].
  - rewrite beforeAuthenticate_login by assumption.
    rewrite (verifyLogin_resolved _ _ _ _ _ _ _ Hn Hnz Hres).
    apply Z.eqb_neq in Hne. rewrite Hne. reflexivity.
Qed.

(** A login that passes [verifyLogin] resolved to a user whose stored nonce
    is the submitted one; the credential handed on carries that user's id
    and the submitted wallet type. *)
Lemma verifyLogin_Ok_inv validateAccount m c db c' :
  verifyLogin validateAccount m c db = Ok c' ->
  exists n w u,
    nonce c = Some n /\ n <> 0%Z /\ resolves db c w u /\ user_nonce u = n
    /\ option_map profile_id (data c') = Some (user_id u)
    /\ walletType c' = walletType c.
Proof.
  unfold verifyLogin. fold (primaryAddress c). fold (nearAccount c).
  intros H.
  destruct (nonce c) as [n|] eqn:En; [|discriminate].
  assert (Hnz : n <> 0%Z) by (intros ->; discriminate).
  assert (H' :
    (if negb (networkExists db (networkType c))
     then Throw (UnprocessableEntity "Network not exists")
     else match findWalletWithUser db (orElse (nearAccount c) (primaryAddress c))
                                   (walletType c) with
          | Some (_, Some user) =>
              if negb (Z.eqb (user_nonce user) n)
              then Throw (Error "Invalid nonce!")
              else
                if negb (validateAccount (setPublicAddress c (primaryAddress c)))
                then Throw (Error "Failed to verified!")
                else rbind (checkPermission m (user_permissions user))
                       (fun _ => Ok (setData (setPublicAddress c (primaryAddress c))
                          (mkUserProfile (user_id user) (user_name user)
                             (user_username user) (user_permissions user))))
          | _ => Throw (Error "Wallet address not exists!")
          end) = Ok c').
  { destruct n; [congruence| |]; exact H. }
  clear H.
  destruct (networkExists db (networkType c)) eqn:Enet; [|discriminate].
  simpl in H'.
  destruct (findWalletWithUser db _ _) as [[w [u|]]|] eqn:Ew; try discriminate.
  destruct (Z.eqb (user_nonce u) n) eqn:Ez; [|discriminate].
  simpl in H'.
  destruct (validateAccount _); [|discriminate]. simpl in H'.
  destruct (checkPermission m (user_permissions u)); [|discriminate].
  simpl in H'. injection H' as <-.
  exists n, w, u. apply Z.eqb_eq in Ez.
  repeat split; try assumption; reflexivity.
Qed.

Lemma intercept_rejected validateAccount next newNonce ctx db e :
  beforeAuthenticate validateAccount ctx db = Throw e ->
  intercept validateAccount next newNonce ctx db = (Throw e, db, []).
Proof. intros H. unfold intercept. now rewrite H. Qed.

(** A login that went through resolved to a user holding the submitted
    nonce; when [intercept] returns, the database is as the controller
    left it, and the writes of the login are started for that user. *)
Lemma intercept_login_Ok_inv validateAccount next newNonce m c db resp db1
      started :
  m <> SIGNUP ->
  intercept validateAccount next newNonce (loginCtx m c) db
  = (Ok resp, db1, started) ->
  exists n w u,
    nonce c = Some n /\ n <> 0%Z /\ resolves db c w u /\ user_nonce u = n
    /\ started = loginWrites (user_id u) (walletType c) newNonce
    /\ exists ctx, db1 = snd (next ctx db).
Proof.
  intros Hm H. unfold intercept in H.
  rewrite beforeAuthenticate_login in H by assumption.
  destruct (verifyLogin validateAccount m c db) as [c'|e] eqn:Ev;
    [|discriminate].
  simpl in H.
  destruct (next (loginCtx m c') db) as [r d] eqn:En.
  destruct r as [result|e]; [|discriminate].
  destruct (verifyLogin_Ok_inv _ _ _ _ _ Ev)
    as (n & w & u & Hn & Hnz & Hres & Hu & Hdata & Hwt).
  exists n, w, u. do 4 (split; [assumption|]).
  unfold afterAuthenticate in H.
  destruct (data c') as [d'|] eqn:Ed; [|discriminate].
  simpl in Hdata. injection Hdata as Hid.
  assert (Hd : d = snd (next (loginCtx m c') db)) by now rewrite En.
  destruct m; [now elim Hm| |]; cbn in H; rewrite Ed in H;
    injection H as _ <- <-; rewrite Hid, Hwt;
    (split; [reflexivity|eexists; exact Hd]).
Qed.

(** Once the nonce write of a login has landed, every user with the id
    of the login holds the generated nonce. *)
Lemma nonce_rotated id wt newNonce schedule db u :
  In 0 schedule ->
  In u (users (settled (loginWrites id wt newNonce) schedule db)) ->
  user_id u = id -> user_nonce u = newNonce.
Proof.
  intros H0 Hin Hid. apply lands_In in H0.
  rewrite users_settled_login, H0 in Hin.
  unfold updateUserNonce in Hin. apply in_map_iff in Hin.
  destruct Hin as (u0 & <- & _).
  destruct (String.eqb (user_id u0) id) eqn:E; [reflexivity|].
  apply String.eqb_neq in E. contradiction.
Qed.

Lemma resolves_user db c w u : resolves db c w u -> In u (users db).
Proof.
  intros [_ H]. unfold findWalletWithUser in H.
  destruct (find _ (wallets db)) as [w0|]; [|discriminate].
  destruct (wallet_userId w0) as [uid|]; [|discriminate].
  injection H as _ H. unfold findUserById in H.
  apply find_some in H. tauto.
Qed.

(** C3, as the code has it.  A login is rejected with [InvalidNonce] when
    the submitted nonce is zero or absent, and when it differs from the
    nonce stored for the user the login resolves to.  A login that goes
    through has written nothing when the interceptor returns: the
    replacement of the stored nonce is started and not awaited.  Once it
    has landed, whichever other writes of the login have landed and in
    whichever order, and when the generated nonce differs from the
    consumed one, every login that submits the consumed nonce for that
    user is rejected with [InvalidNonce]; a rejected login leaves the
    database untouched and starts no write, so it is rejected again every
    subsequent time. *)
Theorem consumed_nonce_is_rejected_once_rotated :
  (forall validateAccount m c db,
      m <> SIGNUP ->
      nonce c = None \/ nonce c = Some 0%Z ->
      beforeAuthenticate validateAccount (loginCtx m c) db = Throw InvalidNonce)
  /\ (forall validateAccount m c db w u n,
      m <> SIGNUP ->
      nonce c = Some n -> resolves db c w u -> user_nonce u <> n ->
      beforeAuthenticate validateAccount (loginCtx m c) db = Throw InvalidNonce)
  /\ (forall validateAccount next m c db newNonce resp db1 started,
      m <> SIGNUP ->
      intercept validateAccount next newNonce (loginCtx m c) db
      = (Ok resp, db1, started) ->
      exists n w u,
        nonce c = Some n /\ resolves db c w u /\ user_nonce u = n
        /\ (exists ctx, db1 = snd (next ctx db))
        /\ nth_error started 0 = Some (UserUpdateById (user_id u) newNonce)
        /\ forall schedule,
            In 0 schedule -> newNonce <> n ->
            forall validateAccount' next' newNonce' m' c' w' u',
              m' <> SIGNUP ->
              nonce c' = Some n ->
              resolves (settled started schedule db1) c' w' u' ->
              user_id u' = user_id u ->
              intercept validateAccount' next' newNonce' (loginCtx m' c')
                        (settled started schedule db1)
              = (Throw InvalidNonce, settled started schedule db1, [])).
Proof.
  split; [|split].
  - intros. now apply login_without_nonce.
  - intros. now apply login_with_other_nonce with (w := w) (u := u) (n := n).
  - intros validateAccount next m c db newNonce resp db1 started Hm Hok.
    destruct (intercept_login_Ok_inv _ _ _ _ _ _ _ _ _ Hm Hok)
      as (n & w & u & Hn & Hnz & Hres & Hu & -> & Hdb1).
    exists n, w, u. do 4 (split; [assumption|]).
    split; [reflexivity|].
    intros schedule H0 Hfresh validateAccount' next' newNonce' m' c' w' u'
           Hm' Hn' Hres' Hid.
    apply intercept_rejected.
    apply login_with_other_nonce with (w := w') (u := u') (n := n);
      try assumption.
    rewrite (nonce_rotated _ _ _ _ _ _ H0 (resolves_user _ _ _ _ Hres') Hid).
    exact Hfresh.
Qed.

(** Bob logs in with nonce 7 and the generator yields 8; the promotion
    lands first, then the nonce write, then the demotion, and from then on
    the request sent again is rejected.  A login without a nonce, or with
    another nonce than the stored one, is rejected as well. *)
Lemma consumed_nonce_is_rejected_once_rotated_witness :
  beforeAuthenticate accepting
    (loginCtx LOGIN (mkCredential "0xb0b/bob.near" None "signed" "near" "near" None))
    twoUsers = Throw InvalidNonce
  /\ beforeAuthenticate accepting
       (loginCtx LOGIN (mkCredential "0xb0b/bob.near" (Some 6%Z) "signed" "near"
                                     "near" None))
       twoUsers = Throw InvalidNonce
  /\ intercept accepting issueToken 9 (loginCtx LOGIN bobLogin)
               (settled (loginWrites "bob" "near" 8) [2; 0; 1] twoUsers)
     = (Throw InvalidNonce,
        settled (loginWrites "bob" "near" 8) [2; 0; 1] twoUsers, []).
Proof.
  destruct consumed_nonce_is_rejected_once_rotated
    as (Habsent & Hother & Hreplay).
  split; [|split].
  - apply Habsent; [discriminate|now left].
  - apply (Hother accepting LOGIN _ twoUsers bobNear bob 6%Z);
      [discriminate|reflexivity|split; reflexivity|simpl; lia].
  - destruct (Hreplay accepting issueToken LOGIN bobLogin twoUsers 8%Z
                (Whole (mkResult "token" None)) twoUsers
                (loginWrites "bob" "near" 8)
                ltac:(discriminate) eq_refl)
      as (n & w & u & Hn & Hres & _ & _ & _ & Hlater).
    injection Hn as <-.
    destruct Hres as [_ Hw]. injection Hw as <- <-.
    apply (Hlater [2; 0; 1] ltac:(right; left; reflexivity) ltac:(lia)
                  accepting issueToken 9%Z LOGIN bobLogin
                  (setPrimary false bobNear)
                  (mkUser "bob" "Bob" "bob_2" 8 [USER]));
      [discriminate|reflexivity|split; reflexivity|reflexivity].
Defined.

(** C3, the claim as stated, refuted: bob's login with nonce 7 goes
    through, and the same request sent again is accepted as long as the
    nonce write has not landed, or when it was rejected and dropped while
    the two wallet updates landed. *)
Lemma consumed_nonce_is_accepted_before_rotation_lands :
  intercept accepting issueToken 8 (loginCtx LOGIN bobLogin) twoUsers
  = (Ok (Whole (mkResult "token" None)), twoUsers, loginWrites "bob" "near" 8)
  /\ isOk (beforeAuthenticate accepting (loginCtx LOGIN bobLogin)
             (settled (loginWrites "bob" "near" 8) [] twoUsers)) = true
  /\ isOk (beforeAuthenticate accepting (loginCtx LOGIN bobLogin)
             (settled (loginWrites "bob" "near" 8) [1; 2] twoUsers)) = true.
Proof.
  split; [reflexivity|]. split; reflexivity.
Qed.

(** ** Address validation *)

(** The suffix the configured NEAR network asks for. *)
Definition nearSuffix (nearNetwork : Network) : string :=
  match nth_error (JS.split (rpcURL nearNetwork) ".") 1 with
  | Some "development" => ".testnet"
  | _ => ".near"
  end.

Lemma validateWalletAddress_66 db id :
  String.length id = 66 ->
  validateWalletAddress db id
  = if JS.startsWith id "0x" then Ok tt
    else Throw (UnprocessableEntity "Invalid polkadot address").
Proof.
  intros H. unfold validateWalletAddress. rewrite H. simpl.
  destruct (JS.startsWith id "0x"); reflexivity.
Qed.

Lemma validateWalletAddress_42 db id :
  String.length id = 42 ->
  validateWalletAddress db id
  = if JS.startsWith id "0x" then Ok tt
    else Throw (UnprocessableEntity "Invalid ethereum address").
Proof.
  intros H. unfold validateWalletAddress. rewrite H. simpl.
  destruct (JS.startsWith id "0x"); reflexivity.
Qed.

(** An address of any other length, with the NEAR network configured: the
    suffix must end the address, and the piece before the first
    occurrence of the suffix must match the pattern. *)
Lemma validateWalletAddress_near db id nearNetwork :
  String.length id <> 66 -> String.length id <> 42 ->
  networkFindById db NEAR = Ok nearNetwork ->
  validateWalletAddress db id
  = if negb (JS.endsWith id (nearSuffix nearNetwork))
    then Throw (UnprocessableEntity "Invalid near id")
    else if negb (JS.matchesClassPlus nearIdChar
                    (hd "" (JS.split id (nearSuffix nearNetwork))))
    then Throw (UnprocessableEntity
      "Only allowed ascii letter (a-z), number (0-9), dash(-) and underscore(_)")
    else Ok tt.
Proof.
  intros H66 H42 Hnet. unfold validateWalletAddress.
  apply Nat.eqb_neq in H66, H42. rewrite H66, H42, Hnet.
  unfold rbind, nearSuffix.
  destruct (nth_error (JS.split (rpcURL nearNetwork) ".") 1) as [e|];
    [|reflexivity].
  destruct (String.eqb e "development") eqn:E.
  - apply String.eqb_eq in E. subst e. reflexivity.
  - assert (forall (A : Type) (x y : A),
               match e with "development" => x | _ => y end = y) as Hm.
    { intros A x y. apply String.eqb_neq in E.
      repeat (match goal with
              | |- context [match ?s with EmptyString => _ | String _ _ => _ end] =>
                  destruct s; try reflexivity
              | |- context [match ?a with Ascii _ _ _ _ _ _ _ _ => _ end] =>
                  destruct a
              | |- context [if ?b then _ else _] => destruct b; try reflexivity
              end).
      now elim E. }
    rewrite !Hm. reflexivity.
Qed.

Lemma append_empty_r (s : string) : (s ++ "")%string = s.
Proof. induction s as [|c s IH]; simpl; [reflexivity|now rewrite IH]. Qed.

Lemma append_assoc' (a b c : string) :
  ((a ++ b) ++ c)%string = (a ++ (b ++ c))%string.
Proof. induction a as [|x a IH]; simpl; [reflexivity|now rewrite IH]. Qed.

Lemma substring_0_length (n : nat) (s : string) :
  String.length (String.substring 0 n s) = Nat.min n (String.length s).
Proof.
  revert s. induction n as [|n IH]; intros s.
  - destruct s; reflexivity.
  - destruct s as [|c s]; simpl; [reflexivity|now rewrite IH].
Qed.

Lemma substring_0_all (n : nat) (s : string) :
  (String.length s <= n)%nat -> String.substring 0 n s = s.
Proof.
  revert s. induction n as [|n IH]; intros s H.
  - destruct s; [reflexivity|simpl in H; lia].
  - destruct s as [|c s]; simpl; [reflexivity|].
    rewrite IH; [reflexivity|simpl in H; lia].
Qed.

Lemma append_length (a b : string) :
  String.length (a ++ b) = String.length a + String.length b.
Proof. induction a as [|c a IH]; simpl; [reflexivity|now rewrite IH]. Qed.

Lemma substring_skip_append (a b : string) (n : nat) :
  String.substring (String.length a) n (a ++ b) = String.substring 0 n b.
Proof. induction a as [|c a IH]; simpl; [reflexivity|exact IH]. Qed.

Lemma substring_0_append (a b : string) :
  String.substring 0 (String.length a) (a ++ b) = a.
Proof.
  induction a as [|c a IH]; simpl; [destruct b; reflexivity|now rewrite IH].
Qed.

Lemma rev_string_acc (s acc : string) :
  JS.rev_string acc s = (JS.rev_string "" s ++ acc)%string.
Proof.
  revert acc. induction s as [|c s IH]; intros acc; simpl; [reflexivity|].
  rewrite IH, (IH (String c "")), append_assoc'. reflexivity.
Qed.

(** The first piece of a split: what precedes the first occurrence of the
    separator, or the whole string when there is none. *)
Definition beforeFirst (sep s : string) : string :=
  match JS.indexOf sep s with
  | Some i => String.substring 0 i s
  | None => s
  end.

Lemma hd_split_go (sep s cur : string) :
  hd "" (JS.split_go sep 0 cur s)
  = (JS.rev_string "" cur ++ beforeFirst sep s)%string.
Proof.
  revert cur. induction s as [|c s IH]; intros cur.
  - unfold beforeFirst. cbn [JS.split_go JS.indexOf hd].
    destruct (String.prefix sep ""); cbn [String.substring];
      now rewrite append_empty_r.
  - unfold beforeFirst. cbn [JS.split_go JS.indexOf].
    destruct (String.prefix sep (String c s)) eqn:E.
    + simpl. now rewrite append_empty_r.
    + rewrite IH. unfold beforeFirst.
      cbn [JS.rev_string]. rewrite (rev_string_acc cur (String c "")).
      rewrite append_assoc'.
      destruct (JS.indexOf sep s) as [i|]; reflexivity.
Qed.

Lemma hd_split (s sep : string) : hd "" (JS.split s sep) = beforeFirst sep s.
Proof. unfold JS.split. now rewrite hd_split_go. Qed.

(** An address of another length than 66 and 42 is accepted exactly when
    it ends with the suffix and what precedes the first occurrence of the
    suffix matches the pattern. *)
Lemma validateWalletAddress_near_accepts db id nearNetwork :
  String.length id <> 66 -> String.length id <> 42 ->
  networkFindById db NEAR = Ok nearNetwork ->
  (validateWalletAddress db id = Ok tt
   <-> JS.endsWith id (nearSuffix nearNetwork) = true
       /\ JS.matchesClassPlus nearIdChar
            (beforeFirst (nearSuffix nearNetwork) id) = true).
Proof.
  intros H66 H42 Hnet.
  rewrite (validateWalletAddress_near _ _ _ H66 H42 Hnet), hd_split.
  destruct (JS.endsWith id (nearSuffix nearNetwork)); simpl.
  - destruct (JS.matchesClassPlus nearIdChar _); simpl.
    + split; [intros _; split; reflexivity|reflexivity].
    + split; [discriminate|intros [_ H]; discriminate].
  - split; [discriminate|intros [H _]; discriminate].
Qed.

(** C5.  The claim: the local id, the address stripped of its suffix,
    must match [^[a-z0-9_-]+$].  The code takes the local id with
    [id.split(suffix)[0]], the piece before the first occurrence of the
    suffix, so an address that repeats the suffix is accepted although
    what precedes its suffix contains a dot: ["a.near.near"] on a mainnet
    configuration, ["a.testnet.testnet"] on a development one. *)
Theorem address_repeating_its_suffix_is_accepted :
  (validateWalletAddress twoUsers "a.near.near" = Ok tt
   /\ JS.endsWith "a.near.near" ".near" = true
   /\ hd "" (JS.split "a.near.near" ".near") = "a"
   /\ stripSuffix "a.near.near" ".near" = "a.near"
   /\ JS.matchesClassPlus nearIdChar (stripSuffix "a.near.near" ".near")
      = false)
  /\ (validateWalletAddress (mkDb [] [] testnet) "a.testnet.testnet" = Ok tt
      /\ stripSuffix "a.testnet.testnet" ".testnet" = "a.testnet"
      /\ JS.matchesClassPlus nearIdChar
           (stripSuffix "a.testnet.testnet" ".testnet") = false).
Proof.
  split.
  - split.
    + rewrite (validateWalletAddress_near twoUsers _
                 (mkNetwork "near" "https://rpc.mainnet.near.org"));
        [reflexivity|discriminate|discriminate|reflexivity].
    + repeat split; reflexivity.
  - split.
    + rewrite (validateWalletAddress_near (mkDb [] [] testnet) _
                 (mkNetwork "near" "https://rpc.development.near.org"));
        [reflexivity|discriminate|discriminate|reflexivity].
    + split; reflexivity.
Qed.

End AuthenticationProperties.

(* ================================================================== *)
(** * Properties of the user-credential controller *)

Section ControllerProperties.

Import UserCredentialController.
Local Open Scope m_scope.

(** ** Vocabulary of the statements *)

(** The world with another chain log. *)
Definition withLog (w : World) (l : list ChainEvent) : World :=
  mkWorld (people w) (credentials w) (posts w) (nextId w) l.

(** The key-derivation path of a post, [//<post id>]. *)
Definition derivedUri (p : Post) : string := ("//" ++ post_id p)%string.

(** The free balance of the account derived from a post. *)
Definition balanceOf (sv : Services) (p : Post) : option N :=
  free sv (address sv (derivedUri p)).

(** The derived account holds a positive balance. *)
Definition hasFunds (sv : Services) (p : Post) : bool :=
  match balanceOf sv p with
  | Some b => (0 <? b)%N
  | None => false
  end.

(** The transfer of a post's balance, less the fee, to [to], signed with
    the key derived from the post. *)
Definition transferOf (sv : Services) (to : string) (p : Post) : ChainEvent :=
  SignAndSend (derivedUri p) to
              (match balanceOf sv p with
               | Some b => Z.of_N b - gasFee
               | None => - gasFee
               end)%Z.

(** The calls one post gives rise to when nothing throws. *)
Definition eventsOf (sv : Services) (to : string) (p : Post) : list ChainEvent :=
  Query (address sv (derivedUri p))
        :: (if hasFunds sv p then [transferOf sv to p] else []).

(** The calls one iteration makes, and how it ends. *)
Definition attempt (sv : Services) (to : string) (p : Post)
  : list ChainEvent * Result unit :=
  match balanceOf sv p with
  | None => ([Query (address sv (derivedUri p))],
             Throw (ExternalError "account query failed"))
  | Some b =>
      if N.eqb b 0 then ([Query (address sv (derivedUri p))], Ok tt)
      else ([Query (address sv (derivedUri p));
             SignAndSend (derivedUri p) to (Z.of_N b - gasFee)],
            if signAndSend sv (derivedUri p) to (Z.of_N b - gasFee)
            then Ok tt else Throw (ExternalError "transfer failed"))
  end.

(** Neither the account query nor the transfer of the post throws. *)
Definition goesThrough (sv : Services) (to : string) (p : Post) : Prop :=
  exists b, balanceOf sv p = Some b
            /\ (b <> 0%N ->
                signAndSend sv (derivedUri p) to (Z.of_N b - gasFee) = true).

(** The chain calls a computation adds to the log. *)
Definition newEvents (w w' : World) : list ChainEvent :=
  skipn (List.length (chainLog w)) (chainLog w').

Definition count (f : ChainEvent -> bool) (l : list ChainEvent) : nat :=
  List.length (filter f l).

(** The connection, the loop and the disconnection of the two sweeps. *)
Definition sweep (sv : Services) (to : string) (selected : list Post) : M unit :=
  connect sv ;;;
  forEach selected (transferFrom sv to) ;;;
  logChain Disconnect.

(** ** The loop *)

Lemma withLog_withLog w l l' : withLog (withLog w l) l' = withLog w l'.
Proof. reflexivity. Qed.

Lemma withLog_same w : withLog w (chainLog w) = w.
Proof. destruct w; reflexivity. Qed.

Lemma logChain_run e w : logChain e w = (Ok tt, withLog w (chainLog w ++ [e])).
Proof. reflexivity. Qed.

Lemma transferFrom_attempt sv to p w :
  transferFrom sv to p w
  = (snd (attempt sv to p), withLog w (chainLog w ++ fst (attempt sv to p))).
Proof.
  unfold transferFrom, attempt, bind. rewrite logChain_run.
  fold (derivedUri p). fold (balanceOf sv p).
  destruct (balanceOf sv p) as [b|]; [|reflexivity].
  destruct (N.eqb b 0); [reflexivity|].
  rewrite logChain_run. cbn [chainLog withLog fst snd].
  rewrite <- app_assoc. cbn [app].
  destruct (signAndSend sv (derivedUri p) to (Z.of_N b - gasFee)); reflexivity.
Qed.

Lemma attempt_no_connection sv to p :
  Forall (fun e => isConnect e = false /\ isDisconnect e = false)
         (fst (attempt sv to p)).
Proof.
  unfold attempt. destruct (balanceOf sv p) as [b|];
    [destruct (N.eqb b 0)|]; repeat constructor.
Qed.

(** Whatever the outcome, the loop only adds queries and transfers to the
    log, and touches nothing else. *)
Lemma forEach_log sv to selected w :
  exists evs,
    snd (forEach selected (transferFrom sv to) w)
    = withLog w (chainLog w ++ evs)
    /\ Forall (fun e => isConnect e = false /\ isDisconnect e = false) evs.
Proof.
  revert w. induction selected as [|p r IH]; intros w.
  - exists []. split; [|constructor].
    simpl. now rewrite app_nil_r, withLog_same.
  - cbn [forEach]. unfold bind at 1. rewrite transferFrom_attempt.
    destruct (snd (attempt sv to p)) as [[]|e].
    + destruct (IH (withLog w (chainLog w ++ fst (attempt sv to p))))
        as (evs & Hw & Hevs).
      exists (fst (attempt sv to p) ++ evs). split.
      * rewrite Hw. cbn [chainLog withLog]. now rewrite app_assoc.
      * apply Forall_app. split; [apply attempt_no_connection|assumption].
    + exists (fst (attempt sv to p)). split; [reflexivity|].
      apply attempt_no_connection.
Qed.

Lemma attempt_goesThrough sv to p :
  goesThrough sv to p -> attempt sv to p = (eventsOf sv to p, Ok tt).
Proof.
  intros (b & Hb & Hs). unfold attempt, eventsOf, hasFunds, transferOf.
  rewrite Hb. destruct b as [|q]; [reflexivity|].
  cbn [N.eqb N.ltb N.compare]. rewrite Hs by discriminate. reflexivity.
Qed.

(** When no query and no transfer throws, the loop visits the posts in
    order and makes exactly the calls of [eventsOf] for each. *)
Lemma forEach_goesThrough sv to selected w :
  Forall (goesThrough sv to) selected ->
  forEach selected (transferFrom sv to) w
  = (Ok tt, withLog w (chainLog w ++ flat_map (eventsOf sv to) selected)).
Proof.
  intros H. revert w. induction H as [|p r Hp Hr IH]; intros w.
  - simpl. now rewrite app_nil_r, withLog_same.
  - cbn [forEach flat_map]. unfold bind at 1.
    rewrite transferFrom_attempt, (attempt_goesThrough _ _ _ Hp).
    cbn [fst snd]. rewrite IH. cbn [chainLog withLog].
    now rewrite app_assoc.
Qed.

Lemma filter_transfers_eventsOf sv to selected :
  filter isSignAndSend (flat_map (eventsOf sv to) selected)
  = map (transferOf sv to) (filter (hasFunds sv) selected).
Proof.
  induction selected as [|p r IH]; [reflexivity|].
  cbn [flat_map]. rewrite filter_app, IH. unfold eventsOf.
  cbn [filter isSignAndSend]. destruct (hasFunds sv p); reflexivity.
Qed.

(** ** The sweeps *)

Lemma transferEscorwToUser_sweep sv peopleId userId w :
  transferEscorwToUser sv peopleId userId w
  = sweep sv userId (escrowPosts peopleId userId (posts w)) w.
Proof. reflexivity. Qed.

Lemma transferTipsToUser_sweep sv publicKey account w :
  transferTipsToUser sv publicKey account w
  = sweep sv publicKey (tipPosts publicKey account (posts w)) w.
Proof. reflexivity. Qed.

Lemma filter_none {A} (f : A -> bool) (l : list A) :
  Forall (fun x => f x = false) l -> filter f l = [].
Proof.
  induction 1 as [|x l Hx _ IH]; simpl; [reflexivity|now rewrite Hx].
Qed.

Lemma newEvents_app w l : newEvents w (withLog w (chainLog w ++ l)) = l.
Proof.
  unfold newEvents. cbn [chainLog withLog].
  rewrite skipn_app, skipn_all, Nat.sub_diag. reflexivity.
Qed.

(** How a sweep uses the connection: it connects once when the connection
    can be established, and disconnects once when it returns, and only
    then. *)
Definition connectionUse (sv : Services) (run : M unit) (w : World) : Prop :=
  exists evs,
    snd (run w) = withLog w (chainLog w ++ evs)
    /\ count isConnect evs = (if polkadotApi sv then 1 else 0)
    /\ count isDisconnect evs = (if isOk (fst (run w)) then 1 else 0)
    /\ (isOk (fst (run w)) = true ->
        polkadotApi sv = true /\ last evs Connect = Disconnect).

Lemma sweep_connected sv to selected w :
  polkadotApi sv = true ->
  sweep sv to selected w
  = match forEach selected (transferFrom sv to)
                  (withLog w (chainLog w ++ [Connect])) with
    | (Ok _, w1) => (Ok tt, withLog w1 (chainLog w1 ++ [Disconnect]))
    | (Throw e, w1) => (Throw e, w1)
    end.
Proof. intros H. unfold sweep, connect. rewrite H. reflexivity. Qed.

Lemma sweep_not_connected sv to selected w :
  polkadotApi sv = false ->
  sweep sv to selected w = (Throw (ExternalError "chain connection failed"), w).
Proof. intros H. unfold sweep, connect. rewrite H. reflexivity. Qed.

Lemma sweep_connectionUse sv to selected w :
  connectionUse sv (sweep sv to selected) w.
Proof.
  unfold connectionUse.
  destruct (polkadotApi sv) eqn:Eapi.
  - rewrite (sweep_connected _ _ _ _ Eapi).
    destruct (forEach_log sv to selected (withLog w (chainLog w ++ [Connect])))
      as (evs & Hw & Hevs).
    destruct (forEach selected (transferFrom sv to)
                      (withLog w (chainLog w ++ [Connect]))) as [r w1].
    cbn [snd] in Hw. subst w1. cbn [chainLog withLog] in *.
    assert (Hc : filter isConnect evs = []).
    { apply filter_none. eapply Forall_impl; [|exact Hevs]. now intros e [? _]. }
    assert (Hd : filter isDisconnect evs = []).
    { apply filter_none. eapply Forall_impl; [|exact Hevs]. now intros e [_ ?]. }
    destruct r as [[]|e]; cbn [fst snd chainLog withLog isOk].
    + exists (Connect :: evs ++ [Disconnect]).
      unfold count. split; [|split; [|split]].
      * rewrite <- !app_assoc. reflexivity.
      * cbn [filter isConnect]. rewrite filter_app, Hc. reflexivity.
      * cbn [filter isDisconnect]. rewrite filter_app, Hd. reflexivity.
      * intros _. split; [reflexivity|].
        change (Connect :: evs ++ [Disconnect])
          with ((Connect :: evs) ++ [Disconnect]).
        apply last_last.
    + exists (Connect :: evs).
      unfold count. split; [|split; [|split]].
      * rewrite <- app_assoc. reflexivity.
      * cbn [filter isConnect]. now rewrite Hc.
      * cbn [filter isDisconnect]. now rewrite Hd.
      * discriminate.
  - rewrite (sweep_not_connected _ _ _ _ Eapi).
    exists []. cbn [fst snd isOk]. rewrite app_nil_r, withLog_same.
    split; [reflexivity|]. split; [reflexivity|]. split; [reflexivity|].
    discriminate.
Qed.

(** C6, as the code has it.  A sweep, escrow or tips, connects once
    (after it has read the posts) and disconnects exactly once when it
    returns normally, as its last call; there is no [finally]: when the
    connection cannot be established, or a balance query or a transfer
    throws, the sweep ends without disconnecting. *)
Theorem sweep_disconnects_once_on_return_only :
  forall sv w,
    (forall peopleId userId,
        connectionUse sv (transferEscorwToUser sv peopleId userId) w)
    /\ (forall publicKey account,
        connectionUse sv (transferTipsToUser sv publicKey account) w).
Proof.
  intros sv w. split.
  - intros peopleId userId.
    exact (sweep_connectionUse sv userId
             (escrowPosts peopleId userId (posts w)) w).
  - intros publicKey account.
    exact (sweep_connectionUse sv publicKey
             (tipPosts publicKey account (posts w)) w).
Qed.

(** What a sweep over [selected] does when nothing throws. *)
Definition sweepsSelected (sv : Services) (w : World) (run : M unit)
           (to : string) (selected : list Post) : Prop :=
  run w = (Ok tt,
           withLog w (chainLog w ++ [Connect]
                      ++ flat_map (eventsOf sv to) selected ++ [Disconnect]))
  /\ filter isSignAndSend (newEvents w (snd (run w)))
     = map (transferOf sv to) (filter (hasFunds sv) selected)
  /\ count isSignAndSend (newEvents w (snd (run w)))
     = List.length (filter (hasFunds sv) selected).

Lemma sweep_sweepsSelected sv to selected w :
  polkadotApi sv = true ->
  Forall (goesThrough sv to) selected ->
  sweepsSelected sv w (sweep sv to selected) to selected.
Proof.
  intros Hapi Hgo.
  assert (Hrun : sweep sv to selected w
                 = (Ok tt,
                    withLog w (chainLog w ++ [Connect]
                               ++ flat_map (eventsOf sv to) selected
                               ++ [Disconnect]))).
  { unfold sweep, connect. rewrite Hapi.
    unfold bind at 1. rewrite logChain_run. unfold bind at 1.
    rewrite (forEach_goesThrough _ _ _ _ Hgo), logChain_run.
    cbn [chainLog withLog]. rewrite <- !app_assoc. reflexivity. }
  assert (Hf : filter isSignAndSend (newEvents w (snd (sweep sv to selected w)))
               = map (transferOf sv to) (filter (hasFunds sv) selected)).
  { rewrite Hrun. cbn [snd]. rewrite newEvents_app.
    cbn [app filter isSignAndSend]. rewrite filter_app.
    rewrite filter_transfers_eventsOf. cbn. apply app_nil_r. }
  split; [exact Hrun|]. split; [exact Hf|].
  unfold count. rewrite Hf. apply length_map.
Qed.

Lemma escrowPosts_In peopleId userId ps p :
  In p (escrowPosts peopleId userId ps)
  <-> In p ps /\ post_peopleId p = Some peopleId
      /\ post_walletAddress p <> userId.
Proof.
  unfold escrowPosts. rewrite filter_In, andb_true_iff, negb_true_iff.
  rewrite String.eqb_neq.
  destruct (post_peopleId p) as [q|].
  - rewrite Nat.eqb_eq. split.
    + intros (? & -> & ?). auto.
    + intros (? & Hq & ?). injection Hq as ->. auto.
  - split; [intros (_ & H & _); discriminate|intros (_ & H & _); discriminate].
Qed.

Lemma tipPosts_In publicKey account ps p :
  In p (tipPosts publicKey account ps)
  <-> In p ps
      /\ (exists pu, post_platformUser p = Some pu
                     /\ pu_platform_account_id pu = account)
      /\ post_walletAddress p <> publicKey.
Proof.
  unfold tipPosts. rewrite !filter_In, negb_true_iff, String.eqb_neq.
  destruct (post_platformUser p) as [pu|].
  - rewrite String.eqb_eq. split.
    + intros ((? & ?) & ->). split; [assumption|]. split; [|assumption].
      now exists pu.
    + intros (? & (pu' & Hpu & Ha) & ?). injection Hpu as <-. auto.
  - split; [intros (_ & H); discriminate|].
    intros (_ & (pu & H & _) & _). discriminate.
Qed.

(** What a sweep does in every run, whether or not it returns: the
    transfers it submits are, in order, those of the first funded posts
    among the selected ones, each once; so there are no more of them than
    selected posts with a positive balance. *)
Definition transfersInOrder (sv : Services) (w : World) (run : M unit)
           (to : string) (selected : list Post) : Prop :=
  (exists k,
      filter isSignAndSend (newEvents w (snd (run w)))
      = firstn k (map (transferOf sv to) (filter (hasFunds sv) selected)))
  /\ (count isSignAndSend (newEvents w (snd (run w)))
      <= List.length (filter (hasFunds sv) selected))%nat.

Lemma forEach_transfers sv to selected w :
  exists evs k,
    snd (forEach selected (transferFrom sv to) w)
    = withLog w (chainLog w ++ evs)
    /\ filter isSignAndSend evs
       = firstn k (map (transferOf sv to) (filter (hasFunds sv) selected)).
Proof.
  revert w. induction selected as [|p r IH]; intros w.
  - exists [], 0. split; [|reflexivity].
    simpl. now rewrite app_nil_r, withLog_same.
  - cbn [forEach]. unfold bind at 1. rewrite transferFrom_attempt.
    cbn [filter]. unfold attempt.
    assert (Hh : hasFunds sv p
                 = match balanceOf sv p with
                   | Some b => (0 <? b)%N
                   | None => false
                   end) by reflexivity.
    assert (Ht : transferOf sv to p
                 = SignAndSend (derivedUri p) to
                               (match balanceOf sv p with
                                | Some b => Z.of_N b - gasFee
                                | None => - gasFee
                                end)%Z) by reflexivity.
    destruct (balanceOf sv p) as [b|] eqn:Eb.
    + destruct (N.eqb b 0) eqn:E0.
      * apply N.eqb_eq in E0. subst b. rewrite Hh. cbn [fst snd N.ltb N.compare].
        destruct (IH (withLog w (chainLog w
                                 ++ [Query (address sv (derivedUri p))])))
          as (evs & k & Hw & Hf).
        exists (Query (address sv (derivedUri p)) :: evs), k. split.
        -- rewrite Hw. cbn [chainLog withLog]. now rewrite <- app_assoc.
        -- exact Hf.
      * assert (Hpos : (0 <? b)%N = true).
        { apply N.ltb_lt. apply N.eqb_neq in E0. lia. }
        rewrite Hh, Hpos. cbn [fst snd map]. rewrite Ht.
        destruct (signAndSend sv (derivedUri p) to (Z.of_N b - gasFee)).
        -- destruct (IH (withLog w
                           (chainLog w
                            ++ [Query (address sv (derivedUri p));
                                SignAndSend (derivedUri p) to
                                            (Z.of_N b - gasFee)])))
             as (evs & k & Hw & Hf).
           exists (Query (address sv (derivedUri p))
                   :: SignAndSend (derivedUri p) to (Z.of_N b - gasFee)
                   :: evs), (S k). split.
           ++ rewrite Hw. cbn [chainLog withLog]. now rewrite <- app_assoc.
           ++ cbn [filter isSignAndSend firstn]. now rewrite Hf.
        -- exists [Query (address sv (derivedUri p));
                   SignAndSend (derivedUri p) to (Z.of_N b - gasFee)], 1.
           split; [reflexivity|]. cbn [filter isSignAndSend firstn].
           reflexivity.
    + cbn [fst snd]. exists [Query (address sv (derivedUri p))], 0.
      split; reflexivity.
Qed.

Lemma newEvents_same w : newEvents w w = [].
Proof. unfold newEvents. apply skipn_all. Qed.

Lemma sweep_transfersInOrder sv to selected w :
  transfersInOrder sv w (sweep sv to selected) to selected.
Proof.
  assert (H : exists k,
             filter isSignAndSend (newEvents w (snd (sweep sv to selected w)))
             = firstn k (map (transferOf sv to)
                             (filter (hasFunds sv) selected))).
  { destruct (polkadotApi sv) eqn:Eapi.
    - rewrite (sweep_connected _ _ _ _ Eapi).
      destruct (forEach_transfers sv to selected
                  (withLog w (chainLog w ++ [Connect])))
        as (evs & k & Hw & Hf).
      exists k.
      destruct (forEach selected (transferFrom sv to)
                        (withLog w (chainLog w ++ [Connect]))) as [r w1].
      cbn [snd] in Hw. subst w1. cbn [chainLog withLog].
      destruct r as [[]|e]; cbn [snd]; rewrite !withLog_withLog;
        rewrite <- !app_assoc, newEvents_app;
        cbn [app filter isSignAndSend].
      + rewrite filter_app, Hf. cbn. apply app_nil_r.
      + exact Hf.
    - rewrite (sweep_not_connected _ _ _ _ Eapi). cbn [snd].
      rewrite newEvents_same. now exists 0. }
  split; [exact H|].
  destruct H as [k Hk]. unfold count. rewrite Hk, length_firstn, length_map.
  apply Nat.le_min_r.
Qed.

(** C7, as the code has it.  A sweep takes, of the posts that meet its
    criterion (the persona for the escrow sweep, the platform account for
    the tips sweep), exactly those whose wallet address is not the target.
    When the connection is established and no query or transfer throws,
    it visits them in order, and for each one whose derived account has a
    positive balance it submits one transfer of that balance less the fee
    to the target, signed with the key derived from the post id; the
    others get a query and no transfer: the number of transfers is the
    number of selected posts with a positive balance.  In every other run
    the sweep ends where it fails, and the transfers submitted are those
    of the first funded posts, in order and each once, fewer perhaps than
    there are funded posts. *)
Theorem sweep_transfers_each_funded_post_once :
  forall sv w,
    (forall peopleId userId,
        (forall p, In p (escrowPosts peopleId userId (posts w))
                   <-> In p (posts w) /\ post_peopleId p = Some peopleId
                       /\ post_walletAddress p <> userId)
        /\ (polkadotApi sv = true ->
            Forall (goesThrough sv userId)
                   (escrowPosts peopleId userId (posts w)) ->
            sweepsSelected sv w (transferEscorwToUser sv peopleId userId)
                           userId (escrowPosts peopleId userId (posts w)))
        /\ transfersInOrder sv w (transferEscorwToUser sv peopleId userId)
                            userId (escrowPosts peopleId userId (posts w)))
    /\ (forall publicKey account,
        (forall p, In p (tipPosts publicKey account (posts w))
                   <-> In p (posts w)
                       /\ (exists pu, post_platformUser p = Some pu
                                      /\ pu_platform_account_id pu = account)
                       /\ post_walletAddress p <> publicKey)
        /\ (polkadotApi sv = true ->
            Forall (goesThrough sv publicKey)
                   (tipPosts publicKey account (posts w)) ->
            sweepsSelected sv w (transferTipsToUser sv publicKey account)
                           publicKey (tipPosts publicKey account (posts w)))
        /\ transfersInOrder sv w (transferTipsToUser sv publicKey account)
                            publicKey (tipPosts publicKey account (posts w))).
Proof.
  intros sv w. split.
  - intros peopleId userId. split; [|split].
    + intros p. apply escrowPosts_In.
    + intros Hapi Hgo. exact (sweep_sweepsSelected sv userId _ w Hapi Hgo).
    + exact (sweep_transfersInOrder sv userId
               (escrowPosts peopleId userId (posts w)) w).
  - intros publicKey account. split; [|split].
    + intros p. apply tipPosts_In.
    + intros Hapi Hgo. exact (sweep_sweepsSelected sv publicKey _ w Hapi Hgo).
    + exact (sweep_transfersInOrder sv publicKey
               (tipPosts publicKey account (posts w)) w).
Qed.

(** ** A world with four posts *)

Definition offline {A : Type} : string -> Result A :=
  fun _ => Throw (ExternalError "offline").

Definition noEngine : string -> string -> Z := fun _ _ => (-1)%Z.

Definition chainAddress (uri : string) : string := ("5" ++ uri)%string.

Definition balances (account : string) : option N :=
  if String.eqb account "5//post1" then Some 500000000%N
  else if String.eqb account "5//post3" then Some 200000000%N
  else Some 0%N.

(** Services of which only the chain answers; [sends] decides the
    transfers. *)
Definition chainOnly (sends : string -> string -> Z -> bool) : Services :=
  mkServices offline offline offline offline offline noEngine
             true chainAddress balances sends.

Definition reliable : Services := chainOnly (fun _ _ _ => true).

Definition failingThird : Services :=
  chainOnly (fun from _ _ => negb (String.eqb from "//post3")).

Definition failingFirst : Services :=
  chainOnly (fun from _ _ => negb (String.eqb from "//post1")).

Definition post1 : Post :=
  mkPost "post1" (Some 1) "5Escrow1" (Some (mkPlatformUser "44196397")).
Definition post2 : Post :=
  mkPost "post2" (Some 1) "5Escrow2" (Some (mkPlatformUser "44196397")).
Definition post3 : Post :=
  mkPost "post3" (Some 1) "5Escrow3" (Some (mkPlatformUser "44196397")).
Definition post4 : Post :=
  mkPost "post4" (Some 1) "5Target" (Some (mkPlatformUser "44196397")).

Definition fourPosts : World := mkWorld [] [] [post1; post2; post3; post4] 10 [].

(** C6, the claim as stated, refuted: the transfer for the third post
    throws, and the escrow sweep ends with the connection made and never
    released. *)
Lemma sweep_keeps_connection_when_transfer_throws :
  fst (transferEscorwToUser failingThird 1 "5Target" fourPosts)
  = Throw (ExternalError "transfer failed")
  /\ chainLog (snd (transferEscorwToUser failingThird 1 "5Target" fourPosts))
     = [Connect;
        Query "5//post1"; SignAndSend "//post1" "5Target" 374999853;
        Query "5//post2";
        Query "5//post3"; SignAndSend "//post3" "5Target" 74999853]
  /\ count isConnect
       (chainLog (snd (transferEscorwToUser failingThird 1 "5Target" fourPosts)))
     = 1
  /\ count isDisconnect
       (chainLog (snd (transferEscorwToUser failingThird 1 "5Target" fourPosts)))
     = 0.
Proof.
  assert (H : transferEscorwToUser failingThird 1 "5Target" fourPosts
              = (Throw (ExternalError "transfer failed"),
                 withLog fourPosts
                   [Connect;
                    Query "5//post1"; SignAndSend "//post1" "5Target" 374999853;
                    Query "5//post2";
                    Query "5//post3"; SignAndSend "//post3" "5Target" 74999853]))
    by reflexivity.
  rewrite H. repeat split.
Qed.

(** Three posts are selected (the fourth already sits at the target), two
    of them hold funds: two transfers. *)
Lemma sweep_transfers_each_funded_post_once_witness :
  transferEscorwToUser reliable 1 "5Target" fourPosts
  = (Ok tt,
     withLog fourPosts
       [Connect;
        Query "5//post1"; SignAndSend "//post1" "5Target" 374999853;
        Query "5//post2";
        Query "5//post3"; SignAndSend "//post3" "5Target" 74999853;
        Disconnect])
  /\ count isSignAndSend
       (newEvents fourPosts
          (snd (transferTipsToUser reliable "5Target" "44196397" fourPosts)))
     = 2.
Proof.
  destruct (sweep_transfers_each_funded_post_once reliable fourPosts)
    as [Hescrow Htips].
  assert (Hgo : forall p, goesThrough reliable "5Target" p).
  { intros p. unfold goesThrough.
    destruct (balanceOf reliable p) as [b|] eqn:E.
    - exists b. split; [reflexivity|]. intros _. reflexivity.
    - unfold balanceOf in E. cbn in E. unfold balances in E.
      repeat match type of E with
             | (if ?c then _ else _) = _ => destruct c; try discriminate
             end. }
  split.
  - destruct (Hescrow 1 "5Target") as (_ & Hs & _).
    destruct Hs as (Hrun & _ & _).
    + reflexivity.
    + apply Forall_forall. intros p _. apply Hgo.
    + exact Hrun.
  - destruct (Htips "5Target" "44196397") as (_ & Hs & _).
    destruct Hs as (_ & _ & Hcount).
    + reflexivity.
    + apply Forall_forall. intros p _. apply Hgo.
    + exact Hcount.
Defined.

(** C7, the claim as stated, refuted: three posts are selected and two of
    them hold funds, but the transfer for the first post throws, the sweep
    ends there, and one transfer has been submitted, not two: the funds of
    the third post stay where they are. *)
Lemma failed_transfer_leaves_funded_post_unswept :
  List.length (escrowPosts 1 "5Target" (posts fourPosts)) = 3
  /\ List.length (filter (hasFunds failingFirst)
                         (escrowPosts 1 "5Target" (posts fourPosts))) = 2
  /\ transferEscorwToUser failingFirst 1 "5Target" fourPosts
     = (Throw (ExternalError "transfer failed"),
        withLog fourPosts
          [Connect;
           Query "5//post1"; SignAndSend "//post1" "5Target" 374999853])
  /\ count isSignAndSend
       (newEvents fourPosts
          (snd (transferEscorwToUser failingFirst 1 "5Target" fourPosts)))
     = 1.
Proof.
  split; [reflexivity|]. split; [reflexivity|]. split; reflexivity.
Qed.

(** ** Linking a credential *)

(** The credential points to a persona of the platform. *)
Definition claimsPlatform (w : World) (platform : string) (c : UserCredential)
  : bool :=
  match find (fun p => Nat.eqb (people_id p) (credential_peopleId c))
             (people w) with
  | Some person => String.eqb (people_platform person) platform
  | None => false
  end.

(** The error of the guard of [createCredential]. *)
Definition PlatformAlreadyClaimed (user : User) : Exn :=
  UnprocessableEntity ("This " ++ platform user ++ " does not belong to you!").

(** The wallet [publicKey] already has a persona on the platform of
    [user]. *)
Definition hasPersonaOnPlatform (w : World) (user : User) (publicKey : string)
  : bool :=
  existsb (claimsPlatform w (platform user))
          (filter (fun c => String.eqb (credential_userId c) publicKey)
                  (credentials w)).

(** People have distinct identifiers, all below the next one. *)
Definition wellFormed (w : World) : Prop :=
  NoDup (map people_id (people w))
  /\ Forall (fun p => (people_id p < nextId w)%nat) (people w).

Definition emptyWorld : World := mkWorld [] [] [] 0 [].

Definition persona : User :=
  mkUser "44196397" "alice" "twitter" "https://pbs.example/alice_400x400.jpg".

Definition otherPersona : User :=
  mkUser "783214" "alice_alt" "twitter" "".

(** The guard loop: it throws as soon as one credential of the wallet
    points to a persona of the platform, and writes nothing. *)
Lemma guard_run (user : User) (creds : list UserCredential) (w : World) :
  forEach creds (fun c =>
      person <- peopleFindById (credential_peopleId c) ;;
      match person with
      | Some person =>
          if String.eqb (people_platform person) (platform user)
          then throw (UnprocessableEntity
                        ("This " ++ people_platform person
                                 ++ " does not belong to you!")%string)
          else ret tt
      | None => ret tt
      end) w
  = (if existsb (claimsPlatform w (platform user)) creds
     then Throw (PlatformAlreadyClaimed user) else Ok tt, w).
Proof.
  induction creds as [|c r IH]; [reflexivity|].
  cbn [forEach existsb]. unfold bind at 1. unfold bind at 1.
  unfold peopleFindById, gets, claimsPlatform at 1.
  destruct (find _ (people w)) as [person|]; [|exact IH].
  destruct (String.eqb (people_platform person) (platform user)) eqn:E.
  - apply String.eqb_eq in E. unfold throw, PlatformAlreadyClaimed.
    now rewrite E.
  - exact IH.
Qed.

(** [createCredential] with its guard decided. *)
Lemma createCredential_run user publicKey w :
  createCredential user publicKey w
  = if hasPersonaOnPlatform w user publicKey
    then (Throw (PlatformAlreadyClaimed user), w)
    else
      match find (fun p => String.eqb (people_platform_account_id p) (id user)
                           && String.eqb (people_platform p) (platform user))
                 (people w) with
      | Some foundPeople =>
          match find (fun c => Nat.eqb (credential_peopleId c)
                                       (people_id foundPeople))
                     (filter (fun c => String.eqb (credential_userId c) publicKey)
                             (credentials w)) with
          | None => createUserCredential (people_id foundPeople) publicKey true w
          | Some foundCredential =>
              updateById (credential_id foundCredential) true w
          end
      | None =>
          (newPeople <- createPeople (username user) (id user) (platform user)
                                     (profile_image_url user) ;;
           createUserCredential (people_id newPeople) publicKey true) w
      end.
Proof.
  unfold createCredential, credentialsOfUser, hasPersonaOnPlatform.
  unfold bind at 1. unfold gets at 1. unfold bind at 1.
  rewrite guard_run.
  destruct (existsb _ _); [reflexivity|].
  unfold bind at 1. unfold peopleFindByAccount, gets.
  destruct (find _ (people w)) as [fp|]; [|reflexivity].
  destruct (find _ (filter _ (credentials w))); reflexivity.
Qed.

(** The guard rejects a wallet that has any persona on the platform, the
    submitted one included, and writes nothing. *)
Lemma createCredential_rejects user publicKey w :
  hasPersonaOnPlatform w user publicKey = true ->
  createCredential user publicKey w = (Throw (PlatformAlreadyClaimed user), w).
Proof. intros H. now rewrite createCredential_run, H. Qed.

Lemma find_by_id_unique (l : list People) (x : People) :
  NoDup (map people_id l) -> In x l ->
  find (fun p => Nat.eqb (people_id p) (people_id x)) l = Some x.
Proof.
  induction l as [|y l IH]; intros Hnd Hin; [contradiction|].
  simpl in Hnd. inversion Hnd as [|? ? Hny Hnd']; subst.
  simpl. destruct Hin as [-> | Hin].
  - now rewrite Nat.eqb_refl.
  - destruct (Nat.eqb (people_id y) (people_id x)) eqn:E.
    + apply Nat.eqb_eq in E. exfalso. apply Hny. rewrite E.
      now apply in_map.
    + now apply IH.
Qed.

Lemma find_fresh_id (l : list People) (x : People) :
  Forall (fun p => (people_id p < people_id x)%nat) l ->
  find (fun p => Nat.eqb (people_id p) (people_id x)) (l ++ [x]) = Some x.
Proof.
  induction 1 as [|y l Hy _ IH]; simpl.
  - now rewrite Nat.eqb_refl.
  - assert (Nat.eqb (people_id y) (people_id x) = false) as ->
      by (apply Nat.eqb_neq; lia).
    exact IH.
Qed.

Lemma existsb_last {A} (f : A -> bool) (l : list A) (x : A) :
  f x = true -> existsb f (l ++ [x]) = true.
Proof.
  intros H. rewrite existsb_app. simpl. rewrite H. apply orb_true_iff.
  right. reflexivity.
Qed.

(** Linking once more what was just linked is rejected: after a link that
    went through, the wallet has a persona on the platform, so the same
    call runs into the guard.  The branch that would update [isLogin] is
    never reached. *)
Lemma relinking_is_rejected user publicKey w :
  wellFormed w ->
  fst (createCredential user publicKey w) = Ok tt ->
  createCredential user publicKey (snd (createCredential user publicKey w))
  = (Throw (PlatformAlreadyClaimed user),
     snd (createCredential user publicKey w))
  /\ List.length (credentials (snd (createCredential user publicKey w)))
     = S (List.length (credentials w)).
Proof.
  intros [Hnd Hlt] Hok.
  destruct (createCredential user publicKey w) as [r w1] eqn:Hrun.
  cbn [fst snd] in *. subst r.
  rewrite createCredential_run in Hrun.
  destruct (hasPersonaOnPlatform w user publicKey) eqn:Hguard;
    [discriminate|].
  destruct (find _ (people w)) as [fp|] eqn:Efp.
  - apply find_some in Efp. destruct Efp as [Hin Hfp].
    apply andb_true_iff in Hfp. destruct Hfp as [_ Hplat].
    pose proof (find_by_id_unique _ _ Hnd Hin) as Hfind.
    destruct (find _ (filter _ (credentials w))) as [fc|] eqn:Efc.
    + exfalso. apply find_some in Efc. destruct Efc as [Hfc Hpid].
      apply Nat.eqb_eq in Hpid.
      unfold hasPersonaOnPlatform in Hguard.
      assert (existsb (claimsPlatform w (platform user))
                (filter (fun c => String.eqb (credential_userId c) publicKey)
                        (credentials w)) = true) as Hex.
      { apply existsb_exists. exists fc. split; [assumption|].
        unfold claimsPlatform. rewrite Hpid, Hfind. exact Hplat. }
      congruence.
    + unfold createUserCredential, modify in Hrun. injection Hrun as <-.
      split.
      * apply createCredential_rejects. unfold hasPersonaOnPlatform.
        cbn [credentials]. rewrite filter_app. cbn [filter credential_userId].
        rewrite String.eqb_refl. apply existsb_last.
        unfold claimsPlatform. cbn [people credential_peopleId].
        rewrite Hfind. exact Hplat.
      * cbn [credentials]. rewrite length_app. simpl. lia.
  - unfold bind, createPeople, createUserCredential, modify in Hrun.
    cbn [people credentials posts nextId chainLog people_id] in Hrun.
    injection Hrun as <-. split.
    + apply createCredential_rejects. unfold hasPersonaOnPlatform.
      cbn [credentials]. rewrite filter_app. cbn [filter credential_userId].
      rewrite String.eqb_refl. apply existsb_last.
      unfold claimsPlatform. cbn [people credential_peopleId].
      set (np := mkPeople (nextId w) (username user) (id user) (platform user)
                          (profile_image_url user)).
      change (nextId w) with (people_id np) at 1.
      rewrite find_fresh_id; [apply String.eqb_refl|exact Hlt].
    + cbn [credentials]. rewrite length_app. simpl. lia.
Qed.

(** C4.  The claim: linking again the same wallet, platform and persona
    succeeds and updates [isLogin].  The code: the first call on an empty
    store creates the persona and one credential; the same call again is
    rejected by the guard with ['This twitter does not belong to you!'],
    as a call with another persona of the platform is.  One credential is
    stored throughout. *)
Theorem relinking_same_persona_is_rejected :
  createCredential persona "5Wallet" emptyWorld
  = (Ok tt,
     mkWorld [mkPeople 0 "alice" "44196397" "twitter"
                       "https://pbs.example/alice_400x400.jpg"]
             [mkUserCredential 1 "5Wallet" 0 true] [] 2 [])
  /\ (let w1 := snd (createCredential persona "5Wallet" emptyWorld) in
      createCredential persona "5Wallet" w1
      = (Throw (UnprocessableEntity "This twitter does not belong to you!"), w1)
      /\ createCredential otherPersona "5Wallet" w1
         = (Throw (UnprocessableEntity "This twitter does not belong to you!"),
            w1)
      /\ List.length (credentials w1) = 1).
Proof.
  split; [reflexivity|].
  assert (Hwf : wellFormed emptyWorld) by (split; constructor).
  destruct (relinking_is_rejected persona "5Wallet" emptyWorld Hwf eq_refl)
    as [Hagain Hlen].
  cbv zeta. split; [exact Hagain|]. split.
  - apply createCredential_rejects. reflexivity.
  - exact Hlen.
Qed.

(** ** Verification by a published key *)

(** [p] occurs in [s] as a substring. *)
Definition occurs (p s : string) : Prop :=
  exists a b, s = (a ++ p ++ b)%string.


(** The persona descriptors [verifyUser] hands to [createCredential]. *)
Definition twitterPersona (user : TwitterUser) : User :=
  mkUser (tw_id user) (tw_username user) "twitter"
         (match tw_profile_image_url user with
          | Some url => JS.replaceFirst url "normal" "400x400"
          | None => ""
          end).

Definition redditPersona (redditUser : RedditUser) : User :=
  mkUser ("t2_" ++ rd_id redditUser)%string (rd_name redditUser) "reddit"
         (match rd_icon_img redditUser with
          | Some url => hd "" (JS.split url "?")
          | None => ""
          end).

(** What follows a proof that was found: link, sweep the tips, answer
    [true]. *)
Definition linkAndSweep (sv : Services) (user : User) (publicKey : string)
  : M bool :=
  createCredential user publicKey ;;;
  transferTipsToUser sv publicKey (id user) ;;;
  ret true.

Lemma prefix_iff (p s : string) :
  String.prefix p s = true <-> exists b, s = (p ++ b)%string.
Proof.
  revert s. induction p as [|c p IH]; intros s.
  - split; [intros _; now exists s|intros _; destruct s; reflexivity].
  - destruct s as [|d s]; simpl.
    + split; [discriminate|intros [b H]; discriminate].
    + destruct (Ascii.ascii_dec c d) as [->|Hcd].
      * rewrite IH. split; intros [b H]; exists b; congruence.
      * split; [discriminate|]. intros [b H]. congruence.
Qed.

Lemma indexOf_Some_occurs (p s : string) (i : nat) :
  JS.indexOf p s = Some i -> occurs p s.
Proof.
  revert i. induction s as [|c s IH]; intros i; cbn [JS.indexOf].
  - destruct (String.prefix p "") eqn:E; [|discriminate].
    intros _. apply prefix_iff in E. destruct E as [b E]. now exists "", b.
  - destruct (String.prefix p (String c s)) eqn:E.
    + intros _. apply prefix_iff in E. destruct E as [b E]. now exists "", b.
    + destruct (JS.indexOf p s) as [j|]; [|discriminate].
      intros _. destruct (IH j eq_refl) as (a & b & H).
      exists (String c a), b. simpl. now rewrite H.
Qed.

Lemma indexOf_None_not_occurs (p s : string) :
  JS.indexOf p s = None -> ~ occurs p s.
Proof.
  induction s as [|c s IH]; cbn [JS.indexOf].
  - destruct (String.prefix p "") eqn:E; [discriminate|].
    intros _ (a & b & H). destruct a; [|discriminate]. simpl in H.
    assert (String.prefix p "" = true) by (apply prefix_iff; now exists b).
    congruence.
  - destruct (String.prefix p (String c s)) eqn:E; [discriminate|].
    destruct (JS.indexOf p s) as [j|]; [discriminate|].
    intros _ (a & b & H). destruct a as [|d a].
    + simpl in H.
      assert (String.prefix p (String c s) = true)
        by (apply prefix_iff; now exists b).
      congruence.
    + simpl in H. injection H as _ H. apply (IH eq_refl). now exists a, b.
Qed.

Lemma indexOf_None_iff (p s : string) :
  JS.indexOf p s = None <-> ~ occurs p s.
Proof.
  split; [apply indexOf_None_not_occurs|].
  intros H. destruct (JS.indexOf p s) as [i|] eqn:E; [|reflexivity].
  exfalso. apply H. eapply indexOf_Some_occurs. exact E.
Qed.


(** ** What the steps after the search can throw *)













(** ** A twitter account and its tweets *)

Definition aliceTwitter : TwitterUser :=
  mkTwitterUser "44196397" "alice" (Some "https://pbs.example/alice_normal.jpg").

(** Services that know one twitter account, with the given tweets; the
    chain is the one of [reliable]. *)
Definition twitterWith (tweets : list Tweet) : Services :=
  mkServices
    (fun url =>
       if String.eqb url "users/by/username/alice?user.fields=profile_image_url"
       then Ok (Some aliceTwitter) else Ok None)
    (fun _ => Ok tweets)
    offline offline offline noEngine true chainAddress balances
    (fun _ _ _ => true).

Definition proofFirst : list Tweet :=
  [mkTweet "I am verifying my Myriad account 5Wallet"; mkTweet "gm"].




(** ** Platforms *)

(** C10.  For every platform other than ['twitter'] and ['reddit'],
    ['facebook'] among them, [verifyUser] throws [NotFound] with
    ['Platform does not exist'] and leaves the world as it was: no
    credential, no chain call.  The facebook branch exists in [verify]
    only, where a facebook persona has its page fetched and its key
    compared. *)
Theorem other_platforms_are_not_found :
  forall sv publicKey username w,
    (forall platform,
        platform <> "twitter" -> platform <> "reddit" ->
        verifyUser sv publicKey username platform w
        = (Throw (NotFound "Platform does not exist"), w))
    /\ verifyUser sv publicKey username "facebook" w
       = (Throw (NotFound "Platform does not exist"), w)
    /\ (forall userId peopleId foundPeople foundCredential page,
           peopleFindById peopleId w = (Ok (Some foundPeople), w) ->
           credentialFindOne userId peopleId w = (Ok (Some foundCredential), w) ->
           people_platform foundPeople = "facebook" ->
           facebookPosts sv (people_platform_account_id foundPeople) = Ok page ->
           verifyTry sv userId peopleId w
           = settle sv (sameKey userId (facebookKey page)) peopleId userId
                    foundCredential w).
Proof.
  intros sv publicKey username w.
  assert (Hother : forall platform,
             platform <> "twitter" -> platform <> "reddit" ->
             verifyUser sv publicKey username platform w
             = (Throw (NotFound "Platform does not exist"), w)).
  { intros platform Ht Hr. unfold verifyUser.
    apply String.eqb_neq in Ht, Hr. rewrite Ht, Hr. reflexivity. }
  split; [exact Hother|]. split.
  - apply Hother; discriminate.
  - intros userId peopleId fp fc page Hp Hc Hplat Hpage.
    unfold verifyTry. unfold bind at 1. rewrite Hp.
    unfold bind at 1. rewrite Hc. rewrite Hplat.
    cbn [String.eqb Ascii.eqb Bool.eqb]. cbv iota.
    unfold bind at 1. unfold lift at 1. rewrite Hpage. reflexivity.
Qed.

(** ** Re-checking a stored link *)

(** The persona and the credential [verify] finds for a request. *)
Definition linked (w : World) (userId : string) (peopleId : ObjectId)
           (foundPeople : People) (foundCredential : UserCredential) : Prop :=
  find (fun p => Nat.eqb (people_id p) peopleId) (people w) = Some foundPeople
  /\ find (fun c => String.eqb (credential_userId c) userId
                    && Nat.eqb (credential_peopleId c) peopleId)
          (credentials w) = Some foundCredential.

(** The world without the credential [cid]. *)
Definition removeCredential (cid : ObjectId) (w : World) : World :=
  mkWorld (people w)
          (filter (fun c => negb (Nat.eqb (credential_id c) cid))
                  (credentials w))
          (posts w) (nextId w) (chainLog w).

(** What [verify] answers once the key is compared: on a match the escrow
    is swept and the answer tells whether the sweep returned; on a
    mismatch the link is deleted and the answer is [false]. *)
Definition verdict (sv : Services) (userId : string) (peopleId : ObjectId)
           (foundCredential : UserCredential) (matched : bool) (w : World)
  : Result bool * World :=
  if matched
  then (Ok (isOk (fst (transferEscorwToUser sv peopleId userId w))),
        snd (transferEscorwToUser sv peopleId userId w))
  else (Ok false, removeCredential (credential_id foundCredential) w).

(** Whitespace, and the whitespace-separated words of a text, as the
    specification words the token lookup. *)
Definition isWhitespace (c : ascii) : bool :=
  existsb (Ascii.eqb c) [" "%char; "009"%char; "010"%char; "013"%char].

Fixpoint words_go (cur : string) (s : string) : list string :=
  match s with
  | EmptyString =>
      if String.eqb cur "" then [] else [JS.rev_string "" cur]
  | String c s' =>
      if isWhitespace c
      then if String.eqb cur "" then words_go "" s'
           else JS.rev_string "" cur :: words_go "" s'
      else words_go (String c cur) s'
  end.

Definition words (s : string) : list string := words_go "" s.

Definition tokenAt7 (s : string) : option string := nth_error (words s) 7.

Lemma verify_catches sv userId peopleId w :
  verify sv userId peopleId w
  = match verifyTry sv userId peopleId w with
    | (Ok b, w') => (Ok b, w')
    | (Throw _, w') => (Ok false, w')
    end.
Proof. reflexivity. Qed.

Lemma found_credential_exists w userId peopleId fp fc :
  linked w userId peopleId fp fc -> hasCredential (credential_id fc) w = true.
Proof.
  intros [_ H]. apply find_some in H. destruct H as [Hin _].
  unfold hasCredential. apply existsb_exists. exists fc.
  split; [assumption|apply Nat.eqb_refl].
Qed.

Lemma settle_caught sv userId peopleId fc matched w :
  hasCredential (credential_id fc) w = true ->
  match settle sv matched peopleId userId fc w with
  | (Ok b, w') => (Ok b, w')
  | (Throw _, w') => (Ok false, w')
  end = verdict sv userId peopleId fc matched w.
Proof.
  intros Hex. unfold settle, verdict. destruct matched.
  - unfold bind.
    destruct (transferEscorwToUser sv peopleId userId w) as [[[]|e] w'];
      reflexivity.
  - unfold bind, deleteById. rewrite Hex. reflexivity.
Qed.

Lemma verifyTry_linked sv userId peopleId w fp fc :
  linked w userId peopleId fp fc ->
  verifyTry sv userId peopleId w
  = (let platform := people_platform fp in
     if String.eqb platform "twitter" then
       tweets <- lift (twitterTweets sv
                   ("users/" ++ people_platform_account_id fp
                    ++ "}/tweets?max_results=5")%string) ;;
       match tweets with
       | [] => throw (TypeError "Cannot read properties of undefined")
       | tweet0 :: _ =>
           settle sv (sameKey userId (twitterToken (text tweet0)))
                  peopleId userId fc
       end
     else if String.eqb platform "reddit" then
       children <- lift (redditListing sv
                     ("u/" ++ people_username fp ++ ".json?limit=1")%string) ;;
       match children with
       | [] => throw (TypeError "Cannot read properties of undefined")
       | child0 :: _ =>
           settle sv (sameKey userId (redditToken (title child0)))
                  peopleId userId fc
       end
     else if String.eqb platform "facebook" then
       facebookPosts <- lift (facebookPosts sv (people_platform_account_id fp)) ;;
       settle sv (sameKey userId (facebookKey facebookPosts))
              peopleId userId fc
     else ret false) w.
Proof.
  intros [Hp Hc]. unfold verifyTry.
  unfold bind at 1. unfold peopleFindById, gets. rewrite Hp.
  unfold bind at 1. unfold credentialFindOne, gets. rewrite Hc.
  reflexivity.
Qed.

(** ** The key in a tweet *)

(** A character that ends a piece of a tweet: a space, or a newline,
    which the code replaces by a space before it splits. *)
Definition isSeparator (c : ascii) : bool :=
  Ascii.eqb c space || Ascii.eqb c newline.

(** A piece: a string without separator (the empty string is one). *)
Definition unbroken (s : string) : Prop :=
  JS.allChars (fun c => negb (isSeparator c)) s = true.

(** The text made of the pieces of [before], each followed by its
    separator, and then [rest]. *)
Definition joined (before : list (string * ascii)) (rest : string) : string :=
  fold_right (fun pc acc => (fst pc ++ String (snd pc) acc)%string) rest before.

(** What follows the last piece: nothing, or a separator and more. *)
Definition endsPiece (tail : string) : Prop :=
  tail = "" \/ exists c rest, tail = String c rest /\ isSeparator c = true.

Lemma unbroken_cons c s :
  unbroken (String c s) <-> isSeparator c = false /\ unbroken s.
Proof.
  unfold unbroken. cbn [JS.allChars]. rewrite andb_true_iff, negb_true_iff.
  reflexivity.
Qed.

Lemma isSeparator_cases c :
  isSeparator c = true -> (if Ascii.eqb c newline then space else c) = space.
Proof.
  unfold isSeparator. destruct (Ascii.eqb c newline); [reflexivity|].
  rewrite orb_false_r. intros H. now apply Ascii.eqb_eq in H.
Qed.

Lemma replaceAllChar_append c d a b :
  JS.replaceAllChar c d (a ++ b)
  = (JS.replaceAllChar c d a ++ JS.replaceAllChar c d b)%string.
Proof. induction a as [|x a IH]; simpl; [reflexivity|now rewrite IH]. Qed.

Lemma replaceAllChar_unbroken p :
  unbroken p -> JS.replaceAllChar newline space p = p.
Proof.
  induction p as [|c p IH]; intros H; [reflexivity|].
  apply unbroken_cons in H. destruct H as [Hc Hp].
  cbn [JS.replaceAllChar]. rewrite (IH Hp).
  unfold isSeparator in Hc. apply orb_false_iff in Hc.
  destruct Hc as [_ Hn]. now rewrite Hn.
Qed.

Lemma not_space_prefix c s :
  isSeparator c = false -> String.prefix " " (String c s) = false.
Proof.
  intros Hc. destruct (String.prefix " " (String c s)) eqn:E; [|reflexivity].
  apply prefix_iff in E. destruct E as [b E]. injection E as -> _.
  discriminate Hc.
Qed.

Lemma space_prefix s : String.prefix " " (String space s) = true.
Proof. apply prefix_iff. now exists s. Qed.

(** Splitting at spaces a piece that a space follows. *)
Lemma split_go_piece p cur rest :
  unbroken p ->
  JS.split_go " " 0 cur (p ++ String space rest)
  = (JS.rev_string "" cur ++ p)%string :: JS.split_go " " 0 "" rest.
Proof.
  revert cur. induction p as [|c p IH]; intros cur H.
  - cbn [append JS.split_go]. rewrite space_prefix.
    now rewrite append_empty_r.
  - apply unbroken_cons in H. destruct H as [Hc Hp].
    cbn [append JS.split_go]. rewrite (not_space_prefix _ _ Hc).
    rewrite (IH _ Hp). cbn [JS.rev_string].
    rewrite (rev_string_acc cur (String c "")), append_assoc'. reflexivity.
Qed.

(** Splitting at spaces a piece that ends the text. *)
Lemma split_go_last p cur :
  unbroken p ->
  JS.split_go " " 0 cur p = [(JS.rev_string "" cur ++ p)%string].
Proof.
  revert cur. induction p as [|c p IH]; intros cur H.
  - cbn [JS.split_go]. now rewrite append_empty_r.
  - apply unbroken_cons in H. destruct H as [Hc Hp].
    cbn [JS.split_go]. rewrite (not_space_prefix _ _ Hc).
    rewrite (IH _ Hp). cbn [JS.rev_string].
    rewrite (rev_string_acc cur (String c "")), append_assoc'. reflexivity.
Qed.

(** The pieces of a text whose newlines are replaced, past the pieces of
    [before]. *)
Lemma split_joined before rest :
  Forall (fun pc => unbroken (fst pc) /\ isSeparator (snd pc) = true) before ->
  JS.split (JS.replaceAllChar newline space (joined before rest)) " "
  = map fst before
    ++ JS.split (JS.replaceAllChar newline space rest) " ".
Proof.
  induction 1 as [|[p c] before [Hp Hc] _ IH]; [reflexivity|].
  change (joined ((p, c) :: before) rest)
    with (p ++ String c (joined before rest))%string.
  cbn [fst snd map app] in *.
  rewrite replaceAllChar_append, (replaceAllChar_unbroken p Hp).
  cbn [JS.replaceAllChar]. rewrite (isSeparator_cases c Hc).
  unfold JS.split in *. rewrite (split_go_piece p "" _ Hp).
  cbn [JS.rev_string append]. now rewrite IH.
Qed.

Lemma split_last_piece key tail :
  unbroken key -> endsPiece tail ->
  exists more,
    JS.split (JS.replaceAllChar newline space (key ++ tail)) " " = key :: more.
Proof.
  intros Hk [->|(c & rest & -> & Hc)].
  - rewrite append_empty_r, (replaceAllChar_unbroken key Hk).
    exists []. unfold JS.split. now rewrite (split_go_last key "" Hk).
  - rewrite replaceAllChar_append, (replaceAllChar_unbroken key Hk).
    cbn [JS.replaceAllChar]. rewrite (isSeparator_cases c Hc).
    eexists. unfold JS.split. rewrite (split_go_piece key "" _ Hk).
    reflexivity.
Qed.

(** The token a tweet is checked by: its eighth piece. *)
Lemma twitterToken_eighth_piece before key tail :
  List.length before = 7 ->
  Forall (fun pc => unbroken (fst pc) /\ isSeparator (snd pc) = true) before ->
  unbroken key -> endsPiece tail ->
  twitterToken (joined before (key ++ tail)) = Some key.
Proof.
  intros Hlen Hb Hk Ht. unfold twitterToken.
  rewrite (split_joined before _ Hb).
  destruct (split_last_piece key tail Hk Ht) as [more ->].
  rewrite nth_error_app2 by (rewrite length_map; lia).
  rewrite length_map, Hlen. reflexivity.
Qed.

(** A tweet of fewer than eight pieces has no such token. *)
Lemma twitterToken_short before last :
  (List.length before < 7)%nat ->
  Forall (fun pc => unbroken (fst pc) /\ isSeparator (snd pc) = true) before ->
  unbroken last ->
  twitterToken (joined before last) = None.
Proof.
  intros Hlen Hb Hl. unfold twitterToken.
  rewrite (split_joined before _ Hb), (replaceAllChar_unbroken last Hl).
  unfold JS.split. rewrite (split_go_last last "" Hl).
  apply nth_error_None. rewrite length_app, length_map. cbn. lia.
Qed.

(** ** The key on a facebook page *)

Lemma indexOf_unfold (p s : string) :
  JS.indexOf p s
  = if String.prefix p s then Some 0
    else match s with
         | EmptyString => None
         | String _ s' => option_map S (JS.indexOf p s')
         end.
Proof. destruct s; reflexivity. Qed.

(** [indexOf] answers the position of the first occurrence. *)
Lemma indexOf_first (p before rest : string) :
  (forall a b, (before ++ p ++ rest)%string = (a ++ p ++ b)%string ->
               (String.length before <= String.length a)%nat) ->
  JS.indexOf p (before ++ p ++ rest) = Some (String.length before).
Proof.
  induction before as [|c before IH]; intros Hfirst.
  - rewrite indexOf_unfold. cbn [append].
    assert (String.prefix p (p ++ rest) = true) as ->
      by (apply prefix_iff; now exists rest).
    reflexivity.
  - rewrite indexOf_unfold.
    destruct (String.prefix p (String c before ++ p ++ rest)) eqn:E.
    + apply prefix_iff in E. destruct E as [b E].
      specialize (Hfirst "" b E). simpl in Hfirst. lia.
    + cbn [append]. rewrite IH; [reflexivity|].
      intros a b H. specialize (Hfirst (String c a) b).
      cbn [append String.length] in Hfirst. rewrite H in Hfirst.
      specialize (Hfirst eq_refl). lia.
Qed.

(** The key read from a page: what follows the first occurrence of the
    phrase, 49 characters of it, or all of it when the page ends
    before. *)
Lemma facebookKey_after_phrase (page before key rest : string) :
  page = (before ++ facebookPhrase ++ key ++ rest)%string ->
  (forall a b, page = (a ++ facebookPhrase ++ b)%string ->
               (String.length before <= String.length a)%nat) ->
  String.length key = 49
  \/ (rest = "" /\ (String.length key <= 49)%nat) ->
  facebookKey page = Some key.
Proof.
  intros -> Hfirst Hlen. unfold facebookKey.
  rewrite (indexOf_first _ _ _ Hfirst). cbv zeta. unfold JS.substring.
  replace (String.length before + String.length facebookPhrase + 49
           - (String.length before + String.length facebookPhrase))
    with 49 by lia.
  rewrite <- append_length, <- append_assoc', substring_skip_append.
  destruct Hlen as [H|[-> H]].
  - rewrite <- H. f_equal. apply substring_0_append.
  - rewrite append_empty_r. f_equal. now apply substring_0_all.
Qed.

Lemma facebookKey_without_phrase (page : string) :
  ~ occurs facebookPhrase page -> facebookKey page = None.
Proof.
  intros H. apply indexOf_None_iff in H. unfold facebookKey. now rewrite H.
Qed.

(** C9, as the code has it.  [verify] never throws: whatever the [try]
    block throws (a fetch that fails, no post to read, a transfer or a
    deletion that fails) is answered [false].  For a stored link, the key
    compared with [userId] is, on twitter, the piece at index 7 of the
    first tweet's text split at single spaces, newlines counting as
    spaces (a tweet of fewer than eight pieces has none); on facebook, the 49 characters that follow the first
    occurrence of the canned phrase on the fetched page (what is left of
    the page when it ends before), and no key at all when the phrase does
    not occur.  On a mismatch the link is deleted and the answer is
    [false]; on a match the escrow is swept.  A persona of any other
    platform than twitter, reddit and facebook is answered [false] with
    nothing deleted. *)
Theorem verify_compares_fixed_position_and_never_throws :
  forall sv userId peopleId w,
    (exists b, fst (verify sv userId peopleId w) = Ok b)
    /\ (forall e w',
           verifyTry sv userId peopleId w = (Throw e, w') ->
           verify sv userId peopleId w = (Ok false, w'))
    /\ (forall foundPeople foundCredential,
           linked w userId peopleId foundPeople foundCredential ->
           (people_platform foundPeople = "twitter" ->
            forall tweet0 rest,
              twitterTweets sv
                ("users/" ++ people_platform_account_id foundPeople
                 ++ "}/tweets?max_results=5")%string = Ok (tweet0 :: rest) ->
              (forall before key tail,
                  text tweet0 = joined before (key ++ tail) ->
                  List.length before = 7 ->
                  Forall (fun pc => unbroken (fst pc)
                                    /\ isSeparator (snd pc) = true) before ->
                  unbroken key -> endsPiece tail ->
                  verify sv userId peopleId w
                  = verdict sv userId peopleId foundCredential
                            (String.eqb userId key) w)
              /\ (forall before last,
                     text tweet0 = joined before last ->
                     (List.length before < 7)%nat ->
                     Forall (fun pc => unbroken (fst pc)
                                       /\ isSeparator (snd pc) = true) before ->
                     unbroken last ->
                     verify sv userId peopleId w
                     = verdict sv userId peopleId foundCredential false w))
           /\ (people_platform foundPeople = "facebook" ->
               forall page,
                 facebookPosts sv (people_platform_account_id foundPeople)
                 = Ok page ->
                 (forall before key rest,
                     page = (before
                             ++ "Saying hi to #MyriadNetwork Public Key: "
                             ++ key ++ rest)%string ->
                     (forall a b,
                         page = (a ++ "Saying hi to #MyriadNetwork Public Key: "
                                   ++ b)%string ->
                         (String.length before <= String.length a)%nat) ->
                     String.length key = 49
                     \/ (rest = "" /\ (String.length key <= 49)%nat) ->
                     verify sv userId peopleId w
                     = verdict sv userId peopleId foundCredential
                               (String.eqb userId key) w)
                 /\ (~ occurs "Saying hi to #MyriadNetwork Public Key: " page ->
                     verify sv userId peopleId w
                     = verdict sv userId peopleId foundCredential false w))
           /\ (people_platform foundPeople <> "twitter" ->
               people_platform foundPeople <> "reddit" ->
               people_platform foundPeople <> "facebook" ->
               verify sv userId peopleId w = (Ok false, w))).
Proof.
  intros sv userId peopleId w. split; [|split].
  - rewrite verify_catches.
    destruct (verifyTry sv userId peopleId w) as [[b|e] w'];
      eexists; reflexivity.
  - intros e w' H. rewrite verify_catches, H. reflexivity.
  - intros fp fc Hl.
    pose proof (found_credential_exists _ _ _ _ _ Hl) as Hex.
    rewrite verify_catches, (verifyTry_linked _ _ _ _ _ _ Hl). cbv zeta.
    split; [|split].
    + intros Hplat tweet0 rest Ht. rewrite Hplat.
      cbn [String.eqb Ascii.eqb Bool.eqb]. cbv iota.
      assert (Hrun :
        (let (r, w') :=
           (tweets <- lift (twitterTweets sv
                              ("users/" ++ people_platform_account_id fp
                               ++ "}/tweets?max_results=5")%string) ;;
            match tweets with
            | [] => throw (TypeError "Cannot read properties of undefined")
            | tweet0 :: _ =>
                settle sv (sameKey userId (twitterToken (text tweet0)))
                       peopleId userId fc
            end) w in
         match r with
         | Ok b => (Ok b, w')
         | Throw _ => (Ok false, w')
         end)
        = verdict sv userId peopleId fc
                  (sameKey userId (twitterToken (text tweet0))) w).
      { unfold bind at 1. unfold lift at 1. rewrite Ht.
        now apply settle_caught. }
      rewrite Hrun. split.
      * intros before key tail Htext Hlen Hb Hk Htail.
        now rewrite Htext, (twitterToken_eighth_piece _ _ _ Hlen Hb Hk Htail).
      * intros before last Htext Hlen Hb Hlast.
        now rewrite Htext, (twitterToken_short _ _ Hlen Hb Hlast).
    + intros Hplat page Hpage. rewrite Hplat.
      cbn [String.eqb Ascii.eqb Bool.eqb]. cbv iota.
      assert (Hrun :
        (let (r, w') :=
           (facebookPosts0 <- lift (facebookPosts sv
                                      (people_platform_account_id fp)) ;;
            settle sv (sameKey userId (facebookKey facebookPosts0))
                   peopleId userId fc) w in
         match r with
         | Ok b => (Ok b, w')
         | Throw _ => (Ok false, w')
         end)
        = verdict sv userId peopleId fc (sameKey userId (facebookKey page)) w).
      { unfold bind at 1. unfold lift at 1. rewrite Hpage.
        now apply settle_caught. }
      rewrite Hrun. split.
      * intros before key rest Hp Hfirst Hlen.
        now rewrite (facebookKey_after_phrase page before key rest Hp Hfirst
                       Hlen).
      * intros Hno. now rewrite (facebookKey_without_phrase page Hno).
    + intros Ht Hr Hf. apply String.eqb_neq in Ht, Hr, Hf.
      rewrite Ht, Hr, Hf. reflexivity.
Qed.

(** ** Stored links *)

Definition twitterLink : World :=
  mkWorld [mkPeople 0 "alice" "44196397" "twitter" ""]
          [mkUserCredential 1 "5Wallet" 0 true]
          [mkPost "post1" (Some 0) "5Escrow1" None] 2 [].

Definition facebookLink : World :=
  mkWorld [mkPeople 0 "alice.fb" "1000123" "facebook" ""]
          [mkUserCredential 1 "5Wallet" 0 true] [] 2 [].

Definition facebookWith (page : string) : Services :=
  mkServices offline offline offline offline (fun _ => Ok page) noEngine
             true chainAddress balances (fun _ _ _ => true).

Definition keyAtSeven : string :=
  "Saying hi to #MyriadNetwork with public key: 5Wallet".

Definition keyAtSix : string :=
  "Saying hi to #MyriadNetwork public key: 5Wallet".

Definition pageWithoutPhrase : string :=
  "Saying hi to Myriad Network Public Key: 5Wallet".

(** A key of 49 characters, another one, and a link of the first. *)
Definition longKey : string :=
  "5FHneW46xGXgs5mUiveU4sbTyGBzmstUspZC92UhjJM694ty9".

Definition otherLongKey : string :=
  "5DAAnrj7VHTznn2AWBemMuyBwZWs6FNFjdyVXUeYum3PTXFy9".

Definition longKeyLink : World :=
  mkWorld [mkPeople 0 "alice.fb" "1000123" "facebook" ""]
          [mkUserCredential 1 longKey 0 true] [] 2 [].

Definition pageWith (key : string) : string :=
  ("Saying hi to #MyriadNetwork Public Key: " ++ key
   ++ " Like Comment Share")%string.

(** A tweet with the key at index 7 has the escrow swept and is answered
    [true]; with the key at index 6 the link is deleted.  A facebook page
    with the user's key after the phrase has the escrow swept (there is
    no post); with another key there the link is deleted. *)
Lemma verify_compares_fixed_position_and_never_throws_witness :
  verify (twitterWith [mkTweet keyAtSeven]) "5Wallet" 0 twitterLink
  = (Ok true,
     withLog twitterLink
       [Connect; Query "5//post1";
        SignAndSend "//post1" "5Wallet" 374999853; Disconnect])
  /\ verify (twitterWith [mkTweet keyAtSix]) "5Wallet" 0 twitterLink
     = (Ok false,
        mkWorld [mkPeople 0 "alice" "44196397" "twitter" ""] []
                [mkPost "post1" (Some 0) "5Escrow1" None] 2 [])
  /\ verify (facebookWith (pageWith longKey)) longKey 0 longKeyLink
     = (Ok true, withLog longKeyLink [Connect; Disconnect])
  /\ verify (facebookWith (pageWith otherLongKey)) longKey 0 longKeyLink
     = (Ok false,
        mkWorld [mkPeople 0 "alice.fb" "1000123" "facebook" ""] [] [] 2 []).
Proof.
  assert (Hl : linked twitterLink "5Wallet" 0
                 (mkPeople 0 "alice" "44196397" "twitter" "")
                 (mkUserCredential 1 "5Wallet" 0 true))
    by (split; reflexivity).
  assert (Hfb : linked longKeyLink longKey 0
                  (mkPeople 0 "alice.fb" "1000123" "facebook" "")
                  (mkUserCredential 1 longKey 0 true))
    by (split; reflexivity).
  split; [|split; [|split]].
  - destruct (verify_compares_fixed_position_and_never_throws
                (twitterWith [mkTweet keyAtSeven]) "5Wallet" 0 twitterLink)
      as (_ & _ & H).
    destruct (H _ _ Hl) as (Htw & _ & _).
    destruct (Htw eq_refl (mkTweet keyAtSeven) [] eq_refl) as [Hkey _].
    apply (Hkey [("Saying", space); ("hi", space); ("to", space);
                 ("#MyriadNetwork", space); ("with", space);
                 ("public", space); ("key:", space)] "5Wallet" "");
      [reflexivity|reflexivity| |reflexivity|now left].
    repeat (constructor; [split; reflexivity|]). constructor.
  - destruct (verify_compares_fixed_position_and_never_throws
                (twitterWith [mkTweet keyAtSix]) "5Wallet" 0 twitterLink)
      as (_ & _ & H).
    destruct (H _ _ Hl) as (Htw & _ & _).
    destruct (Htw eq_refl (mkTweet keyAtSix) [] eq_refl) as [_ Hshort].
    apply (Hshort [("Saying", space); ("hi", space); ("to", space);
                   ("#MyriadNetwork", space); ("public", space);
                   ("key:", space)] "5Wallet");
      [reflexivity|cbn; lia| |reflexivity].
    repeat (constructor; [split; reflexivity|]). constructor.
  - destruct (verify_compares_fixed_position_and_never_throws
                (facebookWith (pageWith longKey)) longKey 0 longKeyLink)
      as (_ & _ & H).
    destruct (H _ _ Hfb) as (_ & Hpage & _).
    destruct (Hpage eq_refl (pageWith longKey) eq_refl) as [Hkey _].
    apply (Hkey "" longKey " Like Comment Share");
      [reflexivity|intros a b _; apply Nat.le_0_l|now left].
  - destruct (verify_compares_fixed_position_and_never_throws
                (facebookWith (pageWith otherLongKey)) longKey 0 longKeyLink)
      as (_ & _ & H).
    destruct (H _ _ Hfb) as (_ & Hpage & _).
    destruct (Hpage eq_refl (pageWith otherLongKey) eq_refl) as [Hkey _].
    apply (Hkey "" otherLongKey " Like Comment Share");
      [reflexivity|intros a b _; apply Nat.le_0_l|now left].
Defined.

(** C9, the claim as stated, refuted: on a facebook page the word at
    index 7 is the user's key, yet [verify] deletes the link and answers
    [false], for it looks for the canned phrase instead. *)
Lemma facebook_key_at_index_7_is_revoked :
  tokenAt7 pageWithoutPhrase = Some "5Wallet"
  /\ verify (facebookWith pageWithoutPhrase) "5Wallet" 0 facebookLink
     = (Ok false,
        mkWorld [mkPeople 0 "alice.fb" "1000123" "facebook" ""] [] [] 2 []).
Proof.
  split.
  - reflexivity.
  - rewrite verify_catches. reflexivity.
Qed.

(** Facebook is unknown to [verifyUser] and handled by [verify]. *)
Lemma other_platforms_are_not_found_witness :
  verifyUser reliable "5Wallet" "alice" "linkedin" emptyWorld
  = (Throw (NotFound "Platform does not exist"), emptyWorld)
  /\ verifyTry (facebookWith pageWithoutPhrase) "5Wallet" 0 facebookLink
     = settle (facebookWith pageWithoutPhrase)
              (sameKey "5Wallet" (facebookKey pageWithoutPhrase)) 0 "5Wallet"
              (mkUserCredential 1 "5Wallet" 0 true) facebookLink.
Proof.
  destruct (other_platforms_are_not_found reliable "5Wallet" "alice" emptyWorld)
    as (Hother & _ & _).
  destruct (other_platforms_are_not_found (facebookWith pageWithoutPhrase)
              "5Wallet" "alice" facebookLink) as (_ & _ & Hfb).
  split.
  - apply Hother; discriminate.
  - exact (Hfb "5Wallet" 0 (mkPeople 0 "alice.fb" "1000123" "facebook" "")
               (mkUserCredential 1 "5Wallet" 0 true) pageWithoutPhrase
               eq_refl eq_refl eq_refl eq_refl).
Defined.

(** The reddit branch replaces the letter [n], not the newline, before it
    splits: in a title that has the key as its eighth word, the piece at
    index 7 is another word as soon as an [n] precedes it. *)
Lemma reddit_token_splits_at_letter_n :
  twitterToken keyAtSeven = Some "5Wallet"
  /\ redditToken keyAtSeven = Some "key:".
Proof. split; reflexivity. Qed.

End ControllerProperties.

(* ================================================================== *)
(** * Signup, login and the address formats: further properties *)

Section SignupAndLogin.

Import Auth.

(** ** Strings *)

Lemma allChars_get (p : ascii -> bool) (s : string) :
  JS.allChars p s = true
  <-> forall i c, String.get i s = Some c -> p c = true.
Proof.
  induction s as [|a s IH]; simpl.
  - split; [intros _ i c H; destruct i; discriminate|reflexivity].
  - rewrite andb_true_iff, IH. split.
    + intros [Ha Hs] [|i] c H.
      * simpl in H. now injection H as <-.
      * simpl in H. exact (Hs i c H).
    + intros H. split.
      * apply (H 0 a). reflexivity.
      * intros i c Hi. apply (H (S i) c). exact Hi.
Qed.

Lemma substring_0_prefix (n : nat) (s : string) :
  exists rest, s = (String.substring 0 n s ++ rest)%string.
Proof.
  revert s. induction n as [|n IH]; intros s.
  - exists s. destruct s; reflexivity.
  - destruct s as [|c s]; simpl; [now exists ""|].
    destruct (IH s) as [rest H]. exists rest. now rewrite <- H.
Qed.

Lemma get_last_append (a : string) (c : ascii) :
  String.get (String.length (a ++ String c "") - 1) (a ++ String c "") = Some c.
Proof.
  induction a as [|x a IH]; [reflexivity|].
  simpl. rewrite Nat.sub_0_r.
  destruct (a ++ String c "")%string as [|y r] eqn:E.
  - destruct a; discriminate.
  - simpl in IH. rewrite Nat.sub_0_r in IH. exact IH.
Qed.

(** ** [validateUsername] *)

(** X1.  A username is accepted exactly when it is not empty, every
    character of it is a lower-case letter, a digit or an underscore, and
    neither its first nor its last character is an underscore; every
    rejection is an [UnprocessableEntity]. *)
Theorem validateUsername_accepts_exactly :
  forall username,
    (validateUsername username = Ok tt
     <-> username <> ""
         /\ (forall i c, String.get i username = Some c ->
                         JS.isLower c = true \/ JS.isDigit c = true
                         \/ c = "_"%char)
         /\ String.get 0 username <> Some "_"%char
         /\ String.get (String.length username - 1) username <> Some "_"%char)
    /\ (forall e, validateUsername username = Throw e ->
                  exists msg, e = UnprocessableEntity msg).
Proof.
  intros username.
  assert (Hund : forall o, isUnderscore o = true <-> o = Some "_"%char).
  { intros [c|]; simpl; [|split; discriminate].
    rewrite Ascii.eqb_eq. split; [now intros ->|now intros [= ->]]. }
  assert (Hcls : forall c, usernameChar c = true
                           <-> JS.isLower c = true \/ JS.isDigit c = true
                               \/ c = "_"%char).
  { intros c. unfold usernameChar.
    rewrite !orb_true_iff, Ascii.eqb_eq. tauto. }
  unfold validateUsername, JS.charAt, JS.matchesClassPlus.
  destruct (isUnderscore (String.get (String.length username - 1) username))
    eqn:Elast.
  { split; [|intros e [= <-]; eexists; reflexivity].
    split; [discriminate|]. intros (_ & _ & _ & H).
    apply Hund in Elast. contradiction. }
  destruct (isUnderscore (String.get 0 username)) eqn:Efirst.
  { split; [|intros e [= <-]; eexists; reflexivity].
    split; [discriminate|]. intros (_ & _ & H & _).
    apply Hund in Efirst. contradiction. }
  assert (Hl : String.get (String.length username - 1) username
               <> Some "_"%char).
  { intros H. apply Hund in H. congruence. }
  assert (Hf : String.get 0 username <> Some "_"%char).
  { intros H. apply Hund in H. congruence. }
  destruct (String.eqb username "") eqn:Eempty; simpl.
  { apply String.eqb_eq in Eempty.
    split; [|intros e [= <-]; eexists; reflexivity].
    split; [discriminate|]. intros (H & _). contradiction. }
  apply String.eqb_neq in Eempty.
  destruct (JS.allChars usernameChar username) eqn:Eall; simpl.
  - split; [|discriminate]. split; [|reflexivity]. intros _.
    split; [assumption|]. split; [|split; assumption].
    intros i c Hi. apply Hcls.
    exact (proj1 (allChars_get _ _) Eall i c Hi).
  - split; [|intros e [= <-]; eexists; reflexivity].
    split; [discriminate|]. intros (_ & H & _). exfalso.
    assert (JS.allChars usernameChar username = true); [|congruence].
    apply allChars_get. intros i c Hi. apply Hcls. exact (H i c Hi).
Qed.

(** ** [validateWalletAddress] *)

Lemma substring_split (n : nat) (s : string) :
  s = (String.substring 0 n s
       ++ String.substring n (String.length s - n) s)%string.
Proof.
  revert s. induction n as [|n IH]; intros s.
  - rewrite Nat.sub_0_r, (substring_0_all (String.length s) s) by lia.
    destruct s; reflexivity.
  - destruct s as [|c s]; [reflexivity|].
    simpl. now rewrite <- IH.
Qed.

Lemma endsWith_append (s p : string) :
  JS.endsWith s p = true -> exists a, s = (a ++ p)%string.
Proof.
  unfold JS.endsWith. intros H. apply andb_true_iff in H.
  destruct H as [Hlen Heq]. apply Nat.leb_le in Hlen.
  apply String.eqb_eq in Heq.
  exists (String.substring 0 (String.length s - String.length p) s).
  rewrite (substring_split (String.length s - String.length p) s) at 1.
  replace (String.length s - (String.length s - String.length p))
    with (String.length p) by lia.
  now rewrite Heq.
Qed.

Lemma append_endsWith (a p : string) : JS.endsWith (a ++ p) p = true.
Proof.
  unfold JS.endsWith. rewrite append_length. apply andb_true_iff. split.
  - apply Nat.leb_le. lia.
  - replace (String.length a + String.length p - String.length p)
      with (String.length a) by lia.
    rewrite substring_skip_append, substring_0_all by lia.
    apply String.eqb_refl.
Qed.

(** A separator that starts with a character foreign to [local] first
    occurs in [local ++ sep] where [local] ends. *)
Lemma beforeFirst_append (p : ascii -> bool) (local : string) (d : ascii)
      (rest : string) :
  JS.allChars p local = true -> p d = false ->
  beforeFirst (String d rest) (local ++ String d rest) = local.
Proof.
  intros Hall Hd. unfold beforeFirst.
  assert (Hi : JS.indexOf (String d rest) (local ++ String d rest)
               = Some (String.length local)).
  { induction local as [|c local IH].
    - cbn [append JS.indexOf String.length].
      assert (String.prefix (String d rest) (String d rest) = true) as ->
        by (apply prefix_iff; exists ""; now rewrite append_empty_r).
      reflexivity.
    - simpl in Hall. apply andb_true_iff in Hall. destruct Hall as [Hc Hall].
      cbn [append JS.indexOf String.prefix].
      destruct (Ascii.ascii_dec d c) as [->|_]; [congruence|].
      rewrite (IH Hall). reflexivity. }
  rewrite Hi. apply substring_0_append.
Qed.

Lemma nearSuffix_cases (nearNetwork : Network) :
  nearSuffix nearNetwork = ".testnet" \/ nearSuffix nearNetwork = ".near".
Proof.
  unfold nearSuffix.
  destruct (nth_error (JS.split (rpcURL nearNetwork) ".") 1) as [e|];
    [|now right].
  destruct (String.eqb e "development") eqn:E.
  - apply String.eqb_eq in E. subst e. now left.
  - right. apply String.eqb_neq in E.
    repeat (match goal with
            | |- context [match ?s with EmptyString => _ | String _ _ => _ end] =>
                destruct s; try reflexivity
            | |- context [match ?a with Ascii _ _ _ _ _ _ _ _ => _ end] =>
                destruct a
            | |- context [if ?b then _ else _] => destruct b; try reflexivity
            end).
    now elim E.
Qed.

Lemma nearIdChar_dot : nearIdChar "."%char = false.
Proof. reflexivity. Qed.

(** X2.  An address of 66 or of 42 characters is judged by its first two
    characters alone: it is accepted exactly when it starts with [0x],
    whatever follows and whatever networks are configured (the NEAR
    network is not looked up), and otherwise rejected with an
    [UnprocessableEntity]. *)
Theorem hex_address_needs_only_its_prefix :
  forall id,
    String.length id = 66 \/ String.length id = 42 ->
    forall db,
      (validateWalletAddress db id = Ok tt
       <-> exists rest, id = ("0x" ++ rest)%string)
      /\ validateWalletAddress db id = validateWalletAddress (mkDb [] [] []) id
      /\ (forall e, validateWalletAddress db id = Throw e ->
                    exists msg, e = UnprocessableEntity msg).
Proof.
  intros id Hlen db.
  assert (H : forall d, validateWalletAddress d id
                        = if JS.startsWith id "0x" then Ok tt
                          else Throw (UnprocessableEntity
                                        (if (String.length id =? 66)%nat
                                         then "Invalid polkadot address"
                                         else "Invalid ethereum address"))).
  { intros d. destruct Hlen as [Hl|Hl].
    - rewrite validateWalletAddress_66 by assumption. now rewrite Hl.
    - rewrite validateWalletAddress_42 by assumption. now rewrite Hl. }
  rewrite !H. unfold JS.startsWith.
  destruct (String.prefix "0x" id) eqn:E.
  - split; [|split; [reflexivity|discriminate]].
    split; [intros _; now apply prefix_iff|reflexivity].
  - split; [|split; [reflexivity|intros e [= <-]; eexists; reflexivity]].
    split; [discriminate|]. intros Hp. apply prefix_iff in Hp. congruence.
Qed.

Lemma hex_address_needs_only_its_prefix_witness :
  validateWalletAddress twoUsers
    "0x52908400098527886E0F7030069857D2E4169EE7" = Ok tt
  /\ validateWalletAddress twoUsers
       "0xnot-hexadecimal-at-all-but-42-characters" = Ok tt.
Proof.
  split.
  - destruct (hex_address_needs_only_its_prefix
                "0x52908400098527886E0F7030069857D2E4169EE7"
                (or_intror eq_refl) twoUsers) as [[_ H] _].
    apply H. eexists. reflexivity.
  - destruct (hex_address_needs_only_its_prefix
                "0xnot-hexadecimal-at-all-but-42-characters"
                (or_intror eq_refl) twoUsers) as [[_ H] _].
    apply H. eexists. reflexivity.
Defined.

(** X3.  With the NEAR network configured, every local id made of
    lower-case letters, digits, dashes and underscores, followed by the
    suffix of the configuration, is accepted, unless the whole address has
    66 or 42 characters: then it is taken for a hexadecimal address and
    rejected when it does not start with [0x]. *)
Theorem near_address_is_accepted_unless_hex_length :
  forall db nearNetwork local,
    networkFindById db NEAR = Ok nearNetwork ->
    JS.matchesClassPlus nearIdChar local = true ->
    (String.length (local ++ nearSuffix nearNetwork) <> 66 ->
     String.length (local ++ nearSuffix nearNetwork) <> 42 ->
     validateWalletAddress db (local ++ nearSuffix nearNetwork) = Ok tt)
    /\ (String.length (local ++ nearSuffix nearNetwork) = 66
        \/ String.length (local ++ nearSuffix nearNetwork) = 42 ->
        JS.startsWith local "0x" = false ->
        exists msg,
          validateWalletAddress db (local ++ nearSuffix nearNetwork)
          = Throw (UnprocessableEntity msg)
          /\ (msg = "Invalid polkadot address"
              \/ msg = "Invalid ethereum address")).
Proof.
  intros db nearNetwork local Hnet Hlocal. split.
  - intros H66 H42.
    apply (validateWalletAddress_near_accepts db _ nearNetwork H66 H42 Hnet).
    split; [apply append_endsWith|].
    unfold JS.matchesClassPlus in Hlocal. apply andb_true_iff in Hlocal.
    destruct Hlocal as [Hne Hall].
    assert (Hb : beforeFirst (nearSuffix nearNetwork)
                             (local ++ nearSuffix nearNetwork) = local).
    { destruct (nearSuffix_cases nearNetwork) as [-> | ->];
        apply (beforeFirst_append nearIdChar); auto using nearIdChar_dot. }
    rewrite Hb. unfold JS.matchesClassPlus. now rewrite Hne, Hall.
  - intros Hlen Hpre.
    assert (Hp : JS.startsWith (local ++ nearSuffix nearNetwork) "0x" = false).
    { unfold JS.startsWith in *.
      destruct (String.prefix "0x" (local ++ nearSuffix nearNetwork)) eqn:E;
        [|reflexivity].
      exfalso. apply prefix_iff in E. destruct E as [b E].
      destruct local as [|x [|y local]].
      - destruct (nearSuffix_cases nearNetwork) as [H|H]; rewrite H in E;
          discriminate E.
      - destruct (nearSuffix_cases nearNetwork) as [H|H]; rewrite H in E;
          discriminate E.
      - injection E as -> -> E.
        assert (String.prefix "0x" (String "0" (String "x" local)) = true)
          by (apply prefix_iff; now exists local).
        congruence. }
    destruct Hlen as [Hl|Hl].
    + rewrite validateWalletAddress_66, Hp by assumption.
      eexists. split; [reflexivity|now left].
    + rewrite validateWalletAddress_42, Hp by assumption.
      eexists. split; [reflexivity|now right].
Qed.

(** [alice.near] is accepted; an id of 37 characters with [.near] has 42
    characters and is rejected as an ethereum address. *)
Lemma near_address_is_accepted_unless_hex_length_witness :
  validateWalletAddress twoUsers "alice.near" = Ok tt
  /\ exists msg,
      validateWalletAddress twoUsers
        "a-near-account-name-of-37-characters_.near"
      = Throw (UnprocessableEntity msg).
Proof.
  destruct (near_address_is_accepted_unless_hex_length twoUsers
              (mkNetwork "near" "https://rpc.mainnet.near.org") "alice"
              eq_refl eq_refl) as [Hacc _].
  destruct (near_address_is_accepted_unless_hex_length twoUsers
              (mkNetwork "near" "https://rpc.mainnet.near.org")
              "a-near-account-name-of-37-characters_"
              eq_refl eq_refl) as [_ Hrej].
  split.
  - apply Hacc; discriminate.
  - destruct (Hrej (or_intror eq_refl) eq_refl) as (msg & Hrun & _).
    exists msg. exact Hrun.
Defined.

Lemma endsWith_last_char (s a : string) (c : ascii) :
  JS.endsWith s (a ++ String c "") = true ->
  String.get (String.length s - 1) s = Some c.
Proof.
  intros H. apply endsWith_append in H. destruct H as [b ->].
  rewrite <- append_assoc'. apply get_last_append.
Qed.

Lemma near_excludes_testnet (id : string) :
  JS.endsWith id ".near" = true -> JS.endsWith id ".testnet" = false.
Proof.
  intros Hn. destruct (JS.endsWith id ".testnet") eqn:Ht; [|reflexivity].
  pose proof (endsWith_last_char id ".nea" "r" Hn) as H1.
  pose proof (endsWith_last_char id ".testne" "t" Ht) as H2.
  congruence.
Qed.

(** X4.  The suffix asked for follows the configuration: when the second
    dot-separated piece of the NEAR network's RPC URL is [development],
    every address that ends with [.near] is rejected with ['Invalid near
    id'], and with any other URL every address that ends with [.testnet]
    is; without a NEAR network the lookup error is passed on.  (Addresses
    of 66 or 42 characters never get here.) *)
Theorem near_suffix_follows_configuration :
  forall db id,
    String.length id <> 66 -> String.length id <> 42 ->
    (forall nearNetwork,
        networkFindById db NEAR = Ok nearNetwork ->
        (nth_error (JS.split (rpcURL nearNetwork) ".") 1 = Some "development" ->
         JS.endsWith id ".near" = true ->
         validateWalletAddress db id
         = Throw (UnprocessableEntity "Invalid near id"))
        /\ (nth_error (JS.split (rpcURL nearNetwork) ".") 1
            <> Some "development" ->
            JS.endsWith id ".testnet" = true ->
            validateWalletAddress db id
            = Throw (UnprocessableEntity "Invalid near id")))
    /\ (forall e, networkFindById db NEAR = Throw e ->
                  validateWalletAddress db id = Throw e).
Proof.
  intros db id H66 H42. split.
  - intros nearNetwork Hnet.
    rewrite (validateWalletAddress_near db id nearNetwork H66 H42 Hnet).
    split.
    + intros Henv Hend. unfold nearSuffix. rewrite Henv.
      now rewrite (near_excludes_testnet id Hend).
    + intros Henv Hend.
      assert (Hs : nearSuffix nearNetwork = ".near").
      { destruct (nearSuffix_cases nearNetwork) as [H|H]; [|exact H].
        exfalso. apply Henv. unfold nearSuffix in H.
        destruct (nth_error (JS.split (rpcURL nearNetwork) ".") 1) as [e|];
          [|discriminate H].
        destruct (String.eqb e "development") eqn:E.
        - apply String.eqb_eq in E. now subst e.
        - exfalso. apply String.eqb_neq in E.
          assert (forall (A : Type) (x y : A),
                     match e with "development" => x | _ => y end = y) as Hm.
          { intros A x y.
            repeat (match goal with
                    | |- context [match ?s with
                                  | EmptyString => _ | String _ _ => _ end] =>
                        destruct s; try reflexivity
                    | |- context [match ?a with
                                  | Ascii _ _ _ _ _ _ _ _ => _ end] =>
                        destruct a
                    | |- context [if ?b then _ else _] =>
                        destruct b; try reflexivity
                    end).
            now elim E. }
          rewrite Hm in H. discriminate H. }
      rewrite Hs.
      destruct (JS.endsWith id ".near") eqn:En; [|reflexivity].
      apply near_excludes_testnet in En. congruence.
  - intros e Hnet. unfold validateWalletAddress.
    apply Nat.eqb_neq in H66, H42. now rewrite H66, H42, Hnet.
Qed.

(** On mainnet [alice.testnet] is rejected, on the development network
    [alice.near] is. *)
Lemma near_suffix_follows_configuration_witness :
  validateWalletAddress twoUsers "alice.testnet"
  = Throw (UnprocessableEntity "Invalid near id")
  /\ validateWalletAddress (mkDb [] [] testnet) "alice.near"
     = Throw (UnprocessableEntity "Invalid near id")
  /\ validateWalletAddress (mkDb [] [] []) "alice.near"
     = Throw (entityNotFound "Network" "near").
Proof.
  split; [|split].
  - destruct (near_suffix_follows_configuration twoUsers "alice.testnet")
      as [H _]; [discriminate|discriminate|].
    destruct (H (mkNetwork "near" "https://rpc.mainnet.near.org") eq_refl)
      as [_ Hother].
    apply Hother; [discriminate|reflexivity].
  - destruct (near_suffix_follows_configuration (mkDb [] [] testnet)
                "alice.near") as [H _]; [discriminate|discriminate|].
    destruct (H (mkNetwork "near" "https://rpc.development.near.org") eq_refl)
      as [Hdev _].
    apply Hdev; reflexivity.
  - destruct (near_suffix_follows_configuration (mkDb [] [] []) "alice.near")
      as [_ H]; [discriminate|discriminate|].
    apply H. reflexivity.
Defined.

(** ** Signup *)

(** A signup request as it reaches the interceptor: the payload, and no
    second argument yet. *)
Definition signupCtx (uw : UserWallet) : InvocationContext :=
  mkCtx SIGNUP (ArgsUserWallet uw None).

(** The payload with its name cut to 22 characters. *)
Definition truncated (uw : UserWallet) : UserWallet :=
  mkUserWallet (JS.substring (uw_name uw) 0 22) (uw_username uw)
               (uw_address uw) (uw_type uw) (uw_network uw).

(** The wallet prepared for the controller. *)
Definition preparedWallet (uw : UserWallet) : Wallet :=
  mkWallet (uw_address uw) (uw_type uw) (uw_network uw) true None.

Lemma beforeAuthenticate_signup validateAccount uw db :
  beforeAuthenticate validateAccount (signupCtx uw) db
  = rbind (beforeSignup uw db) (fun a => Ok (mkCtx SIGNUP a)).
Proof. reflexivity. Qed.

(** A signup that passes met no wallet with its address, and hands on the
    cut payload and the prepared wallet. *)
Lemma signup_Ok_inv validateAccount uw db ctx :
  beforeAuthenticate validateAccount (signupCtx uw) db = Ok ctx ->
  walletExists db (uw_address uw) = false
  /\ ctx = mkCtx SIGNUP (ArgsUserWallet (truncated uw)
                                        (Some (preparedWallet uw))).
Proof.
  rewrite beforeAuthenticate_signup. unfold beforeSignup.
  destruct (walletExists db (uw_address uw)); [discriminate|].
  destruct (networkExists db (uw_network uw)); simpl; [|discriminate].
  destruct (findUserByUsername db (uw_username uw)); [discriminate|].
  destruct (validateWalletAddress db (uw_address uw)) as [[]|e]; simpl;
    [|discriminate].
  destruct (validateUsername (uw_username uw)) as [[]|e]; simpl;
    [|discriminate].
  intros [= <-]. split; reflexivity.
Qed.

(** X5.  A signup passes the interceptor exactly when the address owns no
    wallet yet, the network is registered, the username is free, and the
    address and the username are well formed; the signature check plays no
    part.  What is handed on is the payload with its name cut to its first
    22 characters (unchanged when it has no more) and a wallet of the
    address, type and network submitted, marked primary and not yet
    owned. *)
Theorem signup_passes_exactly_when_checks_pass :
  forall validateAccount uw db,
    (forall ctx,
        beforeAuthenticate validateAccount (signupCtx uw) db = Ok ctx
        <-> walletExists db (uw_address uw) = false
            /\ networkExists db (uw_network uw) = true
            /\ findUserByUsername db (uw_username uw) = None
            /\ validateWalletAddress db (uw_address uw) = Ok tt
            /\ validateUsername (uw_username uw) = Ok tt
            /\ ctx = mkCtx SIGNUP (ArgsUserWallet (truncated uw)
                                                  (Some (preparedWallet uw))))
    /\ (String.length (uw_name (truncated uw)) <= 22)%nat
    /\ (exists rest, uw_name uw = (uw_name (truncated uw) ++ rest)%string)
    /\ ((String.length (uw_name uw) <= 22)%nat ->
        uw_name (truncated uw) = uw_name uw)
    /\ (forall validateAccount',
           beforeAuthenticate validateAccount' (signupCtx uw) db
           = beforeAuthenticate validateAccount (signupCtx uw) db).
Proof.
  intros validateAccount uw db. split; [|split; [|split; [|split]]].
  - intros ctx. rewrite beforeAuthenticate_signup. unfold beforeSignup.
    destruct (walletExists db (uw_address uw)).
    { split; [discriminate|]. intros (H & _). discriminate. }
    destruct (networkExists db (uw_network uw)); simpl.
    2:{ split; [discriminate|]. intros (_ & H & _). discriminate. }
    destruct (findUserByUsername db (uw_username uw)).
    { split; [discriminate|]. intros (_ & _ & H & _). discriminate. }
    destruct (validateWalletAddress db (uw_address uw)) as [[]|e]; simpl.
    2:{ split; [discriminate|]. intros (_ & _ & _ & H & _). discriminate. }
    destruct (validateUsername (uw_username uw)) as [[]|e]; simpl.
    2:{ split; [discriminate|]. intros (_ & _ & _ & _ & H & _). discriminate. }
    split.
    + intros [= <-]. repeat split.
    + intros (_ & _ & _ & _ & _ & ->). reflexivity.
  - unfold truncated, JS.substring. cbn [uw_name].
    rewrite Nat.sub_0_r, substring_0_length. lia.
  - unfold truncated, JS.substring. cbn [uw_name].
    apply substring_0_prefix.
  - intros H. unfold truncated, JS.substring. cbn [uw_name].
    rewrite Nat.sub_0_r. now apply substring_0_all.
  - reflexivity.
Qed.

Lemma existsb_app_last {A} (f : A -> bool) (l : list A) (x : A) :
  f x = true -> existsb f (l ++ [x]) = true.
Proof.
  intros H. rewrite existsb_app. simpl. rewrite H.
  now rewrite orb_true_r.
Qed.

(** The database once the creation of a wallet may have landed: the
    wallet is added when the creation is among the writes that land and
    no wallet with its id is stored. *)
Lemma settled_create uid wallet schedule db :
  settled [WalletCreate uid wallet] schedule db
  = if lands 0 schedule && negb (walletExists db (wallet_id wallet))
    then mkDb (users db) (wallets db ++ [setUserId wallet uid]) (networks db)
    else db.
Proof.
  revert db. induction schedule as [|i later IH]; intros db; [reflexivity|].
  cbn [settled]. destruct i as [|i].
  - change (lands 0 (0 :: later)) with true. cbn [nth_error land andb].
    destruct (walletExists db (wallet_id wallet)) eqn:E.
    + rewrite IH, E, andb_false_r. reflexivity.
    + rewrite IH.
      assert (walletExists
                (mkDb (users db) (wallets db ++ [setUserId wallet uid])
                      (networks db)) (wallet_id wallet) = true) as ->.
      { unfold walletExists. cbn [wallets]. apply existsb_app_last.
        cbn. apply String.eqb_refl. }
      rewrite andb_false_r. reflexivity.
  - change (lands 0 (S i :: later)) with (lands 0 later).
    assert (nth_error [WalletCreate uid wallet] (S i) = None) as ->
      by now destruct i.
    apply IH.
Qed.

(** X6.  When a signup has gone through, the interceptor has stored
    nothing yet: the creation of the prepared wallet under the user the
    controller created is started and not awaited.  Once it has landed,
    the address is taken: the stored wallet is the one prepared, owned by
    that user, and every later signup with that address is rejected with
    ['Wallet address already exists'], whatever name, username, type or
    network it carries. *)
Theorem second_signup_with_address_is_rejected :
  forall validateAccount next newNonce uw db resp db1 started,
    (forall ctx d, wallets (snd (next ctx d)) = wallets d) ->
    intercept validateAccount next newNonce (signupCtx uw) db
    = (Ok resp, db1, started) ->
    exists result,
      next (mkCtx SIGNUP (ArgsUserWallet (truncated uw)
                                         (Some (preparedWallet uw)))) db
      = (Ok result, db1)
      /\ started = [WalletCreate (result_id result) (preparedWallet uw)]
      /\ wallets db1 = wallets db
      /\ forall schedule,
          In 0 schedule ->
          wallets (settled started schedule db1)
          = wallets db ++ [mkWallet (uw_address uw) (uw_type uw)
                                    (uw_network uw) true
                                    (Some (result_id result))]
          /\ forall validateAccount' uw',
              uw_address uw' = uw_address uw ->
              beforeAuthenticate validateAccount' (signupCtx uw')
                                 (settled started schedule db1)
              = Throw (UnprocessableEntity "Wallet address already exists").
Proof.
  intros validateAccount next newNonce uw db resp db1 started Hnext Hrun.
  unfold intercept in Hrun.
  destruct (beforeAuthenticate validateAccount (signupCtx uw) db)
    as [ctx|e] eqn:Hb; [|discriminate].
  destruct (signup_Ok_inv _ _ _ _ Hb) as [Hfree ->].
  destruct (next _ db) as [[result|e] d] eqn:Hn; [|discriminate].
  assert (Hw : wallets d = wallets db).
  { rewrite <- (Hnext (mkCtx SIGNUP (ArgsUserWallet (truncated uw)
                                       (Some (preparedWallet uw)))) db).
    now rewrite Hn. }
  cbn in Hrun. injection Hrun as _ <- <-.
  exists result. split; [reflexivity|]. split; [reflexivity|].
  split; [exact Hw|].
  intros schedule H0. apply lands_In in H0.
  assert (Hfree' : walletExists d (uw_address uw) = false)
    by (unfold walletExists in *; now rewrite Hw).
  assert (Hs : wallets (settled [WalletCreate (result_id result)
                                              (preparedWallet uw)] schedule d)
               = wallets db ++ [mkWallet (uw_address uw) (uw_type uw)
                                         (uw_network uw) true
                                         (Some (result_id result))]).
  { rewrite settled_create, H0. cbn [preparedWallet wallet_id].
    rewrite Hfree'. cbn [andb negb wallets]. now rewrite Hw. }
  split; [exact Hs|].
  intros validateAccount' uw' Haddr.
  rewrite beforeAuthenticate_signup. unfold beforeSignup, walletExists.
  rewrite Hs, Haddr, existsb_app_last; [reflexivity|].
  cbn. apply String.eqb_refl.
Qed.

(** A controller that stores the new user and answers with it. *)
Definition createUser : InvocationContext -> Db -> Result InvocationResult * Db :=
  fun ctx db =>
    match args ctx with
    | ArgsUserWallet uw _ =>
        (Ok (mkResult (uw_username uw) (Some 42%Z)),
         mkDb (users db ++ [mkUser (uw_username uw) (uw_name uw)
                                   (uw_username uw) 42 [USER]])
              (wallets db) (networks db))
    | ArgsCredential _ => (Throw (Error "not a signup"), db)
    end.

Definition carol : UserWallet :=
  mkUserWallet "Carol of the very long display name" "carol_9"
               "0x52908400098527886E0F7030069857D2E4169EE7" "ethereum" "myriad".

(** The database after carol's signup, when [intercept] returns. *)
Definition carolCreated : Db :=
  snd (createUser (mkCtx SIGNUP (ArgsUserWallet (truncated carol)
                                   (Some (preparedWallet carol))))
                  twoUsers).

(** Carol signs up; once her wallet is stored it belongs to the user the
    controller created, and mallory's signup with her address is
    rejected. *)
Lemma second_signup_with_address_is_rejected_witness :
  wallets (settled [WalletCreate "carol_9" (preparedWallet carol)] [0]
                   carolCreated)
  = wallets twoUsers
    ++ [mkWallet "0x52908400098527886E0F7030069857D2E4169EE7" "ethereum"
                 "myriad" true (Some "carol_9")]
  /\ beforeAuthenticate accepting
       (signupCtx (mkUserWallet "Mallory" "mallory"
                     "0x52908400098527886E0F7030069857D2E4169EE7" "ethereum"
                     "myriad"))
       (settled [WalletCreate "carol_9" (preparedWallet carol)] [0]
                carolCreated)
     = Throw (UnprocessableEntity "Wallet address already exists").
Proof.
  destruct (second_signup_with_address_is_rejected accepting createUser 1%Z
              carol twoUsers (NonceOnly 42) carolCreated
              [WalletCreate "carol_9" (preparedWallet carol)])
    as (result & Hnext & Hstarted & _ & H).
  - intros ctx d. unfold createUser. destruct (args ctx); reflexivity.
  - reflexivity.
  - injection Hnext as <-.
    destruct (H [0] ltac:(now left)) as [Hw Hlater].
    split; [exact Hw|]. apply Hlater. reflexivity.
Defined.

(** X7.  Storing the wallet of a new user keeps the primary-wallet
    invariant, in whatever state of the database the creation lands: when
    the user the controller created owns no wallet yet and the address is
    free, that user ends with exactly one primary wallet, the prepared
    one; when the address has been taken in the meantime the creation is
    rejected and dropped, as when it does not land, and the database
    stays as it is; every other user's primary wallets are what they
    were. *)
Theorem signup_keeps_one_primary_wallet :
  forall validateAccount uw db0 ctx result newNonce started db schedule,
    beforeAuthenticate validateAccount (signupCtx uw) db0 = Ok ctx ->
    afterAuthenticate ctx result newNonce = Ok started ->
    (forall w, In w (wallets db) -> wallet_userId w <> Some (result_id result)) ->
    started = [WalletCreate (result_id result) (preparedWallet uw)]
    /\ (In 0 schedule -> walletExists db (uw_address uw) = false ->
     primaryWalletsOf (settled started schedule db) (result_id result)
     = [mkWallet (uw_address uw) (uw_type uw) (uw_network uw) true
                 (Some (result_id result))])
    /\ (~ In 0 schedule \/ walletExists db (uw_address uw) = true ->
        settled started schedule db = db)
    /\ (forall uid, uid <> result_id result ->
                    primaryWalletsOf (settled started schedule db) uid
                    = primaryWalletsOf db uid)
    /\ (atMostOnePrimary db -> atMostOnePrimary (settled started schedule db)).
Proof.
  intros validateAccount uw db0 ctx result newNonce started db schedule
         Hb Ha Hfresh.
  destruct (signup_Ok_inv _ _ _ _ Hb) as [_ ->].
  cbn in Ha. injection Ha as <-.
  rewrite settled_create. cbn [preparedWallet wallet_id].
  assert (Hown : primaryWalletsOf db (result_id result) = []).
  { unfold primaryWalletsOf. apply filter_none. apply Forall_forall.
    intros w Hin. specialize (Hfresh w Hin). unfold whereUserId.
    destruct (wallet_userId w) as [uid|]; [|apply andb_false_r].
    destruct (String.eqb uid (result_id result)) eqn:E;
      [|apply andb_false_r].
    apply String.eqb_eq in E. subst uid. now elim Hfresh. }
  assert (Hnew : forall uid,
             primaryWalletsOf
               (mkDb (users db)
                     (wallets db ++ [setUserId (preparedWallet uw)
                                               (result_id result)])
                     (networks db)) uid
             = primaryWalletsOf db uid
               ++ (if String.eqb (result_id result) uid
                   then [setUserId (preparedWallet uw) (result_id result)]
                   else [])).
  { intros uid. unfold primaryWalletsOf. cbn [wallets].
    rewrite filter_app. reflexivity. }
  fold (preparedWallet uw).
  split; [reflexivity|]. split; [|split; [|split]].
  - intros H0 Hfree. apply lands_In in H0. rewrite H0, Hfree. cbn [andb negb].
    rewrite Hnew, Hown, String.eqb_refl. reflexivity.
  - intros [H0|Htaken].
    + apply lands_not_In in H0. now rewrite H0.
    + rewrite Htaken, andb_false_r. reflexivity.
  - intros uid Hne.
    destruct (lands 0 schedule && negb (walletExists db (uw_address uw)));
      [|reflexivity].
    rewrite Hnew.
    assert (String.eqb (result_id result) uid = false) as ->
      by (apply String.eqb_neq; congruence).
    apply app_nil_r.
  - intros Hinv.
    destruct (lands 0 schedule && negb (walletExists db (uw_address uw)));
      [|exact Hinv].
    intros uid. rewrite Hnew.
    destruct (String.eqb (result_id result) uid) eqn:E.
    + apply String.eqb_eq in E. subst uid. rewrite Hown. simpl. lia.
    + rewrite app_nil_r. apply Hinv.
Qed.

(** Carol's wallet lands in the database her signup left, and again
    after it is stored: the first creation adds her one primary wallet,
    the second is rejected, and each user has at most one primary wallet
    throughout. *)
Lemma signup_keeps_one_primary_wallet_witness :
  primaryWalletsOf
    (settled [WalletCreate "carol_9" (preparedWallet carol)] [0] carolCreated)
    "carol_9"
  = [mkWallet "0x52908400098527886E0F7030069857D2E4169EE7" "ethereum"
              "myriad" true (Some "carol_9")]
  /\ atMostOnePrimary
       (settled [WalletCreate "carol_9" (preparedWallet carol)] [0; 0]
                carolCreated).
Proof.
  assert (Hfresh : forall w, In w (wallets carolCreated) ->
                             wallet_userId w <> Some "carol_9").
  { intros w Hin. cbn in Hin.
    repeat (destruct Hin as [<-|Hin]; [discriminate|]). contradiction. }
  split.
  - destruct (signup_keeps_one_primary_wallet accepting carol twoUsers
                (mkCtx SIGNUP (ArgsUserWallet (truncated carol)
                                              (Some (preparedWallet carol))))
                (mkResult "carol_9" (Some 42%Z)) 1%Z
                [WalletCreate "carol_9" (preparedWallet carol)]
                carolCreated [0] eq_refl eq_refl Hfresh)
      as (_ & H & _ & _ & _).
    apply H; [now left|reflexivity].
  - destruct (signup_keeps_one_primary_wallet accepting carol twoUsers
                (mkCtx SIGNUP (ArgsUserWallet (truncated carol)
                                              (Some (preparedWallet carol))))
                (mkResult "carol_9" (Some 42%Z)) 1%Z
                [WalletCreate "carol_9" (preparedWallet carol)]
                carolCreated [0; 0] eq_refl eq_refl Hfresh)
      as (_ & _ & _ & _ & H).
    apply H. apply atMostOnePrimaryb_spec. reflexivity.
Defined.

(** ** Login *)

(** The permission a login method asks for. *)
Definition requiredPermission (m : MethodType) : PermissionKeys :=
  if MethodType_eqb m ADMINLOGIN then ADMIN else USER.

(** The identity attached to the request. *)
Definition profileOf (u : User) : UserProfile :=
  mkUserProfile (user_id u) (user_name u) (user_username u)
                (user_permissions u).

(** The credential as it is handed on: the address cut at the slash, the
    owner's identity attached. *)
Definition authenticated (c : Credential) (u : User) : Credential :=
  setData (setPublicAddress c (primaryAddress c)) (profileOf u).

Lemma checkPermission_required (m : MethodType) (perms : list PermissionKeys) :
  checkPermission m perms
  = if existsb (PermissionKeys_eqb (requiredPermission m)) perms
    then Ok tt
    else Throw (Forbidden (if MethodType_eqb m ADMINLOGIN
                           then "Invalid admin" else "Invalid user")).
Proof.
  unfold requiredPermission. destruct (MethodType_eqb m ADMINLOGIN) eqn:E.
  - assert (m = ADMINLOGIN) as ->
      by (destruct m; try discriminate E; reflexivity).
    apply checkPermission_admin.
  - apply checkPermission_user. intros ->. discriminate.
Qed.

(** [verifyLogin] past the check that a nonce was submitted. *)
Lemma verifyLogin_with_nonce validateAccount m c db n :
  nonce c = Some n -> n <> 0%Z ->
  verifyLogin validateAccount m c db
  = if negb (networkExists db (networkType c))
    then Throw (UnprocessableEntity "Network not exists")
    else match findWalletWithUser db (orElse (nearAccount c) (primaryAddress c))
                                  (walletType c) with
         | Some (_, Some user) =>
             if negb (Z.eqb (user_nonce user) n)
             then Throw (Error "Invalid nonce!")
             else if negb (validateAccount
                             (setPublicAddress c (primaryAddress c)))
             then Throw (Error "Failed to verified!")
             else rbind (checkPermission m (user_permissions user))
                    (fun _ => Ok (authenticated c user))
         | _ => Throw (Error "Wallet address not exists!")
         end.
Proof.
  intros Hn Hnz. unfold verifyLogin. rewrite Hn.
  destruct n; [now elim Hnz| |]; reflexivity.
Qed.

(** X8.  A login (admin or not) passes the interceptor exactly when a
    non-zero nonce is submitted, the network is registered, the wallet
    looked up by the part after the slash of the address (or by the whole
    address when there is no slash) and by the wallet type has an owner,
    the owner's stored nonce is the submitted one, the signature check
    accepts the credential with its address cut at the slash, and the
    owner holds the permission the method asks for.  The credential handed
    on carries that cut address and the owner's identity. *)
Theorem login_passes_exactly_when_checks_pass :
  forall validateAccount m c db,
    m <> SIGNUP ->
    forall ctx,
      beforeAuthenticate validateAccount (loginCtx m c) db = Ok ctx
      <-> exists n w u,
          nonce c = Some n /\ n <> 0%Z /\ resolves db c w u
          /\ user_nonce u = n
          /\ validateAccount (setPublicAddress c (primaryAddress c)) = true
          /\ In (requiredPermission m) (user_permissions u)
          /\ ctx = loginCtx m (authenticated c u).
Proof.
  intros validateAccount m c db Hm ctx.
  rewrite beforeAuthenticate_login by assumption. split.
  - intros H.
    destruct (nonce c) as [n|] eqn:Hn;
      [|unfold verifyLogin in H; rewrite Hn in H; discriminate].
    destruct (Z.eq_dec n 0) as [->|Hnz];
      [unfold verifyLogin in H; rewrite Hn in H; discriminate|].
    rewrite (verifyLogin_with_nonce _ _ _ _ _ Hn Hnz) in H.
    destruct (networkExists db (networkType c)) eqn:Enet; [|discriminate].
    simpl in H.
    destruct (findWalletWithUser db _ _) as [[w [u|]]|] eqn:Ew;
      try discriminate.
    destruct (Z.eqb (user_nonce u) n) eqn:Ez; [|discriminate]. simpl in H.
    destruct (validateAccount _) eqn:Ev; [|discriminate]. simpl in H.
    rewrite checkPermission_required in H.
    destruct (existsb _ (user_permissions u)) eqn:Ep; [|discriminate].
    simpl in H. injection H as <-.
    exists n, w, u. apply Z.eqb_eq in Ez. apply existsb_eqb_In in Ep.
    split; [first [assumption|reflexivity]|].
    split; [exact Hnz|].
    split; [split; first [assumption|reflexivity]|].
    split; [first [assumption|reflexivity]|].
    split; [first [assumption|reflexivity]|].
    split; [exact Ep|reflexivity].
  - intros (n & w & u & Hn & Hnz & [Hnet Hw] & Hu & Hv & Hp & ->).
    rewrite (verifyLogin_with_nonce _ _ _ _ _ Hn Hnz), Hnet. simpl.
    rewrite Hw, Hu, Z.eqb_refl, Hv. simpl.
    rewrite checkPermission_required.
    apply existsb_eqb_In in Hp. rewrite Hp. reflexivity.
Qed.

Lemma login_passes_exactly_when_checks_pass_witness :
  beforeAuthenticate accepting (loginCtx LOGIN bobLogin) twoUsers
  = Ok (loginCtx LOGIN
          (mkCredential "0xb0b" (Some 7%Z) "signed" "near" "near"
                        (Some (mkUserProfile "bob" "Bob" "bob_2" [USER])))).
Proof.
  apply (login_passes_exactly_when_checks_pass accepting LOGIN bobLogin
           twoUsers ltac:(discriminate)).
  exists 7%Z, bobNear, bob.
  split; [reflexivity|]. split; [discriminate|].
  split; [split; reflexivity|]. split; [reflexivity|].
  split; [reflexivity|]. split; [now left|reflexivity].
Defined.

(** The errors of a login whose argument is a credential. *)
Lemma login_error_messages validateAccount m c db e :
  m <> SIGNUP ->
  beforeAuthenticate validateAccount (loginCtx m c) db = Throw e ->
  exists msg,
    e = Unauthorized msg
    /\ (msg = "Invalid nonce!" \/ msg = "Network not exists"
        \/ msg = "Wallet address not exists!"
        \/ msg = "Failed to verified!"
        \/ (m = ADMINLOGIN /\ msg = "Invalid admin")
        \/ (m <> ADMINLOGIN /\ msg = "Invalid user")).
Proof.
  intros Hm.
  rewrite beforeAuthenticate_login by assumption.
  destruct (nonce c) as [n|] eqn:Hn.
  2:{ assert (verifyLogin validateAccount m c db
              = Throw (Error "Invalid nonce!")) as ->
        by (unfold verifyLogin; now rewrite Hn).
      intros [= <-]. eexists. split; [reflexivity|now left]. }
  destruct (Z.eq_dec n 0) as [->|Hnz].
  { assert (verifyLogin validateAccount m c db
            = Throw (Error "Invalid nonce!")) as ->
      by (unfold verifyLogin; now rewrite Hn).
    intros [= <-]. eexists. split; [reflexivity|now left]. }
  rewrite (verifyLogin_with_nonce _ _ _ _ _ Hn Hnz).
  destruct (networkExists db (networkType c)); simpl.
  2:{ intros [= <-]. eexists. split; [reflexivity|]. right. now left. }
  destruct (findWalletWithUser db _ _) as [[w [u|]]|].
  2,3: intros [= <-]; eexists; (split; [reflexivity|]);
       right; right; now left.
  destruct (Z.eqb (user_nonce u) n); simpl.
  2:{ intros [= <-]. eexists. split; [reflexivity|]. now left. }
  destruct (validateAccount _); simpl.
  2:{ intros [= <-]. eexists. split; [reflexivity|].
      right. right. right. now left. }
  rewrite checkPermission_required.
  destruct (existsb _ (user_permissions u)); simpl; [discriminate|].
  intros [= <-]. eexists. split; [reflexivity|].
  do 4 right. destruct (MethodType_eqb m ADMINLOGIN) eqn:E.
  - left. split; [destruct m; try discriminate E; reflexivity|reflexivity].
  - right. split; [intros ->; discriminate|reflexivity].
Qed.

(** X9.  Whatever the login branch throws leaves [beforeAuthenticate] as
    an [Unauthorized] error carrying the message of what was thrown,
    whatever the shape of the argument.  When the argument is a
    credential, what was thrown is the error of the checks of the [try]
    block, and its message is one of six: ['Invalid nonce!'], ['Network
    not exists'], ['Wallet address not exists!'], ['Failed to verified!'],
    and ['Invalid admin'] on the admin method or ['Invalid user'] on the
    other: the [UnprocessableEntity] of the network check and the
    [Forbidden] of the permission check do not reach the caller as
    such. *)
Theorem login_errors_are_unauthorized :
  forall validateAccount ctx db e,
    methodName ctx <> SIGNUP ->
    beforeAuthenticate validateAccount ctx db = Throw e ->
    exists msg,
      e = Unauthorized msg
      /\ forall c,
          args ctx = ArgsCredential c ->
          (exists thrown,
              verifyLogin validateAccount (methodName ctx) c db = Throw thrown
              /\ msg = message thrown)
          /\ (msg = "Invalid nonce!" \/ msg = "Network not exists"
              \/ msg = "Wallet address not exists!"
              \/ msg = "Failed to verified!"
              \/ (methodName ctx = ADMINLOGIN /\ msg = "Invalid admin")
              \/ (methodName ctx <> ADMINLOGIN /\ msg = "Invalid user")).
Proof.
  intros validateAccount [m a] db e Hm H. cbn [methodName args] in *.
  destruct a as [uw wallet|c].
  - destruct m; [now elim Hm| |]; cbn in H; injection H as <-;
      (eexists; split; [reflexivity|discriminate]).
  - destruct (login_error_messages validateAccount m c db e Hm H)
      as (msg & He & Hmsg).
    exists msg. split; [exact He|]. intros c' [= <-]. split; [|exact Hmsg].
    fold (loginCtx m c) in H.
    rewrite beforeAuthenticate_login in H by assumption.
    destruct (verifyLogin validateAccount m c db) as [c'|thrown];
      [discriminate|].
    exists thrown. split; [reflexivity|].
    cbn in H. subst e. now injection H.
Qed.

(** A wrong signature on the admin method, and an admin login whose
    argument is not a credential. *)
Lemma login_errors_are_unauthorized_witness :
  beforeAuthenticate (fun _ => false) (loginCtx ADMINLOGIN aliceAdminLogin)
                     twoUsers
  = Throw (Unauthorized "Failed to verified!")
  /\ exists msg,
      beforeAuthenticate accepting
        (mkCtx ADMINLOGIN (ArgsUserWallet carol None)) twoUsers
      = Throw (Unauthorized msg).
Proof.
  split; [reflexivity|].
  destruct (login_errors_are_unauthorized accepting
              (mkCtx ADMINLOGIN (ArgsUserWallet carol None)) twoUsers
              (Unauthorized "Cannot read properties of undefined")
              ltac:(discriminate) eq_refl) as (msg & He & _).
  exists msg. rewrite <- He. reflexivity.
Defined.

(** ** The writes after a login *)

(** The primary wallets of a user, given each wallet's flag. *)
Lemma primaryWalletsOf_settled id wt newNonce schedule db uid :
  primaryWalletsOf (settled (loginWrites id wt newNonce) schedule db) uid
  = map (fun w => setPrimary true w)
        (filter (fun w => wallet_primary
                            (settledWallet (loginWrites id wt newNonce)
                                           schedule w)
                          && whereUserId uid w)
                (wallets db)).
Proof.
  unfold primaryWalletsOf.
  rewrite wallets_settled by apply loginWrites_are_updates.
  induction (wallets db) as [|w ws IH]; [reflexivity|].
  cbn [map filter].
  pose proof (settledWallet_same (loginWrites id wt newNonce) schedule w) as Hs.
  rewrite (whereUserId_same uid _ _ Hs).
  destruct (wallet_primary (settledWallet _ schedule w)) eqn:Ep;
    cbn [andb]; [|exact IH].
  destruct (whereUserId uid w); [|exact IH].
  cbn [map]. rewrite IH. f_equal.
  rewrite (sameButPrimary_eq _ _ Hs), Ep. reflexivity.
Qed.

(** The users once the writes of a login may have landed. *)
Lemma users_settled_cases id wt newNonce schedule db :
  (In 0 schedule
   /\ users (settled (loginWrites id wt newNonce) schedule db)
      = updateUserNonce id newNonce (users db))
  \/ (~ In 0 schedule
      /\ users (settled (loginWrites id wt newNonce) schedule db) = users db).
Proof.
  rewrite users_settled_login. destruct (lands 0 schedule) eqn:E.
  - left. split; [now apply lands_In|reflexivity].
  - right. split; [now apply lands_not_In|reflexivity].
Qed.

(** X10.  The primary wallets a login leaves its user depend on the order
    in which its two wallet updates land, which the source does not fix.
    When the demotion of the user's wallets lands and the promotion of
    the wallets of the submitted type lands after it, the user's primary
    wallets are exactly the user's wallets of that type.  When the
    promotion lands and the demotion after it, the user is left without
    any primary wallet. *)
Theorem login_primary_wallets_follow_landing_order :
  forall db id wt newNonce before later,
    (~ In 1 later -> In 2 later ->
     primaryWalletsOf
       (settled (loginWrites id wt newNonce) (before ++ 1 :: later) db) id
     = map (setPrimary true)
           (filter (fun w => whereUserId id w && whereType wt w) (wallets db)))
    /\ (~ In 2 later -> In 1 later ->
        primaryWalletsOf
          (settled (loginWrites id wt newNonce) (before ++ 2 :: later) db) id
        = []).
Proof.
  intros db id wt newNonce before later. split.
  - intros H1 H2. apply lands_not_In in H1. apply lands_In in H2.
    rewrite primaryWalletsOf_settled. f_equal.
    apply filter_ext. intros w.
    destruct (whereUserId id w) eqn:Eu; [|now rewrite andb_false_r].
    rewrite andb_true_r.
    change (before ++ 1 :: later) with (before ++ [1] ++ later).
    rewrite !settledWallet_app.
    set (w0 := settledWallet (loginWrites id wt newNonce) before w).
    assert (Hs0 : sameButPrimary w w0) by apply settledWallet_same.
    rewrite primary_unless_demoted by (rewrite H1; reflexivity).
    rewrite H2. cbn [settledWallet nth_error loginWrites landOnWallet matches].
    rewrite (whereUserId_same id _ _ Hs0), Eu.
    cbn [setPrimary wallet_primary orb andb].
    unfold whereType. cbn [setPrimary wallet_type].
    destruct Hs0 as (_ & -> & _). reflexivity.
  - intros H2 H1. apply lands_not_In in H2. apply lands_In in H1.
    rewrite primaryWalletsOf_settled.
    replace (filter _ (wallets db)) with (@nil Wallet); [reflexivity|].
    symmetry. apply filter_none. apply Forall_forall. intros w _.
    destruct (whereUserId id w) eqn:Eu; [|apply andb_false_r].
    rewrite andb_true_r.
    change (before ++ 2 :: later) with (before ++ [2] ++ later).
    rewrite !settledWallet_app.
    set (w0 := settledWallet (loginWrites id wt newNonce) before w).
    assert (Hs0 : sameButPrimary w w0) by apply settledWallet_same.
    set (w1 := settledWallet (loginWrites id wt newNonce) [2] w0).
    assert (Hs1 : sameButPrimary w0 w1) by apply settledWallet_same.
    rewrite primary_unless_promoted by (rewrite H2; reflexivity).
    rewrite H1, (whereUserId_same id _ _ Hs1), (whereUserId_same id _ _ Hs0), Eu.
    apply andb_false_r.
Qed.

(** Bob logs in with his NEAR wallet.  With the demotion landing first
    his NEAR wallet is primary afterwards; with the promotion landing
    first he has no primary wallet left. *)
Lemma login_primary_wallets_follow_landing_order_witness :
  primaryWalletsOf (settled (loginWrites "bob" "near" 8) [0; 1; 2] twoUsers)
                   "bob" = [bobNear]
  /\ primaryWalletsOf (settled (loginWrites "bob" "near" 8) [0; 2; 1] twoUsers)
                      "bob" = [].
Proof.
  destruct (login_primary_wallets_follow_landing_order twoUsers "bob" "near"
              8%Z [0] [2]) as [Hfirst _].
  destruct (login_primary_wallets_follow_landing_order twoUsers "bob" "near"
              8%Z [0] [1]) as [_ Hsecond].
  split.
  - apply Hfirst; [|now left]. intros [H|[]]. discriminate H.
  - apply Hsecond; [|now left]. intros [H|[]]. discriminate H.
Defined.

(** X11.  The writes after a login change flags and one nonce, nothing
    else, whichever of them land and in whichever order: no wallet is
    added, removed, renamed, retyped or handed to another owner, no
    network is touched, no user is added or removed or gets other
    permissions; once the nonce write has landed every user with the id
    of the login has the new nonce, until then the users are as stored,
    and every other user is left as stored throughout. *)
Theorem login_rotation_changes_flags_and_nonce_only :
  forall db id wt newNonce schedule,
    let db' := settled (loginWrites id wt newNonce) schedule db in
    map wallet_id (wallets db') = map wallet_id (wallets db)
    /\ map wallet_type (wallets db') = map wallet_type (wallets db)
    /\ map wallet_network (wallets db') = map wallet_network (wallets db)
    /\ map wallet_userId (wallets db') = map wallet_userId (wallets db)
    /\ networks db' = networks db
    /\ map user_id (users db') = map user_id (users db)
    /\ map user_permissions (users db') = map user_permissions (users db)
    /\ (In 0 schedule ->
        forall u, In u (users db') -> user_id u = id -> user_nonce u = newNonce)
    /\ (~ In 0 schedule -> users db' = users db)
    /\ (forall u, user_id u <> id -> (In u (users db') <-> In u (users db))).
Proof.
  intros db id wt newNonce schedule db'. unfold db'.
  rewrite wallets_settled by apply loginWrites_are_updates.
  rewrite !map_map, networks_settled.
  assert (Hw : forall w,
             sameButPrimary w (settledWallet (loginWrites id wt newNonce)
                                             schedule w))
    by (intros w; apply settledWallet_same).
  split; [apply map_ext; intros w; apply Hw|].
  split; [apply map_ext; intros w; apply Hw|].
  split; [apply map_ext; intros w; apply Hw|].
  split; [apply map_ext; intros w; apply Hw|].
  split; [reflexivity|].
  assert (Hid : map user_id (updateUserNonce id newNonce (users db))
                = map user_id (users db)).
  { unfold updateUserNonce. rewrite map_map. apply map_ext. intros u.
    destruct (String.eqb (user_id u) id); reflexivity. }
  assert (Hperm : map user_permissions (updateUserNonce id newNonce (users db))
                  = map user_permissions (users db)).
  { unfold updateUserNonce. rewrite map_map. apply map_ext. intros u.
    destruct (String.eqb (user_id u) id); reflexivity. }
  assert (Hother : forall u,
             user_id u <> id ->
             In u (updateUserNonce id newNonce (users db)) <-> In u (users db)).
  { intros u Hne. unfold updateUserNonce. rewrite in_map_iff. split.
    - intros (u0 & <- & Hin).
      destruct (String.eqb (user_id u0) id) eqn:E; [|exact Hin].
      apply String.eqb_eq in E. simpl in Hne. contradiction.
    - intros Hin. exists u. split; [|exact Hin].
      apply String.eqb_neq in Hne. now rewrite Hne. }
  destruct (users_settled_cases id wt newNonce schedule db)
    as [[H0 ->]|[H0 ->]].
  - split; [exact Hid|]. split; [exact Hperm|]. split; [|split].
    + intros _ u Hin Hu. unfold updateUserNonce in Hin.
      apply in_map_iff in Hin. destruct Hin as (u0 & <- & _).
      destruct (String.eqb (user_id u0) id) eqn:E; [reflexivity|].
      apply String.eqb_neq in E. contradiction.
    + intros Hn. contradiction.
    + exact Hother.
  - split; [reflexivity|]. split; [reflexivity|]. split; [|split].
    + intros Hn. contradiction.
    + reflexivity.
    + intros u _. reflexivity.
Qed.

End SignupAndLogin.

(* ================================================================== *)
(** * Linking, verifying and sweeping: further properties *)

Section LinkingAndSweeping.

Import UserCredentialController.
Local Open Scope m_scope.

(** ** Linking *)

(** The persona [createCredential] finds for a descriptor. *)
Definition knownPersona (w : World) (user : User) : option People :=
  find (fun p => String.eqb (people_platform_account_id p) (id user)
                 && String.eqb (people_platform p) (platform user))
       (people w).

(** The persona a descriptor is stored as. *)
Definition personaRecord (pid : ObjectId) (user : User) : People :=
  mkPeople pid (username user) (id user) (platform user)
           (profile_image_url user).

(** The world after a link that went through: the known persona gets one
    more credential, an unknown one is stored first. *)
Definition linkedTo (user : User) (publicKey : string) (w : World) : World :=
  match knownPersona w user with
  | Some foundPeople =>
      mkWorld (people w)
              (credentials w
               ++ [mkUserCredential (nextId w) publicKey
                                    (people_id foundPeople) true])
              (posts w) (S (nextId w)) (chainLog w)
  | None =>
      mkWorld (people w ++ [personaRecord (nextId w) user])
              (credentials w
               ++ [mkUserCredential (S (nextId w)) publicKey (nextId w) true])
              (posts w) (S (S (nextId w))) (chainLog w)
  end.

(** The persona a link points to. *)
Definition linkedPersona (user : User) (w : World) : People :=
  match knownPersona w user with
  | Some foundPeople => foundPeople
  | None => personaRecord (nextId w) user
  end.

Lemma knownPersona_spec w user p :
  knownPersona w user = Some p ->
  In p (people w)
  /\ people_platform_account_id p = id user
  /\ people_platform p = platform user.
Proof.
  intros H. apply find_some in H. destruct H as [Hin Hp].
  apply andb_true_iff in Hp. destruct Hp as [Ha Hpl].
  apply String.eqb_eq in Ha, Hpl. auto.
Qed.

(** With distinct people ids, [createCredential] has two outcomes: the
    guard, or a new credential. *)
Lemma createCredential_wellFormed user publicKey w :
  wellFormed w ->
  createCredential user publicKey w
  = if hasPersonaOnPlatform w user publicKey
    then (Throw (PlatformAlreadyClaimed user), w)
    else (Ok tt, linkedTo user publicKey w).
Proof.
  intros [Hnd _]. rewrite createCredential_run.
  destruct (hasPersonaOnPlatform w user publicKey) eqn:Hguard; [reflexivity|].
  unfold linkedTo, knownPersona.
  destruct (find _ (people w)) as [fp|] eqn:Efp; [|reflexivity].
  destruct (find _ (filter _ (credentials w))) as [fc|] eqn:Efc;
    [|reflexivity].
  exfalso. apply find_some in Efp. destruct Efp as [Hin Hfp].
  apply andb_true_iff in Hfp. destruct Hfp as [_ Hplat].
  apply find_some in Efc. destruct Efc as [Hfc Hpid].
  apply Nat.eqb_eq in Hpid.
  assert (hasPersonaOnPlatform w user publicKey = true); [|congruence].
  unfold hasPersonaOnPlatform. apply existsb_exists. exists fc.
  split; [assumption|]. unfold claimsPlatform.
  now rewrite Hpid, (find_by_id_unique _ _ Hnd Hin).
Qed.

Lemma linkedPersona_found user publicKey w :
  wellFormed w ->
  find (fun p => Nat.eqb (people_id p) (people_id (linkedPersona user w)))
       (people (linkedTo user publicKey w))
  = Some (linkedPersona user w)
  /\ people_platform (linkedPersona user w) = platform user
  /\ people_platform_account_id (linkedPersona user w) = id user.
Proof.
  intros [Hnd Hlt]. unfold linkedPersona, linkedTo.
  destruct (knownPersona w user) as [fp|] eqn:E.
  - destruct (knownPersona_spec _ _ _ E) as (Hin & Ha & Hp).
    cbn [people]. split; [|split; assumption].
    now apply find_by_id_unique.
  - cbn [people]. split; [|split; reflexivity].
    apply find_fresh_id. exact Hlt.
Qed.

Lemma linkedTo_wellFormed user publicKey w :
  wellFormed w -> wellFormed (linkedTo user publicKey w).
Proof.
  intros [Hnd Hlt]. unfold linkedTo.
  destruct (knownPersona w user) as [fp|]; unfold wellFormed;
    cbn [people nextId].
  - split; [assumption|].
    eapply Forall_impl; [|exact Hlt]. intros p Hp. simpl in Hp. lia.
  - split.
    + rewrite map_app. cbn [map personaRecord people_id].
      apply NoDup_app; [assumption|repeat constructor; intros []|].
      intros x Hx Hin. apply in_map_iff in Hx. destruct Hx as (p & <- & Hp).
      rewrite Forall_forall in Hlt. specialize (Hlt p Hp).
      destruct Hin as [Hin|[]]. lia.
    + apply Forall_app. split.
      * eapply Forall_impl; [|exact Hlt]. intros p Hp. simpl in Hp. lia.
      * repeat constructor.
Qed.

Lemma hasPersonaOnPlatform_platform w user other publicKey :
  platform other = platform user ->
  hasPersonaOnPlatform w other publicKey = hasPersonaOnPlatform w user publicKey.
Proof. intros H. unfold hasPersonaOnPlatform. now rewrite H. Qed.

Lemma claims_own_link user publicKey w cid :
  wellFormed w ->
  claimsPlatform (linkedTo user publicKey w) (platform user)
    (mkUserCredential cid publicKey (people_id (linkedPersona user w)) true)
  = true.
Proof.
  intros Hwf. unfold claimsPlatform. cbn [credential_peopleId].
  destruct (linkedPersona_found user publicKey w Hwf) as (-> & -> & _).
  apply String.eqb_refl.
Qed.

Lemma credentials_linkedTo user publicKey w :
  exists cid,
    credentials (linkedTo user publicKey w)
    = credentials w
      ++ [mkUserCredential cid publicKey (people_id (linkedPersona user w))
                           true].
Proof.
  unfold linkedTo, linkedPersona.
  destruct (knownPersona w user); eexists; reflexivity.
Qed.

Lemma hasPersonaOnPlatform_linkedTo user publicKey w :
  wellFormed w ->
  hasPersonaOnPlatform (linkedTo user publicKey w) user publicKey = true.
Proof.
  intros Hwf. unfold hasPersonaOnPlatform.
  destruct (credentials_linkedTo user publicKey w) as [cid ->].
  rewrite filter_app. cbn [filter credential_userId].
  rewrite String.eqb_refl. apply existsb_last.
  now apply claims_own_link.
Qed.

(** A wallet that holds one twitter persona presents another. *)
Definition aliceLinked : World :=
  mkWorld [mkPeople 0 "alice" "44196397" "twitter" ""]
          [mkUserCredential 1 "5Wallet" 0 true] [] 2 [].

(** X13.  The first link of a wallet on a platform goes through and adds
    exactly one credential, of the wallet, marked logged in, pointing to
    the persona of the submitted account on that platform.  That persona
    is the stored one when the account is already known, whoever linked
    it, and is stored from the descriptor otherwise; no other persona is
    added, and posts and chain log are not touched. *)
Theorem first_link_adds_one_credential :
  forall user publicKey w,
    wellFormed w ->
    hasPersonaOnPlatform w user publicKey = false ->
    exists p cid w',
      createCredential user publicKey w = (Ok tt, w')
      /\ credentials w'
         = credentials w ++ [mkUserCredential cid publicKey (people_id p) true]
      /\ In p (people w')
      /\ people_platform_account_id p = id user
      /\ people_platform p = platform user
      /\ ((knownPersona w user = Some p /\ people w' = people w)
          \/ (knownPersona w user = None
              /\ p = personaRecord (nextId w) user
              /\ people w' = people w ++ [p]))
      /\ posts w' = posts w /\ chainLog w' = chainLog w.
Proof.
  intros user publicKey w Hwf Hguard.
  rewrite (createCredential_wellFormed _ _ _ Hwf), Hguard.
  unfold linkedTo.
  destruct (knownPersona w user) as [fp|] eqn:E.
  - destruct (knownPersona_spec _ _ _ E) as (Hin & Ha & Hp).
    exists fp. eexists. eexists. split; [reflexivity|].
    cbn [credentials people posts chainLog].
    split; [reflexivity|]. split; [assumption|].
    split; [assumption|]. split; [assumption|].
    split; [left; now split|split; reflexivity].
  - exists (personaRecord (nextId w) user). eexists. eexists.
    split; [reflexivity|]. cbn [credentials people posts chainLog].
    split; [reflexivity|].
    split; [apply in_or_app; right; now left|].
    split; [reflexivity|]. split; [reflexivity|].
    split; [right; repeat split|split; reflexivity].
Qed.

Lemma first_link_adds_one_credential_witness :
  createCredential persona "5Wallet" emptyWorld
  = (Ok tt,
     mkWorld [mkPeople 0 "alice" "44196397" "twitter"
                       "https://pbs.example/alice_400x400.jpg"]
             [mkUserCredential 1 "5Wallet" 0 true] [] 2 []).
Proof.
  destruct (first_link_adds_one_credential persona "5Wallet" emptyWorld)
    as (p & cid & w' & Hrun & _).
  - split; constructor.
  - reflexivity.
  - rewrite Hrun. f_equal.
    assert (H : snd (createCredential persona "5Wallet" emptyWorld) = w')
      by now rewrite Hrun.
    rewrite <- H. reflexivity.
Defined.

(** X14.  A wallet claims a platform once.  After a link that went
    through, every further link of that wallet on the same platform is
    refused with the platform's error, whether it presents the same
    account again or another one, and the store stays as the first link
    left it. *)
Theorem platform_is_claimed_once_per_wallet :
  forall user publicKey w,
    wellFormed w ->
    fst (createCredential user publicKey w) = Ok tt ->
    forall other,
      platform other = platform user ->
      createCredential other publicKey
                       (snd (createCredential user publicKey w))
      = (Throw (UnprocessableEntity
                  ("This " ++ platform user ++ " does not belong to you!")),
         snd (createCredential user publicKey w)).
Proof.
  intros user publicKey w Hwf Hok other Hplat.
  rewrite (createCredential_wellFormed _ _ _ Hwf) in Hok |- *.
  destruct (hasPersonaOnPlatform w user publicKey); [discriminate|].
  cbn [snd].
  rewrite (createCredential_wellFormed other publicKey _
             (linkedTo_wellFormed user publicKey w Hwf)).
  rewrite (hasPersonaOnPlatform_platform _ user other publicKey Hplat).
  rewrite (hasPersonaOnPlatform_linkedTo user publicKey w Hwf).
  unfold PlatformAlreadyClaimed. now rewrite Hplat.
Qed.

Lemma platform_is_claimed_once_per_wallet_witness :
  createCredential otherPersona "5Wallet"
    (snd (createCredential persona "5Wallet" emptyWorld))
  = (Throw (UnprocessableEntity "This twitter does not belong to you!"),
     snd (createCredential persona "5Wallet" emptyWorld)).
Proof.
  apply (platform_is_claimed_once_per_wallet persona "5Wallet" emptyWorld).
  - split; constructor.
  - reflexivity.
  - reflexivity.
Defined.

Lemma knownPersona_linkedTo user publicKey w :
  wellFormed w ->
  knownPersona (linkedTo user publicKey w) user = Some (linkedPersona user w).
Proof.
  intros [Hnd Hlt]. unfold linkedTo, linkedPersona.
  destruct (knownPersona w user) as [fp|] eqn:E.
  - unfold knownPersona in *. cbn [people]. exact E.
  - unfold knownPersona in *. cbn [people].
    assert (Hno : forall l,
               find (fun p => String.eqb (people_platform_account_id p) (id user)
                              && String.eqb (people_platform p) (platform user))
                    l = None ->
               find (fun p => String.eqb (people_platform_account_id p) (id user)
                              && String.eqb (people_platform p) (platform user))
                    (l ++ [personaRecord (nextId w) user])
               = Some (personaRecord (nextId w) user)).
    { induction l as [|x l IH]; simpl.
      - intros _. now rewrite !String.eqb_refl.
      - destruct (_ && _); [discriminate|exact IH]. }
    now apply Hno.
Qed.

Lemma linkedTo_known user publicKey w p :
  knownPersona w user = Some p ->
  linkedTo user publicKey w
  = mkWorld (people w)
            (credentials w
             ++ [mkUserCredential (nextId w) publicKey (people_id p) true])
            (posts w) (S (nextId w)) (chainLog w).
Proof. intros H. unfold linkedTo. now rewrite H. Qed.

(** X15.  A persona is stored once and shared: when a second wallet links
    the account a first wallet has linked, no persona is added, and the
    two credentials, one per wallet, point to the same persona. *)
Theorem persona_is_shared_between_wallets :
  forall user first second w,
    wellFormed w ->
    fst (createCredential user first w) = Ok tt ->
    hasPersonaOnPlatform (snd (createCredential user first w)) user second
    = false ->
    exists p c1 c2 w2,
      createCredential user second (snd (createCredential user first w))
      = (Ok tt, w2)
      /\ people w2 = people (snd (createCredential user first w))
      /\ credentials w2 = credentials w ++ [c1; c2]
      /\ credential_userId c1 = first /\ credential_userId c2 = second
      /\ credential_peopleId c1 = people_id p
      /\ credential_peopleId c2 = people_id p
      /\ In p (people w2)
      /\ people_platform_account_id p = id user
      /\ people_platform p = platform user.
Proof.
  intros user first second w Hwf Hok Hfree.
  rewrite (createCredential_wellFormed _ _ _ Hwf) in Hok, Hfree |- *.
  destruct (hasPersonaOnPlatform w user first); [discriminate|].
  cbn [snd] in *.
  pose proof (linkedTo_wellFormed user first w Hwf) as Hwf1.
  rewrite (createCredential_wellFormed _ _ _ Hwf1), Hfree.
  pose proof (knownPersona_linkedTo user first w Hwf) as Hk.
  destruct (linkedPersona_found user first w Hwf) as (Hfind & Hplat & Hacc).
  destruct (credentials_linkedTo user first w) as [cid Hc1].
  exists (linkedPersona user w).
  exists (mkUserCredential cid first (people_id (linkedPersona user w)) true).
  exists (mkUserCredential (nextId (linkedTo user first w)) second
                           (people_id (linkedPersona user w)) true).
  eexists. split; [reflexivity|].
  rewrite (linkedTo_known user second _ _ Hk). cbn [people credentials].
  split; [reflexivity|].
  split; [rewrite Hc1, <- app_assoc; reflexivity|].
  repeat (split; [reflexivity|]).
  split; [|split; assumption].
  apply find_some in Hfind. apply Hfind.
Qed.

Lemma persona_is_shared_between_wallets_witness :
  createCredential persona "5Second"
    (snd (createCredential persona "5Wallet" emptyWorld))
  = (Ok tt,
     mkWorld [mkPeople 0 "alice" "44196397" "twitter"
                       "https://pbs.example/alice_400x400.jpg"]
             [mkUserCredential 1 "5Wallet" 0 true;
              mkUserCredential 2 "5Second" 0 true] [] 3 []).
Proof.
  destruct (persona_is_shared_between_wallets persona "5Wallet" "5Second"
              emptyWorld) as (p & c1 & c2 & w2 & Hrun & _).
  - split; constructor.
  - reflexivity.
  - reflexivity.
  - rewrite Hrun. f_equal.
    assert (H : snd (createCredential persona "5Second"
                       (snd (createCredential persona "5Wallet" emptyWorld)))
                = w2) by now rewrite Hrun.
    rewrite <- H. reflexivity.
Defined.

(** ** One persona per wallet and platform *)

(** The credentials of a wallet that point to a persona of a platform. *)
Definition personasOn (w : World) (publicKey platform : string)
  : list UserCredential :=
  filter (claimsPlatform w platform)
         (filter (fun c => String.eqb (credential_userId c) publicKey)
                 (credentials w)).

(** A wallet has at most one persona on a platform. *)
Definition onePersonaPerPlatform (w : World) : Prop :=
  forall publicKey platform,
    (List.length (personasOn w publicKey platform) <= 1)%nat.

(** Credentials point to identifiers that were given out. *)
Definition linksBelowNext (w : World) : Prop :=
  Forall (fun c => (credential_peopleId c < nextId w)%nat) (credentials w).

Lemma find_app {A} (f : A -> bool) (l l' : list A) :
  find f (l ++ l')
  = match find f l with
    | Some x => Some x
    | None => find f l'
    end.
Proof.
  induction l as [|x l IH]; simpl; [reflexivity|].
  destruct (f x); [reflexivity|exact IH].
Qed.

Lemma claimsPlatform_linkedTo user publicKey w plat c :
  (credential_peopleId c < nextId w)%nat ->
  claimsPlatform (linkedTo user publicKey w) plat c = claimsPlatform w plat c.
Proof.
  intros Hlt. unfold claimsPlatform, linkedTo.
  destruct (knownPersona w user); cbn [people]; [reflexivity|].
  rewrite find_app.
  destruct (find _ (people w)); [reflexivity|].
  cbn [find personaRecord people_id].
  assert (Nat.eqb (nextId w) (credential_peopleId c) = false) as ->
    by (apply Nat.eqb_neq; lia).
  reflexivity.
Qed.

Lemma personasOn_linkedTo user publicKey w pk plat :
  wellFormed w -> linksBelowNext w ->
  exists c,
    credential_userId c = publicKey
    /\ personasOn (linkedTo user publicKey w) pk plat
       = personasOn w pk plat
         ++ (if String.eqb publicKey pk && String.eqb (platform user) plat
             then [c] else []).
Proof.
  intros Hwf Hlinks.
  destruct (credentials_linkedTo user publicKey w) as [cid Hc].
  exists (mkUserCredential cid publicKey (people_id (linkedPersona user w)) true).
  split; [reflexivity|].
  unfold personasOn. rewrite Hc, !filter_app. f_equal.
  - apply filter_ext_in. intros c Hin. apply filter_In in Hin.
    destruct Hin as [Hin _]. apply claimsPlatform_linkedTo.
    unfold linksBelowNext in Hlinks. rewrite Forall_forall in Hlinks.
    now apply Hlinks.
  - cbn [filter credential_userId].
    destruct (String.eqb publicKey pk); [|reflexivity].
    cbn [filter andb]. unfold claimsPlatform at 1. cbn [credential_peopleId].
    destruct (linkedPersona_found user publicKey w Hwf) as (-> & -> & _).
    destruct (String.eqb (platform user) plat); reflexivity.
Qed.

Lemma linkedTo_linksBelowNext user publicKey w :
  wellFormed w -> linksBelowNext w -> linksBelowNext (linkedTo user publicKey w).
Proof.
  intros [_ Hlt] Hlinks. unfold linksBelowNext, linkedTo in *.
  destruct (knownPersona w user) as [fp|] eqn:E; cbn [credentials nextId].
  - apply Forall_app. split.
    + eapply Forall_impl; [|exact Hlinks]. intros c Hc. simpl in Hc. lia.
    + constructor; [|constructor]. cbn [credential_peopleId].
      destruct (knownPersona_spec _ _ _ E) as (Hin & _).
      rewrite Forall_forall in Hlt. specialize (Hlt fp Hin). simpl in Hlt. lia.
  - apply Forall_app. split.
    + eapply Forall_impl; [|exact Hlinks]. intros c Hc. simpl in Hc. lia.
    + constructor; [|constructor]. cbn [credential_peopleId]. lia.
Qed.

(** X16.  [createCredential] keeps the rule that a wallet has at most one
    persona on a platform: in a store with distinct people ids, whose
    credentials point to ids that were given out, the rule holds after the
    call when it held before, whatever the call answers, and the store
    stays of that kind. *)
Theorem link_keeps_one_persona_per_platform :
  forall user publicKey w,
    wellFormed w -> linksBelowNext w -> onePersonaPerPlatform w ->
    onePersonaPerPlatform (snd (createCredential user publicKey w))
    /\ wellFormed (snd (createCredential user publicKey w))
    /\ linksBelowNext (snd (createCredential user publicKey w)).
Proof.
  intros user publicKey w Hwf Hlinks Hone.
  rewrite (createCredential_wellFormed _ _ _ Hwf).
  destruct (hasPersonaOnPlatform w user publicKey) eqn:Hguard;
    cbn [snd]; [split; [assumption|split; assumption]|].
  split; [|split;
           [now apply linkedTo_wellFormed|now apply linkedTo_linksBelowNext]].
  intros pk plat.
  destruct (personasOn_linkedTo user publicKey w pk plat Hwf Hlinks)
    as (c & _ & ->).
  destruct (String.eqb publicKey pk && String.eqb (platform user) plat) eqn:E.
  - apply andb_true_iff in E. destruct E as [Epk Eplat].
    apply String.eqb_eq in Epk, Eplat. subst pk plat.
    assert (Hnone : personasOn w publicKey (platform user) = []).
    { unfold personasOn. apply filter_none. apply Forall_forall.
      intros x Hx. unfold hasPersonaOnPlatform in Hguard.
      destruct (claimsPlatform w (platform user) x) eqn:Hx'; [|reflexivity].
      assert (existsb (claimsPlatform w (platform user))
                (filter (fun c0 => String.eqb (credential_userId c0) publicKey)
                        (credentials w)) = true); [|congruence].
      apply existsb_exists. now exists x. }
    rewrite Hnone. simpl. lia.
  - rewrite app_nil_r. apply Hone.
Qed.

Lemma link_keeps_one_persona_per_platform_witness :
  onePersonaPerPlatform (snd (createCredential otherPersona "5Second" aliceLinked)).
Proof.
  apply (link_keeps_one_persona_per_platform otherPersona "5Second" aliceLinked).
  - split; repeat constructor. intros [].
  - repeat constructor.
  - intros pk plat. unfold personasOn, aliceLinked. cbn [credentials filter].
    destruct (credential_userId _ =? pk)%string; cbn [filter];
      [destruct (claimsPlatform _ _ _)|]; simpl; lia.
Defined.

(** ** Re-checking a link: what [verify] can do *)

(** Without the persona or without the link, [verify] answers [false] at
    once. *)
Lemma verify_not_linked sv userId peopleId w :
  find (fun p => Nat.eqb (people_id p) peopleId) (people w) = None
  \/ find (fun c => String.eqb (credential_userId c) userId
                    && Nat.eqb (credential_peopleId c) peopleId)
          (credentials w) = None ->
  verify sv userId peopleId w = (Ok false, w).
Proof.
  intros H. rewrite verify_catches. unfold verifyTry.
  unfold bind at 1. unfold peopleFindById, gets.
  unfold bind at 1. unfold credentialFindOne, gets.
  destruct H as [-> | ->]; [reflexivity|].
  destruct (find _ (people w)); reflexivity.
Qed.

(** With both, it answers [false] and leaves everything as it was, or it
    gives the verdict of a comparison. *)
Lemma verify_linked_cases sv userId peopleId w fp fc :
  linked w userId peopleId fp fc ->
  verify sv userId peopleId w = (Ok false, w)
  \/ exists matched,
      verify sv userId peopleId w = verdict sv userId peopleId fc matched w.
Proof.
  intros Hl. pose proof (found_credential_exists _ _ _ _ _ Hl) as Hex.
  rewrite verify_catches, (verifyTry_linked _ _ _ _ _ _ Hl). cbv zeta.
  destruct (String.eqb (people_platform fp) "twitter").
  { unfold bind at 1. unfold lift at 1.
    destruct (twitterTweets sv _) as [[|t0 rest]|e]; [now left| |now left].
    right. eexists. now apply settle_caught. }
  destruct (String.eqb (people_platform fp) "reddit").
  { unfold bind at 1. unfold lift at 1.
    destruct (redditListing sv _) as [[|c0 rest]|e]; [now left| |now left].
    right. eexists. now apply settle_caught. }
  destruct (String.eqb (people_platform fp) "facebook"); [|now left].
  unfold bind at 1. unfold lift at 1.
  destruct (facebookPosts sv _) as [page|e]; [|now left].
  right. eexists. now apply settle_caught.
Qed.

Lemma linked_or_not w userId peopleId :
  (exists fp fc, linked w userId peopleId fp fc)
  \/ find (fun p => Nat.eqb (people_id p) peopleId) (people w) = None
  \/ find (fun c => String.eqb (credential_userId c) userId
                    && Nat.eqb (credential_peopleId c) peopleId)
          (credentials w) = None.
Proof.
  unfold linked.
  destruct (find _ (people w)) as [fp|]; [|right; now left].
  destruct (find _ (credentials w)) as [fc|]; [|right; now right].
  left. now exists fp, fc.
Qed.

Lemma sweep_store sv to selected w :
  exists evs, snd (sweep sv to selected w) = withLog w (chainLog w ++ evs).
Proof.
  destruct (sweep_connectionUse sv to selected w) as (evs & H & _).
  now exists evs.
Qed.

(** X17.  [verify] answers [true] only for a stored link whose escrow
    sweep ran to its end: the persona and the link exist, the sweep to the
    user returned, and the store is left with the link in place, only the
    chain log having grown. *)
Theorem verified_link_is_swept_and_kept :
  forall sv userId peopleId w w',
    verify sv userId peopleId w = (Ok true, w') ->
    exists foundPeople foundCredential,
      linked w userId peopleId foundPeople foundCredential
      /\ transferEscorwToUser sv peopleId userId w = (Ok tt, w')
      /\ people w' = people w
      /\ credentials w' = credentials w
      /\ In foundCredential (credentials w').
Proof.
  intros sv userId peopleId w w' Hrun.
  destruct (linked_or_not w userId peopleId) as [(fp & fc & Hl)|Hno].
  2:{ rewrite (verify_not_linked sv _ _ _ Hno) in Hrun. discriminate. }
  exists fp, fc. split; [exact Hl|].
  destruct (verify_linked_cases sv _ _ _ _ _ Hl) as [H|[matched H]];
    rewrite H in Hrun; [discriminate|].
  unfold verdict in Hrun. destruct matched; [|discriminate].
  destruct (sweep_store sv userId (escrowPosts peopleId userId (posts w)) w)
    as [evs Hs].
  rewrite <- transferEscorwToUser_sweep in Hs.
  destruct (transferEscorwToUser sv peopleId userId w) as [[[]|e] w1];
    cbn [fst snd isOk] in *; [|discriminate].
  injection Hrun as <-. subst w1. cbn [people credentials withLog].
  repeat (split; [reflexivity|]).
  destruct Hl as [_ Hc]. apply find_some in Hc. apply Hc.
Qed.

Lemma verified_link_is_swept_and_kept_witness :
  exists foundCredential,
    In foundCredential
       (credentials
          (snd (verify (twitterWith [mkTweet keyAtSeven]) "5Wallet" 0
                       twitterLink))).
Proof.
  destruct (verified_link_is_swept_and_kept
              (twitterWith [mkTweet keyAtSeven]) "5Wallet" 0 twitterLink
              (snd (verify (twitterWith [mkTweet keyAtSeven]) "5Wallet" 0
                           twitterLink)) eq_refl)
    as (fp & fc & _ & _ & _ & _ & Hin).
  exists fc. exact Hin.
Defined.

(** X18.  Without the persona, or without a credential of that user for
    that persona, [verify] answers [false] and does nothing: no post is
    fetched (the answer is the same whatever the services would say), no
    chain call is made, and nothing is deleted. *)
Theorem unknown_link_is_answered_false :
  forall userId peopleId w,
    find (fun p => Nat.eqb (people_id p) peopleId) (people w) = None
    \/ find (fun c => String.eqb (credential_userId c) userId
                      && Nat.eqb (credential_peopleId c) peopleId)
            (credentials w) = None ->
    forall sv, verify sv userId peopleId w = (Ok false, w).
Proof.
  intros userId peopleId w H sv. now apply verify_not_linked.
Qed.

(** Another user's link is not checked: the link of [5Wallet] is left
    alone when [5Mallory] asks. *)
Lemma unknown_link_is_answered_false_witness :
  verify (twitterWith [mkTweet keyAtSix]) "5Mallory" 0 twitterLink
  = (Ok false, twitterLink).
Proof.
  apply (unknown_link_is_answered_false "5Mallory" 0 twitterLink).
  right. reflexivity.
Defined.

(** X19.  [verify] writes little: it never touches personas or posts; the
    chain log only grows; and of the credentials it deletes at most the
    ones with the id of the link it checked, and only when it answers
    [false] without having made a chain call. *)
Theorem verify_deletes_only_the_checked_link :
  forall sv userId peopleId w,
    people (snd (verify sv userId peopleId w)) = people w
    /\ posts (snd (verify sv userId peopleId w)) = posts w
    /\ (exists evs,
           chainLog (snd (verify sv userId peopleId w)) = chainLog w ++ evs)
    /\ (credentials (snd (verify sv userId peopleId w)) = credentials w
        \/ exists foundPeople foundCredential,
            linked w userId peopleId foundPeople foundCredential
            /\ credentials (snd (verify sv userId peopleId w))
               = filter (fun c => negb (Nat.eqb (credential_id c)
                                                (credential_id foundCredential)))
                        (credentials w)
            /\ chainLog (snd (verify sv userId peopleId w)) = chainLog w
            /\ fst (verify sv userId peopleId w) = Ok false).
Proof.
  intros sv userId peopleId w.
  assert (Hsame : forall r, verify sv userId peopleId w = (r, w) ->
            people (snd (verify sv userId peopleId w)) = people w
            /\ posts (snd (verify sv userId peopleId w)) = posts w
            /\ (exists evs,
                   chainLog (snd (verify sv userId peopleId w))
                   = chainLog w ++ evs)
            /\ (credentials (snd (verify sv userId peopleId w)) = credentials w
                \/ exists foundPeople foundCredential,
                    linked w userId peopleId foundPeople foundCredential
                    /\ credentials (snd (verify sv userId peopleId w))
                       = filter (fun c =>
                                   negb (Nat.eqb (credential_id c)
                                           (credential_id foundCredential)))
                                (credentials w)
                    /\ chainLog (snd (verify sv userId peopleId w)) = chainLog w
                    /\ fst (verify sv userId peopleId w) = Ok false)).
  { intros r ->. cbn [snd]. split; [reflexivity|]. split; [reflexivity|].
    split; [exists []; now rewrite app_nil_r|now left]. }
  destruct (linked_or_not w userId peopleId) as [(fp & fc & Hl)|Hno].
  2:{ apply (Hsame (Ok false)). now apply verify_not_linked. }
  destruct (verify_linked_cases sv _ _ _ _ _ Hl) as [H|[matched H]];
    [now apply (Hsame (Ok false))|].
  rewrite H. unfold verdict. destruct matched; cbn [fst snd].
  - destruct (sweep_store sv userId (escrowPosts peopleId userId (posts w)) w)
      as [evs Hs].
    rewrite <- transferEscorwToUser_sweep in Hs. rewrite Hs.
    cbn [people posts chainLog credentials withLog].
    split; [reflexivity|]. split; [reflexivity|].
    split; [now exists evs|now left].
  - unfold removeCredential. cbn [people posts chainLog credentials].
    split; [reflexivity|]. split; [reflexivity|].
    split; [exists []; now rewrite app_nil_r|].
    right. exists fp, fc. repeat split; try reflexivity; apply Hl.
Qed.

(** ** Sweeps that fail, and balances below the fee *)

Lemma forEach_aborts sv to pre p rest e w :
  Forall (goesThrough sv to) pre ->
  snd (attempt sv to p) = Throw e ->
  forEach (pre ++ p :: rest) (transferFrom sv to) w
  = (Throw e,
     withLog w (chainLog w ++ flat_map (eventsOf sv to) pre
                ++ fst (attempt sv to p))).
Proof.
  intros Hpre Hp. revert w. induction Hpre as [|q pre Hq _ IH]; intros w.
  - cbn [app forEach flat_map]. unfold bind at 1.
    rewrite transferFrom_attempt, Hp. reflexivity.
  - cbn [app forEach flat_map]. unfold bind at 1.
    rewrite transferFrom_attempt, (attempt_goesThrough _ _ _ Hq).
    cbn [fst snd]. rewrite IH. cbn [chainLog withLog].
    now rewrite <- !app_assoc.
Qed.

Lemma sweep_aborts sv to pre p rest e w :
  polkadotApi sv = true ->
  Forall (goesThrough sv to) pre ->
  snd (attempt sv to p) = Throw e ->
  sweep sv to (pre ++ p :: rest) w
  = (Throw e,
     withLog w (chainLog w ++ Connect :: flat_map (eventsOf sv to) pre
                ++ fst (attempt sv to p))).
Proof.
  intros Hapi Hpre Hp. rewrite (sweep_connected _ _ _ _ Hapi).
  rewrite (forEach_aborts _ _ _ _ _ _ _ Hpre Hp).
  cbn [chainLog withLog]. now rewrite <- app_assoc.
Qed.

(** X20.  A sweep stops at the first post whose balance query or transfer
    throws: the posts before it are handled as usual, the failing call is
    the last one made, the posts after it are neither queried nor paid
    out, and the error is the sweep's own.  ([attempt] is one iteration:
    its calls, and how it ends.) *)
Theorem sweep_stops_at_first_failure :
  forall sv w,
    polkadotApi sv = true ->
    (forall peopleId userId pre p rest e,
        escrowPosts peopleId userId (posts w) = pre ++ p :: rest ->
        Forall (goesThrough sv userId) pre ->
        snd (attempt sv userId p) = Throw e ->
        transferEscorwToUser sv peopleId userId w
        = (Throw e,
           withLog w (chainLog w ++ Connect
                      :: flat_map (eventsOf sv userId) pre
                      ++ fst (attempt sv userId p))))
    /\ (forall publicKey account pre p rest e,
        tipPosts publicKey account (posts w) = pre ++ p :: rest ->
        Forall (goesThrough sv publicKey) pre ->
        snd (attempt sv publicKey p) = Throw e ->
        transferTipsToUser sv publicKey account w
        = (Throw e,
           withLog w (chainLog w ++ Connect
                      :: flat_map (eventsOf sv publicKey) pre
                      ++ fst (attempt sv publicKey p)))).
Proof.
  intros sv w Hapi. split.
  - intros peopleId userId pre p rest e Hsel Hpre Hp.
    rewrite transferEscorwToUser_sweep, Hsel.
    now apply sweep_aborts.
  - intros publicKey account pre p rest e Hsel Hpre Hp.
    rewrite transferTipsToUser_sweep, Hsel.
    now apply sweep_aborts.
Qed.

(** With funds on the first and third posts and the transfer of the first
    failing, the third post is never looked at. *)
Lemma sweep_stops_at_first_failure_witness :
  transferEscorwToUser (chainOnly (fun _ _ _ => false)) 1 "5Target" fourPosts
  = (Throw (ExternalError "transfer failed"),
     withLog fourPosts
       [Connect; Query "5//post1";
        SignAndSend "//post1" "5Target" 374999853]).
Proof.
  destruct (sweep_stops_at_first_failure (chainOnly (fun _ _ _ => false))
              fourPosts eq_refl) as [Hescrow _].
  exact (Hescrow 1 "5Target" [] post1 [post2; post3]
                 (ExternalError "transfer failed") eq_refl (Forall_nil _)
                 eq_refl).
Defined.

Lemma In_transfer_of_funded sv to selected p :
  In p selected -> hasFunds sv p = true ->
  In (transferOf sv to p) (flat_map (eventsOf sv to) selected).
Proof.
  intros Hin Hf. apply in_flat_map. exists p. split; [assumption|].
  unfold eventsOf. rewrite Hf. right. now left.
Qed.

Lemma sweep_pays_below_fee sv to selected w p b :
  polkadotApi sv = true ->
  Forall (goesThrough sv to) selected ->
  In p selected -> balanceOf sv p = Some b ->
  (0 < b)%N -> (Z.of_N b < gasFee)%Z ->
  In (SignAndSend (derivedUri p) to (Z.of_N b - gasFee))
     (chainLog (snd (sweep sv to selected w)))
  /\ (Z.of_N b - gasFee < 0)%Z.
Proof.
  intros Hapi Hgo Hin Hb Hpos Hlow. split; [|lia].
  destruct (sweep_sweepsSelected sv to selected w Hapi Hgo) as (Hrun & _).
  rewrite Hrun. cbn [snd chainLog withLog].
  rewrite !in_app_iff. right. right. left.
  assert (Hf : hasFunds sv p = true).
  { unfold hasFunds. rewrite Hb. now apply N.ltb_lt. }
  pose proof (In_transfer_of_funded sv to selected p Hin Hf) as H.
  unfold transferOf in H. rewrite Hb in H. exact H.
Qed.

(** X21.  The fee is subtracted without a check: for a selected post
    whose derived account holds a positive balance below the fee of
    125000147, a sweep in which nothing throws submits a transfer of the
    balance less the fee all the same, a negative amount. *)
Theorem sweep_submits_negative_amount_below_fee :
  forall sv w p b,
    polkadotApi sv = true ->
    balanceOf sv p = Some b -> (0 < b)%N -> (Z.of_N b < 125000147)%Z ->
    (forall peopleId userId,
        Forall (goesThrough sv userId) (escrowPosts peopleId userId (posts w)) ->
        In p (escrowPosts peopleId userId (posts w)) ->
        In (SignAndSend (derivedUri p) userId (Z.of_N b - 125000147))
           (chainLog (snd (transferEscorwToUser sv peopleId userId w)))
        /\ (Z.of_N b - 125000147 < 0)%Z)
    /\ (forall publicKey account,
        Forall (goesThrough sv publicKey) (tipPosts publicKey account (posts w)) ->
        In p (tipPosts publicKey account (posts w)) ->
        In (SignAndSend (derivedUri p) publicKey (Z.of_N b - 125000147))
           (chainLog (snd (transferTipsToUser sv publicKey account w)))
        /\ (Z.of_N b - 125000147 < 0)%Z).
Proof.
  intros sv w p b Hapi Hb Hpos Hlow. split.
  - intros peopleId userId Hgo Hin. rewrite transferEscorwToUser_sweep.
    exact (sweep_pays_below_fee sv userId _ w p b Hapi Hgo Hin Hb Hpos Hlow).
  - intros publicKey account Hgo Hin. rewrite transferTipsToUser_sweep.
    exact (sweep_pays_below_fee sv publicKey _ w p b Hapi Hgo Hin Hb Hpos Hlow).
Qed.

(** A chain on which the account of [post1] holds 1000 units. *)
Definition dust : Services :=
  mkServices offline offline offline offline offline noEngine true chainAddress
             (fun account => if String.eqb account "5//post1"
                             then Some 1000%N else Some 0%N)
             (fun _ _ _ => true).

Lemma sweep_submits_negative_amount_below_fee_witness :
  In (SignAndSend "//post1" "5Target" (-124999147))
     (chainLog (snd (transferEscorwToUser dust 1 "5Target" fourPosts))).
Proof.
  destruct (sweep_submits_negative_amount_below_fee dust fourPosts post1 1000%N
              eq_refl eq_refl eq_refl eq_refl) as [Hescrow _].
  destruct (Hescrow 1 "5Target") as [Hin _].
  - apply Forall_forall. intros p _. unfold goesThrough.
    destruct (balanceOf dust p) as [b|] eqn:E.
    + exists b. split; [reflexivity|]. intros _. reflexivity.
    + unfold balanceOf in E. cbn in E.
      destruct (String.eqb _ _) in E; discriminate E.
  - left. reflexivity.
  - exact Hin.
Defined.

(** ** Verifying by a published key: failures and repetition *)

(** [verifyUser] either throws with nothing written, or is the link and
    the sweep for a persona of the platform. *)
Lemma verifyUser_cases sv publicKey username platform_ w :
  (exists e, verifyUser sv publicKey username platform_ w = (Throw e, w))
  \/ exists user,
      platform user = platform_
      /\ verifyUser sv publicKey username platform_ w
         = linkAndSweep sv user publicKey w.
Proof.
  remember (verifyUser sv publicKey username platform_ w) as run eqn:Hrun.
  unfold verifyUser in Hrun.
  destruct (String.eqb platform_ "twitter") eqn:Et; cbv iota in Hrun.
  { apply String.eqb_eq in Et. subst platform_.
    unfold bind at 1 in Hrun. unfold lift at 1 in Hrun.
    destruct (twitterUsers sv _) as [[user|]|e];
      [|left; eexists; exact Hrun|left; eexists; exact Hrun].
    unfold bind at 1 in Hrun. unfold lift at 1 in Hrun.
    destruct (twitterTweets sv _) as [[|t0 rest]|e];
      [left; eexists; exact Hrun| |left; eexists; exact Hrun].
    destruct (Z.eqb _ _); [left; eexists; exact Hrun|].
    right. exists (twitterPersona user). split; [reflexivity|exact Hrun]. }
  destruct (String.eqb platform_ "reddit") eqn:Er; cbv iota in Hrun.
  { apply String.eqb_eq in Er. subst platform_.
    unfold bind at 1 in Hrun. unfold lift at 1 in Hrun.
    destruct (redditAbout sv _) as [redditUser|e];
      [|left; eexists; exact Hrun].
    unfold bind at 1 in Hrun. unfold lift at 1 in Hrun.
    destruct (redditListing sv _) as [[|c0 rest]|e];
      [left; eexists; exact Hrun| |left; eexists; exact Hrun].
    destruct (Z.eqb _ _); [left; eexists; exact Hrun|].
    right. exists (redditPersona redditUser).
    split; [reflexivity|exact Hrun]. }
  left. eexists. exact Hrun.
Qed.

(** A link and sweep that returns has stored the link and made the
    connection and the disconnection; its answer is [true]. *)
Lemma linkAndSweep_Ok sv user publicKey w b w' :
  wellFormed w ->
  linkAndSweep sv user publicKey w = (Ok b, w') ->
  b = true
  /\ hasPersonaOnPlatform w user publicKey = false
  /\ exists evs, w' = withLog (linkedTo user publicKey w) (chainLog w ++ evs).
Proof.
  intros Hwf. unfold linkAndSweep. unfold bind at 1.
  rewrite (createCredential_wellFormed _ _ _ Hwf).
  destruct (hasPersonaOnPlatform w user publicKey); [discriminate|].
  unfold bind at 1. rewrite transferTipsToUser_sweep.
  destruct (sweep_store sv publicKey
              (tipPosts publicKey (id user) (posts (linkedTo user publicKey w)))
              (linkedTo user publicKey w)) as [evs Hs].
  destruct (sweep sv publicKey _ (linkedTo user publicKey w)) as [[[]|e] w1];
    [|discriminate].
  cbn [snd] in Hs. subst w1. intros [= <- <-].
  split; [reflexivity|]. split; [reflexivity|]. exists evs.
  unfold linkedTo. destruct (knownPersona w user); reflexivity.
Qed.

(** X22.  [verifyUser] fails before it writes anything when the account
    or its posts are not there: an unknown twitter user name is a
    [NotFound] (['Invalid username']), a twitter account without tweets is
    a [TypeError] (the first tweet is read unguarded), a reddit account
    without posts is a [NotFound] (['Cannot find the spesified post']),
    and an error of a fetch is passed on unchanged.  In all these cases
    the store and the chain log are untouched. *)
Theorem verifyUser_fails_without_account_or_posts :
  forall sv publicKey username w,
    (twitterUsers sv ("users/by/username/" ++ username
                      ++ "?user.fields=profile_image_url")%string = Ok None ->
     verifyUser sv publicKey username "twitter" w
     = (Throw (NotFound "Invalid username"), w))
    /\ (forall user,
           twitterUsers sv ("users/by/username/" ++ username
                            ++ "?user.fields=profile_image_url")%string
           = Ok (Some user) ->
           twitterTweets sv ("users/" ++ tw_id user
                             ++ "/tweets?max_results=5")%string = Ok [] ->
           verifyUser sv publicKey username "twitter" w
           = (Throw (TypeError "Cannot read properties of undefined"), w))
    /\ (forall redditUser,
           redditAbout sv ("user/" ++ username ++ "/about.json")%string
           = Ok redditUser ->
           redditListing sv ("user/" ++ username ++ "/.json?limit=1")%string
           = Ok [] ->
           verifyUser sv publicKey username "reddit" w
           = (Throw (NotFound "Cannot find the spesified post"), w))
    /\ (forall e,
           twitterUsers sv ("users/by/username/" ++ username
                            ++ "?user.fields=profile_image_url")%string
           = Throw e ->
           verifyUser sv publicKey username "twitter" w = (Throw e, w))
    /\ (forall e,
           redditAbout sv ("user/" ++ username ++ "/about.json")%string
           = Throw e ->
           verifyUser sv publicKey username "reddit" w = (Throw e, w)).
Proof.
  intros sv publicKey username w.
  split; [|split; [|split; [|split]]].
  - intros H. unfold verifyUser. cbn [String.eqb Ascii.eqb Bool.eqb].
    cbv iota. unfold bind at 1. unfold lift at 1. now rewrite H.
  - intros user Hu Ht. unfold verifyUser. cbn [String.eqb Ascii.eqb Bool.eqb].
    cbv iota. unfold bind at 1. unfold lift at 1. rewrite Hu.
    unfold bind at 1. unfold lift at 1. now rewrite Ht.
  - intros redditUser Hu Hl. unfold verifyUser.
    cbn [String.eqb Ascii.eqb Bool.eqb]. cbv iota.
    unfold bind at 1. unfold lift at 1. rewrite Hu.
    unfold bind at 1. unfold lift at 1. now rewrite Hl.
  - intros e H. unfold verifyUser. cbn [String.eqb Ascii.eqb Bool.eqb].
    cbv iota. unfold bind at 1. unfold lift at 1. now rewrite H.
  - intros e H. unfold verifyUser. cbn [String.eqb Ascii.eqb Bool.eqb].
    cbv iota. unfold bind at 1. unfold lift at 1. now rewrite H.
Qed.

(** X23.  A wallet is verified at most once per platform.  When
    [verifyUser] returns, it returns [true], the wallet has got exactly one
    more credential, and from then on every [verifyUser] of that wallet on
    that platform throws and writes nothing, whatever account it names and
    whatever the services answer. *)
Theorem wallet_is_verified_once_per_platform :
  forall sv publicKey username platform_ w b w',
    wellFormed w ->
    verifyUser sv publicKey username platform_ w = (Ok b, w') ->
    b = true
    /\ List.length (credentials w') = S (List.length (credentials w))
    /\ forall sv' username',
        exists e,
          verifyUser sv' publicKey username' platform_ w' = (Throw e, w').
Proof.
  intros sv publicKey username platform_ w b w' Hwf Hrun.
  destruct (verifyUser_cases sv publicKey username platform_ w)
    as [[e H]|(user & Hplat & H)]; rewrite H in Hrun; [discriminate|].
  destruct (linkAndSweep_Ok _ _ _ _ _ _ Hwf Hrun) as (-> & _ & evs & ->).
  split; [reflexivity|]. split.
  - cbn [credentials withLog].
    destruct (credentials_linkedTo user publicKey w) as [cid ->].
    rewrite length_app. simpl. lia.
  - intros sv' username'.
    set (w1 := withLog (linkedTo user publicKey w) (chainLog w ++ evs)).
    destruct (verifyUser_cases sv' publicKey username' platform_ w1)
      as [[e H']|(user' & Hplat' & H')]; [now exists e|].
    rewrite H'. unfold linkAndSweep. unfold bind at 1.
    assert (Hwf1 : wellFormed w1)
      by exact (linkedTo_wellFormed user publicKey w Hwf).
    rewrite (createCredential_wellFormed _ _ _ Hwf1).
    assert (Hg : hasPersonaOnPlatform w1 user' publicKey = true).
    { rewrite (hasPersonaOnPlatform_platform w1 user user' publicKey)
        by congruence.
      exact (hasPersonaOnPlatform_linkedTo user publicKey w Hwf). }
    rewrite Hg. eexists. reflexivity.
Qed.

Lemma wallet_is_verified_once_per_platform_witness :
  exists e,
    verifyUser (twitterWith proofFirst) "5Wallet" "alice" "twitter"
      (snd (verifyUser (twitterWith proofFirst) "5Wallet" "alice" "twitter"
                       emptyWorld))
    = (Throw e,
       snd (verifyUser (twitterWith proofFirst) "5Wallet" "alice" "twitter"
                       emptyWorld)).
Proof.
  destruct (wallet_is_verified_once_per_platform (twitterWith proofFirst)
              "5Wallet" "alice" "twitter" emptyWorld true
              (snd (verifyUser (twitterWith proofFirst) "5Wallet" "alice"
                               "twitter" emptyWorld)))
    as (_ & _ & H).
  - split; constructor.
  - reflexivity.
  - exact (H (twitterWith proofFirst) "alice").
Defined.

End LinkingAndSweeping.
